(** * Octree of the Lore point-cloud toolkit: location codes, build,
      traversal and box queries.

    The development embeds [Octree] (build, generateLocCode, getParent,
    getDepth, traverse, traverseIf, raySearch, getClosestBox,
    getClosestBoxFromCenter, kNearestNeighbours and their helpers, then
    getCenters, getFarthestBox, getClosestPoint, getFarthestPoint,
    getNeighbours, cellDistancesSq, intersectBox and clone), the event
    listeners of [ControlsBase] and the handlers, the selection and the ray
    intersections of [OctreeHelper] as Rocq functions and proves the
    properties of the specification about them.

    Conventions of the embedding:
    - a location code is a JavaScript number that only ever goes through the
      32-bit operators [<<], [|] and [>>>]; it is a [Z] and the conversions
      ToInt32 / ToUint32 are written out;
    - the two objects [this.points] and [this.aabbs] are maps keyed by the
      location code ([gmap Z]); a value of [this.points] is [null]
      ([None]) or an index array ([Some l]), an absent key reads
      [undefined];
    - point indices are the elements of a [Uint32Array] ([N]);
    - coordinates, radii and distances are exact rationals ([Q]);
    - recursion that follows the tree is bounded by a fuel argument;
      [None] means that the fuel ran out. *)

From Stdlib Require Import ZArith QArith List Lia Lqa Bool Permutation.

From stdpp Require Import gmap list fin_maps strings.

Import ListNotations.

Local Open Scope Z_scope.

(** * The embedding *)

(** ** 32-bit integer operators of JavaScript *)

Module Int32.

Definition to_uint32 (z : Z) : Z := z mod 2 ^ 32.

Definition to_int32 (z : Z) : Z :=
  let u := to_uint32 z in
  if u <? 2 ^ 31 then u else u - 2 ^ 32.

(** [a << n] *)
Definition shl (a n : Z) : Z := to_int32 (Z.shiftl (to_int32 a) n).

(** [a | b] *)
Definition or (a b : Z) : Z := to_int32 (Z.lor (to_int32 a) (to_int32 b)).

(** [a >>> n] *)
Definition ushr (a n : Z) : Z := Z.shiftr (to_uint32 a) n.

End Int32.

(** Modelled from the spec: [Utils.msb] (Utils/Utils, outside the embedded
    sources). The spec reads "Depth = (index of highest set bit) / 3";
    [generateLocCode] tests the result against -1, the value for a code
    without any set bit. The argument is taken as a 32-bit pattern. *)
Definition msb (n : Z) : Z :=
  let u := Int32.to_uint32 n in
  if u =? 0 then -1 else Z.log2 u.

(** ** Vectors and boxes *)

Record Vector3f : Type := mkVector3f { vx : Q; vy : Q; vz : Q }.

Definition Vector3f_add (a b : Vector3f) : Vector3f :=
  mkVector3f (vx a + vx b) (vy a + vy b) (vz a + vz b).

Definition multiplyScalar (a : Vector3f) (s : Q) : Vector3f :=
  mkVector3f (vx a * s) (vy a * s) (vz a * s).

(** Modelled from the spec: the class [AABB] (AABB.js, outside the embedded
    sources): "axis-aligned cube with center+radius", "min = center -
    radius, max = center + radius on every axis", with "an assigned location
    code". *)
Record AABB : Type := mkAABB { center : Vector3f; radius : Q; locCode : Z }.

(** [new AABB(center, radius)]; the location code is assigned by [build]. *)
Definition AABB_new (c : Vector3f) (r : Q) : AABB := mkAABB c r 0.

Definition setLocCode (b : AABB) (code : Z) : AABB :=
  mkAABB (center b) (radius b) code.

Definition getLocCode (b : AABB) : Z := locCode b.

Definition AABB_min (b : AABB) : Vector3f :=
  mkVector3f (vx (center b) - radius b) (vy (center b) - radius b)
             (vz (center b) - radius b).

Definition AABB_max (b : AABB) : Vector3f :=
  mkVector3f (vx (center b) + radius b) (vy (center b) + radius b)
             (vz (center b) + radius b).

Definition Qltb (a b : Q) : bool := negb (Qle_bool b a).

Definition sq (a : Q) : Q := a * a.

(** One axis of [distanceToPointSq]. *)
Definition axisDistSq (lo hi p : Q) : Q :=
  (if Qltb p lo then sq (lo - p) else 0) + (if Qltb hi p then sq (p - hi) else 0).

(** Modelled from the spec: [AABB.distanceToPointSq], "squared distance from
    the nearest surface point of the box to p; 0 if p is inside". *)
Definition distanceToPointSq (b : AABB) (x y z : Q) : Q :=
  axisDistSq (vx (AABB_min b)) (vx (AABB_max b)) x
  + axisDistSq (vy (AABB_min b)) (vy (AABB_max b)) y
  + axisDistSq (vz (AABB_min b)) (vz (AABB_max b)) z.

(** Modelled from the spec: [AABB.distanceFromCenterToPointSq], "squared
    Euclidean distance from the box center to p (ignores box extent)". *)
Definition distanceFromCenterToPointSq (b : AABB) (x y z : Q) : Q :=
  sq (vx (center b) - x) + sq (vy (center b) - y) + sq (vz (center b) - z).

(** ** The octree *)

Record Octree : Type := mkOctree {
  threshold : nat;
  maxDepth : nat;
  points : gmap Z (option (list N));
  aabbs : gmap Z AABB
}.

(** [new Octree(threshold, maxDepth)]: [threshold || 500], [maxDepth || 8]. *)
Definition Octree_new (t d : nat) : Octree :=
  mkOctree (if Nat.eqb t 0 then 500%nat else t)
           (if Nat.eqb d 0 then 8%nat else d) ∅ ∅.

Definition offsets (i : Z) : Vector3f :=
  let m := (-1 # 2)%Q in
  let p := (1 # 2)%Q in
  match i with
  | 0 => mkVector3f m m m
  | 1 => mkVector3f m m p
  | 2 => mkVector3f m p m
  | 3 => mkVector3f m p p
  | 4 => mkVector3f p m m
  | 5 => mkVector3f p m p
  | 6 => mkVector3f p p m
  | _ => mkVector3f p p p
  end.

Definition octants : list Z := [0; 1; 2; 3; 4; 5; 6; 7].

(** [getDepth]: [Utils.msb(locCode) / 3], a JavaScript division. *)
Definition getDepth (code : Z) : Q := (inject_Z (msb code) / 3)%Q.

Definition generateLocCode (parentCode nodeCode : Z) : Z :=
  if msb parentCode =? -1 then Int32.or nodeCode 8
  else Int32.or (Int32.shl parentCode 3) nodeCode.

Definition getParent (code : Z) : Z := Int32.ushr code 3.

(** [vertices[k] >= c]; an index outside the buffer reads [undefined] and the
    comparison is false. *)
Definition coordGe (vertices : list Q) (k : N) (c : Q) : bool :=
  match nth_error vertices (N.to_nat k) with
  | Some v => Qle_bool c v
  | None => false
  end.

(** The 3-bit octant code of one point (the body of the first loop). *)
Definition octantCode (vertices : list Q) (c : Vector3f) (p : N) : Z :=
  let k := (p * 3)%N in
  Z.lor (Z.lor (if coordGe vertices (k + 0) (vx c) then 4 else 0)
               (if coordGe vertices (k + 1) (vy c) then 2 else 0))
        (if coordGe vertices (k + 2) (vz c) then 1 else 0).

Definition childPointCounts (codes : list Z) (i : Z) : nat :=
  length (List.filter (fun c => c =? i) codes).

(** [nextPoints[i]]: the indices whose code is [i], in input order. *)
Definition nextPoints (vertices : list Q) (c : Vector3f) (pointIndices : list N)
    (i : Z) : list N :=
  List.filter (fun p => octantCode vertices c p =? i) pointIndices.

Definition nextAabb (b : AABB) (i : Z) : AABB :=
  AABB_new (Vector3f_add (center b) (multiplyScalar (offsets i) (radius b)))
           ((1 # 2) * radius b)%Q.

Definition setNode (o : Octree) (code : Z) (pts : option (list N)) (b : AABB)
    : Octree :=
  mkOctree (threshold o) (maxDepth o) (<[code := pts]> (points o))
           (<[code := b]> (aabbs o)).

Definition setPoints (o : Octree) (code : Z) (pts : option (list N)) : Octree :=
  mkOctree (threshold o) (maxDepth o) (<[code := pts]> (points o)) (aabbs o).

(** The leaf test of [build]. *)
Definition isTerminal (o : Octree) (pointIndices : list N) (code : Z) : bool :=
  let depth := getDepth code in
  (length pointIndices <=? threshold o)%nat
  || Qle_bool (inject_Z (Z.of_nat (maxDepth o))) depth.

(** The loop [for (var i = 0; i < 8; i++)] over the octants, threading a
    state through a body that may run out of fuel. *)
Definition forOctants {S : Type} (body : Z -> S -> option S) (s : S) : option S :=
  fold_left (fun acc i => match acc with Some s' => body i s' | None => None end)
            octants (Some s).

Fixpoint build (fuel : nat) (o : Octree) (pointIndices : list N)
    (vertices : list Q) (aabb : AABB) (code : Z) : option Octree :=
  match fuel with
  | O => None
  | S fuel' =>
      let aabb := setLocCode aabb code in
      let o := setNode o code None aabb in
      if isTerminal o pointIndices code then
        Some (setPoints o code (Some pointIndices))
      else
        let codes := map (octantCode vertices (center aabb)) pointIndices in
        forOctants
          (fun i o' =>
             if Nat.eqb (childPointCounts codes i) 0 then Some o'
             else build fuel' o' (nextPoints vertices (center aabb) pointIndices i)
                        vertices (nextAabb aabb i) (generateLocCode code i))
          o
  end.

(** [getLocCodes]: the keys of [this.aabbs]. *)
Definition getLocCodes (o : Octree) : list Z := (map_to_list (aabbs o)).*1.

(** ** Traversal *)

(** One call of the traversal callback: [(this.points[next], this.aabbs[next],
    next)]. The first component is the result of the property read:
    [None] is [undefined], [Some None] is [null]. *)
Record visit : Type := mkVisit {
  v_points : option (option (list N));
  v_aabb : AABB;
  v_code : Z
}.

(** [locCode << 3 | i] *)
Definition childCode (code i : Z) : Z := Int32.or (Int32.shl code 3) i.

(** [traverse] returns the sequence of callback calls, in call order. *)
Fixpoint traverse (fuel : nat) (o : Octree) (code : Z) : option (list visit) :=
  match fuel with
  | O => None
  | S fuel' =>
      forOctants
        (fun i vs =>
           let next := childCode code i in
           match aabbs o !! next with
           | Some b =>
               match traverse fuel' o next with
               | Some sub => Some (vs ++ mkVisit (points o !! next) b next :: sub)
               | None => None
               end
           | None => Some vs
           end)
        []
  end.

Fixpoint traverseIf (fuel : nat) (o : Octree) (cond : AABB -> Z -> bool)
    (code : Z) : option (list visit) :=
  match fuel with
  | O => None
  | S fuel' =>
      forOctants
        (fun i vs =>
           let next := childCode code i in
           match aabbs o !! next with
           | Some b =>
               if cond b next then
                 match traverseIf fuel' o cond next with
                 | Some sub => Some (vs ++ mkVisit (points o !! next) b next :: sub)
                 | None => None
                 end
               else Some vs
           | None => Some vs
           end)
        []
  end.

(** ** Ray search *)

Record hit : Type := mkHit { h_index : N; h_locCode : Z }.

Record Raycaster : Type := mkRaycaster {
  ray_source : Vector3f;
  ray_direction : Vector3f;
  rc_far : Q;
  rc_threshold : Q
}.

(** The points of one visited node, as result items. *)
Definition hitsOf (pts : option (option (list N))) (code : Z) : list hit :=
  match pts with
  | Some (Some l) => map (fun p => mkHit p code) l
  | _ => []
  end.

Section RaySearch.

(** [AABB.cylinderTest] and the normalised, inverted ray direction
    ([Vector3f.normalize], [Vector3f.divide]) are computed outside the
    octree; they are parameters here. *)
Variable cylinderTest : AABB -> Vector3f -> Vector3f -> Q -> Q -> bool.
Variable inverseDirection : Vector3f -> Vector3f.

Definition raySearch (fuel : nat) (o : Octree) (rc : Raycaster)
    : option (list hit) :=
  let result := hitsOf (points o !! 1) 1 in
  let inverseDir := inverseDirection (ray_direction rc) in
  match traverseIf fuel o
          (fun b _ => cylinderTest b (ray_source rc) inverseDir (rc_far rc)
                                   (rc_threshold rc)) 1 with
  | Some vs => Some (result ++ flat_map (fun v => hitsOf (v_points v) (v_code v)) vs)
  | None => None
  end.

End RaySearch.

(** ** Closest box *)

(** [Number.MAX_VALUE] = (2^53 - 1) * 2^971. *)
Definition MAX_VALUE : Q := inject_Z ((2 ^ 53 - 1) * 2 ^ 971).

(** [this.points[next] && this.points[next].length < threshold] *)
Definition underThreshold (pts : option (option (list N))) (thr : nat) : bool :=
  match pts with
  | Some (Some l) => (length l <? thr)%nat
  | _ => false
  end.

(** The scan over the children of [code]: the state is [(closest, minDist)]. *)
Definition closestChild (dist : AABB -> Q) (o : Octree) (thr : nat) (code : Z)
    : Z * Q :=
  fold_left
    (fun st i =>
       let next := childCode code i in
       match aabbs o !! next with
       | Some b =>
           if underThreshold (points o !! next) thr then st
           else
             let d := dist b in
             if Qltb d (snd st) then (next, d) else st
       | None => st
       end)
    octants (-1, MAX_VALUE).

(** The result is [this.aabbs[locCode]], [None] when that read is
    [undefined]. *)
Fixpoint getClosestBox (fuel : nat) (o : Octree) (point : Vector3f) (thr : nat)
    (code : Z) : option (option AABB) :=
  match fuel with
  | O => None
  | S fuel' =>
      let closest :=
        fst (closestChild
               (fun b => distanceToPointSq b (vx point) (vy point) (vz point))
               o thr code) in
      if closest <? 0 then Some (aabbs o !! code)
      else getClosestBox fuel' o point thr closest
  end.

Definition getClosestBoxFromCenter (fuel : nat) (o : Octree) (point : Vector3f)
    (thr : nat) (code : Z) : option (option AABB) :=
  let closest :=
    fst (closestChild
           (fun b => distanceFromCenterToPointSq b (vx point) (vy point) (vz point))
           o thr code) in
  if closest <? 0 then Some (aabbs o !! code)
  else getClosestBox fuel o point thr closest.

(** ** k nearest neighbours *)

Inductive jsError : Type := TypeError | ReferenceError.

(** The outcome of a call that may throw or run out of fuel. *)
Inductive outcome (A : Type) : Type :=
| Returns (a : A)
| Throws (e : jsError)
| OutOfFuel.

Arguments Returns {A} a.

Arguments Throws {A} e.

Arguments OutOfFuel {A}.

Definition andThen {A B : Type} (m : outcome A) (k : A -> outcome B) : outcome B :=
  match m with
  | Returns a => k a
  | Throws e => Throws e
  | OutOfFuel => OutOfFuel
  end.

Notation "'let*' x ':=' m 'in' k" := (andThen m (fun x => k))
  (at level 10, x name, m at level 100, k at level 200).

(** The argument [point]: the index of a vertex or an object with the
    fields x, y and z. *)
Inductive knnPoint : Type :=
| PointIndex (i : N)
| PointCoords (x y z : Q).

(** A distance as stored in a [Float32Array]: [None] is NaN, the result of
    arithmetic on a position read outside the buffer. *)
Definition sqDiff (a : option Q) (b : Q) : option Q :=
  match a with Some u => Some (sq (u - b)) | None => None end.

Definition addOpt (a b : option Q) : option Q :=
  match a, b with Some u, Some v => Some (u + v)%Q | _, _ => None end.

(** [a > b]; false when a side is NaN or undefined. *)
Definition gtOpt (a b : option Q) : bool :=
  match a, b with Some u, Some v => Qltb v u | _, _ => false end.

Record pointDists : Type := mkPointDists {
  pd_indices : list N;
  pd_distancesSq : list (option Q)
}.

Record cellDists : Type := mkCellDists {
  cd_locCodes : list Z;
  cd_distancesSq : list (option Q)
}.

(** The result of [RadixSort.sort]: the sorted keys and, for each, its
    position in the input. *)
Record sortResult : Type := mkSortResult {
  s_array : list (option Q);
  s_indices : list nat
}.

(** [pointDistancesSq]; [code] is [None] for the key [undefined]. Reading
    [length] of a missing or [null] entry throws. *)
Definition pointDistancesSq (o : Octree) (x y z : Q) (code : option Z)
    (positions : list Q) : outcome pointDists :=
  match code ≫= (fun c => points o !! c) with
  | Some (Some pts) =>
      Returns (mkPointDists pts
        (map (fun p =>
                let index := N.to_nat (p * 3) in
                addOpt (addOpt (sqDiff (nth_error positions index) x)
                               (sqDiff (nth_error positions (index + 1)) y))
                       (sqDiff (nth_error positions (index + 2)) z))
             pts))
  | _ => Throws TypeError
  end.

(** [points && points.length > 0 && code != locCode] *)
Definition isOtherCell (locCode : Z) (v : visit) : bool :=
  match v_points v with
  | Some (Some l) => (0 <? length l)%nat && negb (v_code v =? locCode)
  | _ => false
  end.

Fixpoint cellDistanceList (o : Octree) (x y z : Q) (locCodes : list Z)
    : outcome (list (option Q)) :=
  match locCodes with
  | [] => Returns []
  | c :: rest =>
      match aabbs o !! c with
      | Some b =>
          let* ds := cellDistanceList o x y z rest in
          Returns (Some (distanceToPointSq b x y z) :: ds)
      | None => Throws TypeError
      end
  end.

Definition getCellDistancesToPoint (fuel : nat) (o : Octree) (x y z : Q)
    (locCode : Z) : outcome cellDists :=
  match traverse fuel o 1 with
  | None => OutOfFuel
  | Some vs =>
      let locCodes := map v_code (List.filter (isOtherCell locCode) vs) in
      let* dists := cellDistanceList o x y z locCodes in
      Returns (mkCellDists locCodes dists)
  end.

Definition concatTypedArrays {A : Type} (a b : list A) : list A := a ++ b.

Definition mergePointDistances (a b : pointDists) : pointDists :=
  mkPointDists (concatTypedArrays (pd_indices a) (pd_indices b))
               (concatTypedArrays (pd_distancesSq a) (pd_distancesSq b)).

(** The state of the two consuming loops: the typed array [indices],
    [indexCount] and [pointOffset]. *)
Record knnState : Type := mkKnnState {
  indices : list N;
  indexCount : nat;
  pointOffset : nat
}.

(** [pointDistances.indices[sorted.indices[j]]], stored into a [Uint32Array]
    (an undefined value is stored as 0). *)
Definition pickIndex (pd : pointDists) (sorted : sortResult) (j : nat) : N :=
  match s_indices sorted !! j ≫= (fun s => pd_indices pd !! s) with
  | Some v => v
  | None => 0%N
  end.

(** The body shared by the two consuming loops, for the positions [js] of the
    sorted array: stop when [indexCount] reaches [k], break with
    [pointOffset = j] when the key exceeds [bound]; a store outside the typed
    array is ignored. *)
Fixpoint consume (k : nat) (pd : pointDists) (sorted : sortResult)
    (bound : option Q) (js : list nat) (st : knnState) : knnState :=
  match js with
  | [] => st
  | j :: js' =>
      if (indexCount st <? k)%nat then
        if gtOpt (mjoin (s_array sorted !! j)) bound then
          mkKnnState (indices st) (indexCount st) j
        else
          consume k pd sorted bound js'
            (mkKnnState (<[j := pickIndex pd sorted j]> (indices st))
                        (S (indexCount st)) (pointOffset st))
      else st
  end.

(** [indexCount == k || indexCount >= length - 1], with
    [length = positions.length / 3]. *)
Definition enough (k : nat) (positions : list Q) (st : knnState) : bool :=
  Nat.eqb (indexCount st) k
  || Qle_bool (inject_Z (Z.of_nat (length positions)) / 3 - 1)
              (inject_Z (Z.of_nat (indexCount st))).

Section KNN.

(** [RadixSort] (Math/RadixSort) is outside the embedded sources; the
    length of the returned array does not depend on it. *)
Variable radixSort : list (option Q) -> sortResult.

(** The loop over the other cells, nearest first. *)
Fixpoint cellLoop (o : Octree) (k : nat) (x y z : Q) (positions : list Q)
    (cells : cellDists) (sortedCells : sortResult) (cellIdx : list nat)
    (pd : pointDists) (st : knnState) : outcome (list N) :=
  match cellIdx with
  | [] => Returns (indices st)
  | i :: cellIdx' =>
      let locCode := s_indices sortedCells !! i
                     ≫= (fun s => cd_locCodes cells !! s) in
      let* newPd := pointDistancesSq o x y z locCode positions in
      let pd' := mergePointDistances pd newPd in
      let sortedNew := radixSort (pd_distancesSq pd') in
      let st' :=
        consume k pd' sortedNew (mjoin (s_array sortedCells !! (i + 1)%nat))
          (seq (pointOffset st) (length (s_array sortedNew) - pointOffset st))
          st in
      if enough k positions st' then Returns (indices st')
      else cellLoop o k x y z positions cells sortedCells cellIdx' pd' st'
  end.

Definition kNearestNeighbours (fuel : nat) (o : Octree) (k : nat)
    (point : knnPoint) (locCode : option Z) (positions : list Q)
    : outcome (list N) :=
  let k := S k in
  match point with
  | PointIndex _ =>
      (* [let p = { x: positions[p * 3], ... }] reads the inner [p] before
         its initialisation *)
      Throws ReferenceError
  | PointCoords x y z =>
      let* locCode :=
        match locCode with
        | Some c => Returns c
        | None =>
            match getClosestBoxFromCenter fuel o (mkVector3f x y z) 0 1 with
            | None => OutOfFuel
            | Some None => Throws TypeError
            | Some (Some b) => Returns (getLocCode b)
            end
        end in
      let* cellDistances := getCellDistancesToPoint fuel o x y z locCode in
      let* pointDistances := pointDistancesSq o x y z (Some locCode) positions in
      let sortedPointDistances := radixSort (pd_distancesSq pointDistances) in
      let sortedCellDistances := radixSort (cd_distancesSq cellDistances) in
      let st :=
        consume k pointDistances sortedPointDistances
          (mjoin (s_array sortedCellDistances !! 0%nat))
          (seq 0 (length (s_array sortedPointDistances)))
          (mkKnnState (replicate k 0%N) 0 0) in
      if Nat.eqb (indexCount st) k then Returns (indices st)
      else
        cellLoop o k x y z positions cellDistances sortedCellDistances
          (seq 0 (length (s_array sortedCellDistances))) pointDistances st
  end.

End KNN.

(** Modelled from the spec: [RadixSort.sort] (Math/RadixSort, outside the
    embedded sources), "sort ascending", "ties in distance resolve by the
    radix sort's stability (original insertion/index order preserved for
    equal keys)". The spec is silent on NaN keys; they are placed last. *)
Definition keyLe (a b : option Q) : bool :=
  match a, b with
  | Some u, Some v => Qle_bool u v
  | Some _, None => true
  | None, Some _ => false
  | None, None => true
  end.

Fixpoint insertSorted (x : option Q * nat) (l : list (option Q * nat))
    : list (option Q * nat) :=
  match l with
  | [] => [x]
  | y :: l' => if keyLe (fst y) (fst x) then y :: insertSorted x l'
               else x :: y :: l'
  end.

Definition sortPairs (l : list (option Q)) : list (option Q * nat) :=
  fold_left (fun acc x => insertSorted x acc) (combine l (seq 0 (length l))) [].

Definition radixSortModel (l : list (option Q)) : sortResult :=
  mkSortResult (map fst (sortPairs l)) (map snd (sortPairs l)).

(** What termination of the neighbour search needs from the sort: arrays of
    the input's length and positions inside the input. *)
Definition sortOk (radixSort : list (option Q) -> sortResult) : Prop :=
  forall l, length (s_array (radixSort l)) = length l
            /\ length (s_indices (radixSort l)) = length l
            /\ Forall (fun s => (s < length l)%nat) (s_indices (radixSort l)).

(** ** Box centers, closest and farthest points *)

(** [points && points.length > threshold] *)
Definition overThreshold (pts : option (option (list N))) (thr : nat) : bool :=
  match pts with
  | Some (Some l) => (thr <? length l)%nat
  | _ => false
  end.

(** [threshold = threshold || 0]; [None] is an omitted argument. *)
Definition orZero (thr : option nat) : nat := default 0%nat thr.

(** [getCenters]: the centers pushed by the callback of [traverse], in call
    order. *)
Definition getCenters (fuel : nat) (o : Octree) (thr : option nat)
    : option (list Vector3f) :=
  match traverse fuel o 1 with
  | Some vs =>
      Some (map (fun v => center (v_aabb v))
                (List.filter (fun v => overThreshold (v_points v) (orZero thr)) vs))
  | None => None
  end.

(** [Number.MIN_VALUE] = 2^-1074. *)
Definition MIN_VALUE : Q := 1 / inject_Z (2 ^ 1074).

(** The scan of [getFarthestBox] over the children of [code]: the state is
    [(farthest, maxDist)]. *)
Definition farthestChild (dist : AABB -> Q) (o : Octree) (thr : nat) (code : Z)
    : Z * Q :=
  fold_left
    (fun st i =>
       let next := childCode code i in
       match aabbs o !! next with
       | Some b =>
           if underThreshold (points o !! next) thr then st
           else
             let d := dist b in
             if Qltb (snd st) d then (next, d) else st
       | None => st
       end)
    octants (-1, MIN_VALUE).

(** [getFarthestBox] has no default for [locCode]: [None] is [undefined],
    which [<<] converts to 0 and which is no key of [this.aabbs]. *)
Fixpoint getFarthestBox (fuel : nat) (o : Octree) (point : Vector3f) (thr : nat)
    (code : option Z) : option (option AABB) :=
  match fuel with
  | O => None
  | S fuel' =>
      let farthest :=
        fst (farthestChild
               (fun b => distanceToPointSq b (vx point) (vy point) (vz point))
               o thr (default 0 code)) in
      if farthest <? 0 then Some (code ≫= (fun c => aabbs o !! c))
      else getFarthestBox fuel' o point thr (Some farthest)
  end.

(** [Math.pow(pc[0] - x, 2) + Math.pow(pc[1] - y, 2) + Math.pow(pc[2] - z, 2)]
    for the vertex [index / 3] of [positions]; NaN ([None]) when a read is
    outside the buffer. *)
Definition vertexDistSq (positions : list Q) (point : Vector3f) (index : nat)
    : option Q :=
  match nth_error positions index, nth_error positions (index + 1),
        nth_error positions (index + 2) with
  | Some x, Some y, Some z =>
      Some (sq (vx point - x) + sq (vy point - y) + sq (vz point - z))%Q
  | _, _, _ => None
  end.

(** The vertex read by one round of the scanning loops. *)
Definition vertexAt (positions : list Q) (index : nat) : option Vector3f :=
  match nth_error positions index, nth_error positions (index + 1),
        nth_error positions (index + 2) with
  | Some x, Some y, Some z => Some (mkVector3f x y z)
  | _, _, _ => None
  end.

(** The loop of [getClosestPoint] over the points of the box: the state is
    [(minDist, result)]. A comparison with NaN is false. *)
Definition scanClosest (positions : list Q) (point : Vector3f)
    (boxPoints : list N) : Q * option Vector3f :=
  fold_left
    (fun st p =>
       let index := N.to_nat (p * 3) in
       match vertexDistSq positions point index with
       | Some distSq =>
           if Qltb distSq (fst st) then (distSq, vertexAt positions index) else st
       | None => st
       end)
    boxPoints (MAX_VALUE, None).

Definition scanFarthest (positions : list Q) (point : Vector3f)
    (boxPoints : list N) : Q * option Vector3f :=
  fold_left
    (fun st p =>
       let index := N.to_nat (p * 3) in
       match vertexDistSq positions point index with
       | Some distSq =>
           if Qltb (fst st) distSq then (distSq, vertexAt positions index) else st
       | None => st
       end)
    boxPoints (MIN_VALUE, None).

(** [if (locCode)]: an omitted code and the code 0 are both falsy. *)
Definition givenCode (code : option Z) : option Z :=
  match code with
  | Some c => if c =? 0 then None else Some c
  | None => None
  end.

(** The end of [getClosestPoint] and [getFarthestPoint]: [box.getLocCode()]
    throws on [undefined]; a missing or [null] entry of [this.points] gives
    [null]. *)
Definition scanBox (scan : list N -> Q * option Vector3f) (o : Octree)
    (box : option AABB) : outcome (option Vector3f) :=
  match box with
  | None => Throws TypeError
  | Some b =>
      match points o !! getLocCode b with
      | Some (Some boxPoints) => Returns (snd (scan boxPoints))
      | _ => Returns None
      end
  end.

Definition getClosestPoint (fuel : nat) (o : Octree) (point : Vector3f)
    (positions : list Q) (thr : option nat) (code : option Z)
    : outcome (option Vector3f) :=
  let threshold := orZero thr in
  let* box :=
    match givenCode code with
    | Some c => Returns (aabbs o !! c)
    | None =>
        match getClosestBox fuel o point threshold 1 with
        | Some box => Returns box
        | None => OutOfFuel
        end
    end in
  scanBox (scanClosest positions point) o box.

Definition getFarthestPoint (fuel : nat) (o : Octree) (point : Vector3f)
    (positions : list Q) (thr : option nat) (code : option Z)
    : outcome (option Vector3f) :=
  let threshold := orZero thr in
  let* box :=
    match givenCode code with
    | Some c => Returns (aabbs o !! c)
    | None =>
        match getFarthestBox fuel o point threshold None with
        | Some box => Returns box
        | None => OutOfFuel
        end
    end in
  scanBox (scanFarthest positions point) o box.

(** ** Neighbours *)

Section Neighbours.

(** [AABB.testAABB] (AABB.js, outside the embedded sources) is a parameter;
    its argument is the read [self.aabbs[locCode]], [None] when that is
    [undefined]. *)
Variable testAABB : AABB -> option AABB -> bool.



End Neighbours.


(** ** Box intersection *)

(** A line written by [console.log]: the box map, or the code of a visited
    node and the length of its index array. *)
Inductive logLine : Type :=
| LogBoxes (boxes : gmap Z AABB)
| LogNode (code : Z) (len : nat).

(** The test inside the condition callback of [intersectBox]: the box
    [min]..[max] and [aabb] overlap with a positive extent on every axis. *)
Definition intersects (min max : Vector3f) (aabb : AABB) : bool :=
  Qltb (vx min) (vx (AABB_max aabb)) && Qltb (vx (AABB_min aabb)) (vx max)
  && Qltb (vy min) (vy (AABB_max aabb)) && Qltb (vy (AABB_min aabb)) (vy max)
  && Qltb (vz min) (vz (AABB_max aabb)) && Qltb (vz (AABB_min aabb)) (vz max).

(** What the callback of [intersectBox] logs for one visit. *)
Definition logVisit (v : visit) : option logLine :=
  match v_points v with
  | Some (Some l) => Some (LogNode (v_code v) (length l))
  | _ => None
  end.

(** [intersectBox] returns [result] and writes to the console; the
    condition callback is the negated test. *)
Definition intersectBox (fuel : nat) (o : Octree) (min max : Vector3f)
    : option (list (Z * nat) * list logLine) :=
  let result := [] in
  match traverseIf fuel o (fun aabb _ => negb (intersects min max aabb)) 1 with
  | Some vs => Some (result, LogBoxes (aabbs o) :: omap logVisit vs)
  | None => None
  end.

(** ** Cloning: octrees as objects *)








(** ** Event listeners (ControlsBase) *)

Module ControlsBase.

Section Listeners.

(** A callback is a function object; [indexOf] compares callbacks by
    identity. *)
Variable H : Type.
Context `{EqDecision H}.

(** [this._eventListeners] holds the array of callbacks of each event name
    (names of members of [Object.prototype] apart): a [gmap string (list H)]. *)
Definition addEventListener (ls : gmap string (list H)) (eventName : string) (callback : H)
    : gmap string (list H) :=
  let ls := match ls !! eventName with
            | Some _ => ls
            | None => <[eventName := []]> ls
            end in
  <[eventName := default [] (ls !! eventName) ++ [callback]]> ls.

(** [Array.prototype.indexOf]: the first position of [x], if any. *)
Fixpoint indexOf (l : list H) (x : H) : option nat :=
  match l with
  | [] => None
  | y :: l' => if decide (y = x) then Some 0%nat else S <$> indexOf l' x
  end.

Definition removeEventListener (ls : gmap string (list H)) (eventName : string)
    (callback : H) : gmap string (list H) :=
  match ls !! eventName with
  | None => ls
  | Some l =>
      match indexOf l callback with
      | Some index => <[eventName := delete index l]> ls
      | None => ls
      end
  end.

(** [raiseEvent]: the calls made, in order, each with [data]. The callbacks
    are taken not to add or remove listeners of the same object while the
    event is raised. *)
Definition raiseEvent {D : Type} (ls : gmap string (list H)) (eventName : string) (data : D)
    : list (H * D) :=
  match ls !! eventName with
  | Some l => map (fun callback => (callback, data)) l
  | None => []
  end.

End Listeners.

End ControlsBase.

(** ** Geometry and visibility (FilterBase) *)

(** The geometry of the target: the data of its position attribute, and of
    its color attribute ([None]: no such attribute, [Some None]: an
    attribute without data). *)
Record geometry : Type := mkGeometry {
  g_position : list Q;
  g_color : option (option (list Q))
}.

(** The three entries of a buffer from [k] on; an entry outside the buffer
    is [undefined]. *)
Definition triple (data : list Q) (k : nat) : list (option Q) :=
  [data !! k; data !! (k + 1)%nat; data !! (k + 2)%nat].

Module FilterBase.

(** [isVisible]: the third color entry of the vertex is positive; reading
    [data] of a missing color attribute, or an entry of missing data,
    throws. *)
Definition isVisible (g : geometry) (index : N) : outcome bool :=
  match g_color g with
  | Some (Some data) =>
      Returns (match data !! N.to_nat (index * 3 + 2) with
               | Some c => Qltb 0 c
               | None => false
               end)
  | _ => Throws TypeError
  end.

End FilterBase.

(** ** Handlers, selection and intersections (OctreeHelper) *)

Module OctreeHelper.

Section Handlers.

Variable H : Type.
Context `{EqDecision H}.

(** The four function objects created by the constructor. *)
Record handlers : Type := mkHandlers {
  _clickHandler : H;
  _dblclickHandler : H;
  _mousemoveHandler : H;
  _updatedHandler : H
}.

(** The registrations that the constructor makes on [renderer.controls]. *)
Definition constructor (controls : gmap string (list H)) (h : handlers)
    : gmap string (list H) :=
  let controls := ControlsBase.addEventListener H controls "click" (_clickHandler h) in
  let controls :=
    ControlsBase.addEventListener H controls "dblclick" (_dblclickHandler h) in
  let controls :=
    ControlsBase.addEventListener H controls "mousemove" (_mousemoveHandler h) in
  ControlsBase.addEventListener H controls "updated" (_updatedHandler h).

Definition destruct (controls : gmap string (list H)) (h : handlers)
    : gmap string (list H) :=
  let controls :=
    ControlsBase.removeEventListener H controls "click" (_dblclickHandler h) in
  let controls :=
    ControlsBase.removeEventListener H controls "dblclick" (_dblclickHandler h) in
  let controls :=
    ControlsBase.removeEventListener H controls "mousemove" (_mousemoveHandler h) in
  ControlsBase.removeEventListener H controls "updated" (_updatedHandler h).

End Handlers.

Section Selection.

(** [renderer.camera.sceneToScreen] (outside the embedded sources) and its
    results. *)
Variable Screen : Type.
Variable sceneToScreen : list (option Q) -> Screen.

(** An item of [selected] or [hovered]; a field that is not set is
    [None]. *)
Record item : Type := mkItem {
  i_distance : option Q;
  i_index : N;
  i_locCode : option Z;
  i_position : list (option Q);
  i_color : option (list (option Q));
  i_timestamp : option Z;
  i_screenPosition : option Screen
}.

(** The data of a raised event. *)
Inductive payload : Type :=
| ItemData (e : item)
| SelectedData (e : list item)
| HoveredData (e : option item).

(** The state of a helper; [raised] lists the events raised so far, each
    with the data its listeners receive. *)
Record helper : Type := mkHelper {
  multiSelect : bool;
  target : geometry;
  selected : list item;
  hovered : option item;
  raised : list (string * payload)
}.

Definition raiseEvent (h : helper) (eventName : string) (data : payload) : helper :=
  mkHelper (multiSelect h) (target h) (selected h) (hovered h)
           (raised h ++ [(eventName, data)]).

Definition setSelected (h : helper) (l : list item) : helper :=
  mkHelper (multiSelect h) (target h) l (hovered h) (raised h).

Definition selectedContains (h : helper) (index : N) : bool :=
  existsb (fun it => N.eqb (i_index it) index) (selected h).

(** The dummy item that [addSelected] makes of a vertex index; reading
    [data] of a missing color attribute throws. *)
Definition dummyItem (g : geometry) (index : N) : outcome item :=
  let k := N.to_nat (index * 3) in
  match g_color g with
  | None => Throws TypeError
  | Some colors =>
      Returns (mkItem (Some (-1)%Q) index (Some (-1)) (triple (g_position g) k)
                      (option_map (fun data => triple data k) colors) None None)
  end.

(** [addSelected]; [now] is the value of [Date.now()]. *)
Definition addSelected (now : Z) (h : helper) (arg : N + item) : outcome helper :=
  let* item := match arg with
               | inl index => dummyItem (target h) index
               | inr item => Returns item
               end in
  if selectedContains h (i_index item) then
    Returns (raiseEvent h "reselected" (ItemData item))
  else
    let item := mkItem (i_distance item) (i_index item) (i_locCode item)
                       (i_position item) (i_color item) (Some now)
                       (Some (sceneToScreen (i_position item))) in
    let selected' :=
      if multiSelect h then selected h ++ [item]
      else match selected h with
           | [] => [item]
           | _ :: rest => item :: rest
           end in
    Returns (raiseEvent (setSelected h selected') "selectedchanged"
                        (SelectedData selected')).

(** [Array.prototype.splice(index, 1)]: a negative index counts from the
    end. *)
Definition splice1 {A : Type} (l : list A) (index : Z) : list A :=
  let len := Z.of_nat (length l) in
  let start := if index <? 0 then Z.max (len + index) 0 else Z.min index len in
  delete (Z.to_nat start) l.

Definition removeSelected (h : helper) (index : Z) : helper :=
  let selected' := splice1 (selected h) index in
  raiseEvent (setSelected h selected') "selectedchanged" (SelectedData selected').

Definition clearSelected (h : helper) : helper :=
  raiseEvent (setSelected h []) "selectedchanged" (SelectedData []).

Definition setHovered (h : helper) (index : N) : helper :=
  let same := match hovered h with
              | Some it => N.eqb (i_index it) index
              | None => false
              end in
  if same then h
  else
    let k := N.to_nat (index * 3) in
    let position := triple (g_position (target h)) k in
    let colors := mjoin (g_color (target h)) in
    let it := mkItem None index None position
                     (option_map (fun data => triple data k) colors) None
                     (Some (sceneToScreen position)) in
    raiseEvent (mkHelper (multiSelect h) (target h) (selected h) (Some it)
                         (raised h))
               "hoveredchanged" (HoveredData (Some it)).

Definition selectHovered (now : Z) (h : helper) : outcome helper :=
  match hovered h with
  | None => Returns h
  | Some it =>
      if selectedContains h (i_index it) then Returns h
      else addSelected now h
             (inr (mkItem (i_distance it) (i_index it) (i_locCode it)
                          (i_position it) (i_color it) None None))
  end.

(** The result that the listener of [joinHoveredChanged] passes on, for the
    [hovered] fields of the joined helpers: [(e, source)]. *)
Definition joinHoveredChanged (helpers : list (option item))
    : option item * option nat :=
  fold_left
    (fun result jh =>
       match snd jh with
       | Some it => (Some it, Some (fst jh))
       | None => result
       end)
    (combine (seq 0 (length helpers)) helpers) (None, None).

End Selection.

Section Intersections.

Variable Screen : Type.

(** The computations on the ray (Math/Ray and Math/Matrix4f, outside the
    embedded sources), for a vertex [v]: [ray.distanceSqToPoint(v)] in model
    coordinates, and the distance from the ray source to the point of the
    ray closest to [v], in world coordinates. [None] is NaN. *)
Variable rayPointDistanceSq : list (option Q) -> option Q.
Variable sourceDistance : list (option Q) -> option Q.

(** [a < b] and [a > b] for a value [a] that may be NaN. *)
Definition ltNum (a : option Q) (b : Q) : bool :=
  match a with Some u => Qltb u b | None => false end.

Definition gtNum (a : option Q) (b : Q) : bool :=
  match a with Some u => Qltb b u | None => false end.

(** [rayIntersections]: [near] is [this.raycaster.near], [pointScale] and
    [cutoff] are [this.target.getPointScale()] and
    [this.target.getCutoff()]. *)
Fixpoint rayIntersections (g : geometry) (rc : Raycaster)
    (near pointScale cutoff : Q) (indices : list hit)
    : outcome (list (item Screen)) :=
  match indices with
  | [] => Returns []
  | candidate :: rest =>
      let threshold := (rc_threshold rc * pointScale)%Q in
      let localThresholdSq := (threshold * threshold)%Q in
      let index := h_index candidate in
      let k := N.to_nat (index * 3) in
      let v := triple (g_position g) k in
      if ltNum (rayPointDistanceSq v) localThresholdSq then
        let dist := sourceDistance v in
        let* isVisible := FilterBase.isVisible g index in
        if ltNum dist near || gtNum dist (rc_far rc) || ltNum dist cutoff
           || negb isVisible
        then rayIntersections g rc near pointScale cutoff rest
        else
          let* result := rayIntersections g rc near pointScale cutoff rest in
          Returns (mkItem Screen dist index (Some (h_locCode candidate)) v
                          (option_map (fun data => triple data k)
                                      (mjoin (g_color g)))
                          None None :: result)
      else rayIntersections g rc near pointScale cutoff rest
  end.

(** [a.distance - b.distance <= 0]; a comparison result NaN counts as 0. *)
Definition distanceLe (a b : item Screen) : bool :=
  match i_distance Screen a, i_distance Screen b with
  | Some u, Some v => Qle_bool u v
  | _, _ => true
  end.

Fixpoint insertByDistance (x : item Screen) (l : list (item Screen))
    : list (item Screen) :=
  match l with
  | [] => [x]
  | y :: l' => if distanceLe y x then y :: insertByDistance x l' else x :: y :: l'
  end.

(** [result.sort(function (a, b) { return a.distance - b.distance; })] as a
    stable insertion sort; with NaN distances the comparator is not
    consistent and the order of the builtin is not determined. *)
Definition sortByDistance (l : list (item Screen)) : list (item Screen) :=
  fold_left (fun acc x => insertByDistance x acc) l [].

Variable cylinderTest : AABB -> Vector3f -> Vector3f -> Q -> Q -> bool.
Variable inverseDirection : Vector3f -> Vector3f.

(** [getIntersections]; [rc] is the raycaster after
    [this.raycaster.set(camera, mouse.x, mouse.y)]. *)
Definition getIntersections (fuel : nat) (o : Octree) (g : geometry)
    (rc : Raycaster) (near pointScale cutoff : Q)
    : outcome (list (item Screen)) :=
  match raySearch cylinderTest inverseDirection fuel o rc with
  | None => OutOfFuel
  | Some tmp =>
      let* result := rayIntersections g rc near pointScale cutoff tmp in
      Returns (sortByDistance result)
  end.

End Intersections.

End OctreeHelper.

(** * Notions used in the proofs *)

(** ** The nodes written by a build *)

(** One write of [build] into the two maps: the node's code, its box and
    its final [points] value ([None] for an internal node, which keeps the
    initial [null]). *)
Record node : Type := mkNode {
  n_code : Z;
  n_aabb : AABB;
  n_points : option (list N)
}.

Definition writeNode (o : Octree) (n : node) : Octree :=
  setNode o (n_code n) (n_points n) (n_aabb n).

Definition writeNodes (o : Octree) (ns : list node) : Octree :=
  fold_left writeNode ns o.

Section Built.

Variables (t d : nat) (vertices : list Q).

(** An octree with the parameters [t] and [d] and nothing built yet. *)
Definition emptyOctree : Octree := mkOctree t d ∅ ∅.

(** [Built idx box c ns]: a call of [build] on the indices [idx], the box
    [box] and the code [c] returns after writing the nodes [ns], in this
    order. [BuiltChildren idx box c is ns] is the same for the last loop
    of [build], over the octants [is] still to come. *)
Inductive Built : list N -> AABB -> Z -> list node -> Prop :=
| Built_leaf idx box c :
    isTerminal emptyOctree idx c = true ->
    Built idx box c [mkNode c (setLocCode box c) (Some idx)]
| Built_split idx box c subs :
    isTerminal emptyOctree idx c = false ->
    BuiltChildren idx box c octants subs ->
    Built idx box c (mkNode c (setLocCode box c) None :: subs)
with BuiltChildren : list N -> AABB -> Z -> list Z -> list node -> Prop :=
| BuiltChildren_nil idx box c :
    BuiltChildren idx box c [] []
| BuiltChildren_skip idx box c i rest subs :
    childPointCounts (map (octantCode vertices (center box)) idx) i = 0%nat ->
    BuiltChildren idx box c rest subs ->
    BuiltChildren idx box c (i :: rest) subs
| BuiltChildren_build idx box c i rest ns subs :
    childPointCounts (map (octantCode vertices (center box)) idx) i <> 0%nat ->
    Built (nextPoints vertices (center box) idx i) (nextAabb box i)
          (generateLocCode c i) ns ->
    BuiltChildren idx box c rest subs ->
    BuiltChildren idx box c (i :: rest) (ns ++ subs).

End Built.

Scheme Built_mut := Minimality for Built Sort Prop
  with BuiltChildren_mut := Minimality for BuiltChildren Sort Prop.

(** ** Codes as paths: depth and descendants *)

(** [atDepth j c]: the sentinel bit of [c] is bit [3 j]. *)
Definition atDepth (j : nat) (c : Z) : Prop :=
  8 ^ Z.of_nat j <= c < 2 * 8 ^ Z.of_nat j.

(** [descAt c m k]: [k] is reached from [c] by appending [m] selectors. *)
Inductive descAt (c : Z) : nat -> Z -> Prop :=
| descAt_O : descAt c 0 c
| descAt_S m k i : descAt c m k -> 0 <= i < 8 -> descAt c (S m) (8 * k + i).

(** ** What a derivation writes *)

Definition codes (ns : list node) : list Z := map n_code ns.

(** The concatenated index lists of the leaves among [ns]. *)
Definition leaves (ns : list node) : list N := concat (omap n_points ns).

(** The part of [idx] whose code under [f] is [i]. *)
Definition partBy (f : N -> Z) (idx : list N) (i : Z) : list N :=
  List.filter (fun p => f p =? i) idx.

(** What each written node satisfies on its own, whatever the code. *)
Definition nodeLocal (t d : nat) (n : node) : Prop :=
  locCode (n_aabb n) = n_code n
  /\ (forall l, n_points n = Some l ->
        (length l <= t)%nat \/ 3 * Z.of_nat d <= msb (n_code n))
  /\ (n_points n = None -> msb (n_code n) < 3 * Z.of_nat d).

Section TreeShape.

Variables (d : nat) (vertices : list Q).

(** The nodes written below (and at) a code [c] of depth [j]. *)
Record subtreeOk (j : nat) (c : Z) (ns : list node) : Prop := {
  st_desc : Forall (fun n => exists m, descAt c m (n_code n)) ns;
  st_depth : Forall (fun n => exists j', (j <= j' <= d)%nat
                                         /\ atDepth j' (n_code n)) ns;
  st_nodup : List.NoDup (codes ns);
  st_parent : forall n, In n ns -> n_code n <> c ->
                In (n_code n / 8) (codes ns);
  st_internal : forall n, In n ns -> n_points n = None ->
                  exists i, 0 <= i < 8 /\ In (8 * n_code n + i) (codes ns);
  st_leaf : forall n l i, In n ns -> n_points n = Some l -> 0 <= i < 8 ->
              ~ In (8 * n_code n + i) (codes ns)
}.

(** The nodes written by the last loop of a call at [c], for the octants
    [l]. *)
Record childrenOk (idx : list N) (box : AABB) (j : nat) (c : Z) (l : list Z)
    (subs : list node) : Prop := {
  ch_desc : Forall (fun n => exists i m, In i l
                               /\ descAt (8 * c + i) m (n_code n)) subs;
  ch_depth : Forall (fun n => exists j', (S j <= j' <= d)%nat
                                         /\ atDepth j' (n_code n)) subs;
  ch_nodup : List.NoDup (codes subs);
  ch_parent : forall n, In n subs ->
                n_code n / 8 = c \/ In (n_code n / 8) (codes subs);
  ch_internal : forall n, In n subs -> n_points n = None ->
                  exists i, 0 <= i < 8 /\ In (8 * n_code n + i) (codes subs);
  ch_leaf : forall n l' i, In n subs -> n_points n = Some l' -> 0 <= i < 8 ->
              ~ In (8 * n_code n + i) (codes subs);
  ch_heads : forall i, In i l ->
               childPointCounts (map (octantCode vertices (center box)) idx) i
               <> 0%nat ->
               In (8 * c + i) (codes subs)
}.

End TreeShape.

(** ** Leaf contents *)

(** The concatenation of the index lists stored in [this.points], over all
    keys whose value is a list. *)
Definition leafPoints (o : Octree) : list N :=
  concat (omap snd (map_to_list (points o))).

Definition nodeEntry (n : node) : Z * option (list N) := (n_code n, n_points n).

(** ** Trees of codes and visits *)

(** The box map of [o] is a tree of codes of depth at most 9: every key has a
    depth, and every key but the root has its parent among the keys. *)
Record treeKeys (o : Octree) : Prop := {
  tk_depth : forall k, is_Some (aabbs o !! k) ->
               exists j, (j <= 9)%nat /\ atDepth j k;
  tk_parent : forall k, is_Some (aabbs o !! k) -> k <> 1 ->
                is_Some (aabbs o !! (k / 8))
}.

(** The callback arguments of a visit are the entries of the two maps. *)
Definition visitOk (o : Octree) (v : visit) : Prop :=
  v_points v = points o !! v_code v /\ aabbs o !! v_code v = Some (v_aabb v).

Definition visited (vs : list visit) : list Z := map v_code vs.


(** ** Worked examples *)

(** The example of the specification: threshold 2, depth cap 4, five points,
    root box of center (0,0,0) and radius 8. *)
Definition specIndices : list N := [0; 1; 2; 3; 4]%N.

Definition specVertices : list Q :=
  [0; 0; 0;  0; 0; 1;  0; 1; 0;  1; 0; 0;  5; 5; 5]%Q.

Definition specRoot : AABB := AABB_new (mkVector3f 0 0 0) 8.

Definition origin : Vector3f := mkVector3f 0 0 0.

(** The example as the specification words it: the first subdivision puts
    the outlier (index 4) into a leaf of its own among the children of the
    root, every leaf has at most two points, and the closest box to the
    origin is a leaf that holds the four clustered points. *)
Definition specExampleClaim : Prop :=
  forall fuel o,
    build fuel (Octree_new 2 4) specIndices specVertices specRoot 1 = Some o ->
    (exists i, 0 <= i < 8
               /\ points o !! generateLocCode 1 i = Some (Some [4%N]))
    /\ (forall k l, points o !! k = Some (Some l) -> (length l <= 2)%nat)
    /\ (forall fuel' r,
          getClosestBox fuel' o origin 0 1 = Some r ->
          exists b l, r = Some b
            /\ points o !! getLocCode b = Some (Some l)
            /\ forall p, In p [0; 1; 2; 3]%N -> In p l).

(** Two points in opposite corners of octant 7 of the same root box,
    threshold 1. *)
Definition pairIndices : list N := [0; 1]%N.

Definition pairVertices : list Q := [1; 1; 1;  7; 7; 7]%Q.

Definition pairQuery : Vector3f := mkVector3f 6 6 (1 # 2).

(** The descent of [getClosestBoxFromCenter] as the specification and the
    function's own documentation describe it: the distance to the box center
    at every level. *)
Fixpoint getClosestBoxFromCenter_spec (fuel : nat) (o : Octree)
    (point : Vector3f) (thr : nat) (code : Z) : option (option AABB) :=
  match fuel with
  | O => None
  | S fuel' =>
      let closest :=
        fst (closestChild
               (fun b => distanceFromCenterToPointSq b (vx point) (vy point)
                                                     (vz point))
               o thr code) in
      if closest <? 0 then Some (aabbs o !! code)
      else getClosestBoxFromCenter_spec fuel' o point thr closest
  end.

(** Four points in a root box of radius 1024, depth cap 11, threshold 1: two
    pairs that stay together for ten levels, one in octant 0 and one in
    octant 4 of the root. *)
Definition deepIndices : list N := [0; 1; 2; 3]%N.

Definition deepVertices : list Q :=
  [ -2047 # 2; -2047 # 2; -2047 # 2;
    -2045 # 2; -2047 # 2; -2047 # 2;
    1 # 2; -2047 # 2; -2047 # 2;
    3 # 2; -2047 # 2; -2047 # 2 ]%Q.

Definition deepRoot : AABB := AABB_new (mkVector3f 0 0 0) 1024.

(** Two points with the same coordinates that follow octant 1 at each of
    ten levels, depth cap 10, threshold 1. *)
Definition loopIndices : list N := [0; 1]%N.

Definition loopVertices : list Q :=
  [ -1023; -1023; 1023;  -1023; -1023; 1023 ]%Q.

Definition loopTree : Octree :=
  match build 11 (Octree_new 1 10) loopIndices loopVertices deepRoot 1 with
  | Some o => o
  | None => emptyOctree 1 10
  end.

(** [keptBelow o cond c k]: [k] is a node below [c] such that the condition
    callback accepts every node on the way from the children of [c] down
    to [k], [k] included. *)
Inductive keptBelow (o : Octree) (cond : AABB -> Z -> bool) (c : Z)
    : Z -> Prop :=
| kept_child i b :
    0 <= i < 8 -> aabbs o !! (8 * c + i) = Some b ->
    cond b (8 * c + i) = true -> keptBelow o cond c (8 * c + i)
| kept_step k i b :
    keptBelow o cond c k -> 0 <= i < 8 -> aabbs o !! (8 * k + i) = Some b ->
    cond b (8 * k + i) = true -> keptBelow o cond c (8 * k + i).

(** ** Points and boxes *)


(** [v] lies in the closed cube [b]. *)
Definition inBox (b : AABB) (v : Vector3f) : Prop :=
  (vx (AABB_min b) <= vx v <= vx (AABB_max b))%Q
  /\ (vy (AABB_min b) <= vy v <= vy (AABB_max b))%Q
  /\ (vz (AABB_min b) <= vz v <= vz (AABB_max b))%Q.


(** ** Notions for the further queries *)

(** The scan shared by [getClosestBox] and [getFarthestBox]: [better d m]
    is the test that replaces the best distance [m] so far by [d]. *)
Definition bestChild (better : Q -> Q -> bool) (init : Q) (dist : AABB -> Q)
    (o : Octree) (thr : nat) (code : Z) (l : list Z) (st : Z * Q) : Z * Q :=
  fold_left
    (fun st i =>
       let next := childCode code i in
       match aabbs o !! next with
       | Some b =>
           if underThreshold (points o !! next) thr then st
           else
             let d := dist b in
             if better d (snd st) then (next, d) else st
       | None => st
       end)
    l st.


(** The scan shared by [getClosestPoint] and [getFarthestPoint]. *)
Definition bestPoint (better : Q -> Q -> bool) (positions : list Q)
    (point : Vector3f) (l : list N) (st : Q * option Vector3f)
    : Q * option Vector3f :=
  fold_left
    (fun st p =>
       let index := N.to_nat (p * 3) in
       match vertexDistSq positions point index with
       | Some distSq =>
           if better distSq (fst st) then (distSq, vertexAt positions index) else st
       | None => st
       end)
    l st.

(** The cube [a] lies in the cube [b]. *)
Definition boxIn (a b : AABB) : Prop :=
  (vx (AABB_min b) <= vx (AABB_min a))%Q /\ (vx (AABB_max a) <= vx (AABB_max b))%Q
  /\ (vy (AABB_min b) <= vy (AABB_min a))%Q /\ (vy (AABB_max a) <= vy (AABB_max b))%Q
  /\ (vz (AABB_min b) <= vz (AABB_min a))%Q /\ (vz (AABB_max a) <= vz (AABB_max b))%Q.




(** The index [i] is stored in some node of [o]. *)
Definition stored (o : Octree) (i : N) : Prop :=
  exists k l, points o !! k = Some (Some l) /\ In i l.

(** ** Notions for the listeners and the selection *)

(** The callback [h] is registered nowhere in [ls]. *)
Definition unregistered {H : Type} (ls : gmap string (list H)) (h : H) : Prop :=
  forall eventName l, ls !! eventName = Some l -> ~ In h l.

(** The array left by [removeEventListener]: [l] without the first
    occurrence of [x]. *)
Definition removeFirst {H : Type} `{EqDecision H} (l : list H) (x : H) : list H :=
  match ControlsBase.indexOf H l x with
  | Some index => delete index l
  | None => l
  end.

Section SelectionRuns.

Variable Screen : Type.
Variable sceneToScreen : list (option Q) -> Screen.

(** A call of one of the methods that change the selection or the hovered
    item. *)
Inductive action : Type :=
| AddSelected (now : Z) (arg : N + OctreeHelper.item Screen)
| RemoveSelected (index : Z)
| ClearSelected
| SetHovered (index : N)
| SelectHovered (now : Z).

Definition step (h : OctreeHelper.helper Screen) (a : action)
    : outcome (OctreeHelper.helper Screen) :=
  match a with
  | AddSelected now arg => OctreeHelper.addSelected Screen sceneToScreen now h arg
  | RemoveSelected index => Returns (OctreeHelper.removeSelected Screen h index)
  | ClearSelected => Returns (OctreeHelper.clearSelected Screen h)
  | SetHovered index => Returns (OctreeHelper.setHovered Screen sceneToScreen h index)
  | SelectHovered now => OctreeHelper.selectHovered Screen sceneToScreen now h
  end.

(** The calls [actions] in a row, up to the first that throws. *)
Fixpoint run (h : OctreeHelper.helper Screen) (actions : list action)
    : outcome (OctreeHelper.helper Screen) :=
  match actions with
  | [] => Returns h
  | a :: rest => let* h' := step h a in run h' rest
  end.

(** The vertex indices of the selected items. *)
Definition selectedIndices (h : OctreeHelper.helper Screen) : list N :=
  map (OctreeHelper.i_index Screen) (OctreeHelper.selected Screen h).

(** What a selection satisfies after every call. *)
Definition selectionOk (h : OctreeHelper.helper Screen) : Prop :=
  List.NoDup (selectedIndices h)
  /\ (OctreeHelper.multiSelect Screen h = false ->
      (length (OctreeHelper.selected Screen h) <= 1)%nat).

End SelectionRuns.

(** The candidate [c] of a ray search is a point stored in the node that it
    names. *)
Definition hitStored (o : Octree) (c : hit) : Prop :=
  exists l, points o !! h_locCode c = Some (Some l) /\ In (h_index c) l.

(** * Properties *)

(** ** Location-code arithmetic *)

Module Int32Facts.
Import Int32.

Lemma to_uint32_small z : 0 <= z < 2 ^ 32 -> to_uint32 z = z.
Proof. intros H. unfold to_uint32. apply Z.mod_small. exact H. Qed.

Lemma to_int32_small z : 0 <= z < 2 ^ 31 -> to_int32 z = z.
Proof.
  intros H. unfold to_int32. rewrite to_uint32_small by lia.
  destruct (Z.ltb_spec z (2 ^ 31)); lia.
Qed.

Lemma to_uint32_to_int32 z : to_uint32 (to_int32 z) = to_uint32 z.
Proof.
  unfold to_int32, to_uint32.
  destruct (Z.ltb_spec (z mod 2 ^ 32) (2 ^ 31)).
  - apply Z.mod_mod. lia.
  - replace (z mod 2 ^ 32 - 2 ^ 32) with (z mod 2 ^ 32 + (-1) * 2 ^ 32) by lia.
    rewrite Z.mod_add by lia. apply Z.mod_mod. lia.
Qed.

Lemma to_uint32_lor a b :
  to_uint32 (Z.lor a b) = Z.lor (to_uint32 a) (to_uint32 b).
Proof.
  unfold to_uint32. rewrite <- !Z.land_ones by lia.
  apply Z.land_lor_distr_l.
Qed.

(** OR-ing a 3-bit selector under a code shifted by three is an addition. *)
Lemma lor_shifted c i : 0 <= i < 8 -> Z.lor (Z.shiftl c 3) i = 8 * c + i.
Proof.
  intros Hi.
  assert (Hland : Z.land (Z.shiftl c 3) i = 0).
  { apply Z.bits_inj'. intros n Hn. rewrite Z.land_spec, Z.bits_0.
    destruct (Z.ltb_spec n 3).
    - rewrite Z.shiftl_spec_low by lia. reflexivity.
    - replace (Z.testbit i n) with false; [apply andb_false_r|].
      symmetry. destruct (Z.eq_dec i 0) as [->|Hne]; [apply Z.bits_0|].
      apply Z.bits_above_log2; [lia|].
      assert (Z.log2 i < 3); [|lia].
      apply Z.log2_lt_pow2; lia. }
  rewrite <- Z.lxor_lor by exact Hland.
  rewrite <- Z.add_nocarry_lxor by exact Hland.
  rewrite Z.shiftl_mul_pow2 by lia. lia.
Qed.

Lemma ushr3 z : 0 <= z < 2 ^ 32 -> ushr z 3 = z / 8.
Proof.
  intros H. unfold ushr. rewrite to_uint32_small by exact H.
  rewrite Z.shiftr_div_pow2 by lia. reflexivity.
Qed.

End Int32Facts.

Lemma msb_pos c : 0 < c < 2 ^ 32 -> msb c = Z.log2 c.
Proof.
  intros H. unfold msb. rewrite Int32Facts.to_uint32_small by lia.
  destruct (Z.eqb_spec c 0); [lia|reflexivity].
Qed.

(** Below 2^28 the child code is plain arithmetic: no bit is lost. *)
Lemma childCode_small c i :
  0 <= c < 2 ^ 28 -> 0 <= i < 8 -> childCode c i = 8 * c + i.
Proof.
  intros Hc Hi. unfold childCode, Int32.shl, Int32.or.
  rewrite (Int32Facts.to_int32_small c) by lia.
  rewrite Z.shiftl_mul_pow2 by lia.
  rewrite !(Int32Facts.to_int32_small (c * 2 ^ 3)) by lia.
  rewrite (Int32Facts.to_int32_small i) by lia.
  rewrite <- Z.shiftl_mul_pow2 by lia.
  rewrite Int32Facts.lor_shifted by lia.
  apply Int32Facts.to_int32_small. lia.
Qed.

Lemma generateLocCode_small c i :
  0 < c < 2 ^ 28 -> 0 <= i < 8 -> generateLocCode c i = 8 * c + i.
Proof.
  intros Hc Hi. unfold generateLocCode.
  rewrite msb_pos by lia.
  destruct (Z.eqb_spec (Z.log2 c) (-1)) as [E|_].
  - pose proof (Z.log2_nonneg c). lia.
  - apply (childCode_small c i); lia.
Qed.

Lemma getParent_div k : 0 <= k < 2 ^ 32 -> getParent k = k / 8.
Proof. apply Int32Facts.ushr3. Qed.

(** C9. Round trip of the location-code arithmetic: for a 32-bit parent code
    with a set sentinel bit ([0 < parentCode < 2^32]) whose child still fits
    the 32 bits of a code ([msb parentCode + 3 < 32]) and a 3-bit selector,
    [getParent (generateLocCode parentCode nodeCode) = parentCode]. *)
Theorem getParent_generateLocCode (parentCode nodeCode : Z) :
  0 < parentCode < 2 ^ 32 -> msb parentCode + 3 < 32 -> 0 <= nodeCode < 8 ->
  getParent (generateLocCode parentCode nodeCode) = parentCode.
Proof.
  intros Hpos Hroom Hsel.
  rewrite msb_pos in Hroom by lia.
  assert (Hlt : parentCode < 2 ^ 29).
  { apply Z.log2_lt_pow2; lia. }
  unfold getParent, generateLocCode, Int32.ushr, Int32.or, Int32.shl.
  rewrite msb_pos by lia.
  destruct (Z.eqb_spec (Z.log2 parentCode) (-1)) as [E|_].
  { pose proof (Z.log2_nonneg parentCode). lia. }
  rewrite Int32Facts.to_uint32_to_int32, Int32Facts.to_uint32_lor.
  rewrite !Int32Facts.to_uint32_to_int32.
  rewrite (Int32Facts.to_int32_small parentCode) by lia.
  rewrite (Int32Facts.to_uint32_small nodeCode) by lia.
  rewrite (Int32Facts.to_uint32_small (Z.shiftl parentCode 3))
    by (rewrite Z.shiftl_mul_pow2; lia).
  rewrite Int32Facts.lor_shifted by lia.
  rewrite Z.shiftr_div_pow2 by lia.
  change (2 ^ 3) with 8.
  rewrite Z.mul_comm, Z.div_add_l by lia.
  rewrite Z.div_small by lia. lia.
Qed.

Lemma getParent_generateLocCode_witness :
  (0 < 15 < 2 ^ 32 /\ msb 15 + 3 < 32 /\ 0 <= 7 < 8)
  /\ getParent (generateLocCode 15 7) = 15.
Proof.
  assert (H1 : 0 < 15 < 2 ^ 32) by lia.
  assert (H2 : msb 15 + 3 < 32) by (vm_compute; reflexivity).
  assert (H3 : 0 <= 7 < 8) by lia.
  split; [auto|].
  exact (getParent_generateLocCode 15 7 H1 H2 H3).
Defined.

(** ** Build as a derivation *)

Lemma writeNodes_app o ns1 ns2 :
  writeNodes o (ns1 ++ ns2) = writeNodes (writeNodes o ns1) ns2.
Proof. unfold writeNodes. apply fold_left_app. Qed.

Lemma writeNodes_params o ns :
  threshold (writeNodes o ns) = threshold o
  /\ maxDepth (writeNodes o ns) = maxDepth o.
Proof.
  revert o. induction ns as [|n ns IH]; intros o; simpl; [auto|].
  destruct (IH (writeNode o n)) as [-> ->]. auto.
Qed.

Lemma isTerminal_params o idx c :
  isTerminal o idx c = isTerminal (emptyOctree (threshold o) (maxDepth o)) idx c.
Proof. reflexivity. Qed.

(** The loop of [build] over a list of octants, as a fold. *)
Lemma forOctants_fold {S : Type} (body : Z -> S -> option S) (s : S) :
  forOctants body s =
  fold_left (fun acc i => match acc with Some s' => body i s' | None => None end)
            octants (Some s).
Proof. reflexivity. Qed.

Lemma fold_option_None {S : Type} (body : Z -> S -> option S) (l : list Z) :
  fold_left (fun acc i => match acc with Some s' => body i s' | None => None end)
            l None = None.
Proof. induction l; simpl; auto. Qed.

(** Every successful [build] is a derivation of [Built], and the octree it
    returns is the initial one with the derivation's nodes written in order. *)
Lemma build_Built fuel : forall o idx vertices box c o',
  build fuel o idx vertices box c = Some o' ->
  exists ns, Built (threshold o) (maxDepth o) vertices idx box c ns
             /\ o' = writeNodes o ns.
Proof.
  induction fuel as [|fuel IH]; intros o idx vertices box c o' Hb;
    [discriminate|].
  simpl in Hb.
  rewrite isTerminal_params in Hb. simpl (threshold _) in Hb.
  simpl (maxDepth _) in Hb.
  destruct (isTerminal (emptyOctree (threshold o) (maxDepth o)) idx c) eqn:Hterm.
  - inversion Hb; subst o'; clear Hb.
    exists [mkNode c (setLocCode box c) (Some idx)]. split.
    + apply Built_leaf. exact Hterm.
    + unfold writeNodes, writeNode, setPoints, setNode. simpl.
      rewrite insert_insert_eq. reflexivity.
  - rewrite forOctants_fold in Hb.
    set (o1 := setNode o c None (setLocCode box c)) in *.
    match type of Hb with fold_left ?f _ _ = _ => set (body := f) in * end.
    assert (Hloop : forall l oa ob,
      threshold oa = threshold o -> maxDepth oa = maxDepth o ->
      fold_left body l (Some oa) = Some ob ->
      exists subs,
        BuiltChildren (threshold o) (maxDepth o) vertices idx box c l subs
        /\ ob = writeNodes oa subs).
    { induction l as [|i l IHl]; intros oa ob Ht Hd Hf; cbn [fold_left] in Hf.
      - inversion Hf; subst. exists []. split; [constructor|reflexivity].
      - unfold body at 2 in Hf.
        destruct (Nat.eqb_spec (childPointCounts
                    (map (octantCode vertices (center box)) idx) i) 0)
          as [Hz|Hnz].
        + destruct (IHl oa ob Ht Hd Hf) as (subs & HB & ->).
          exists subs. split; [|reflexivity].
          apply BuiltChildren_skip; assumption.
        + match type of Hf with
          | context [build fuel oa ?a ?b ?e ?g] =>
              destruct (build fuel oa a b e g) as [oc|] eqn:Hc
          end; [|unfold body in Hf; rewrite fold_option_None in Hf; discriminate].
          apply IH in Hc. destruct Hc as (ns & HBn & ->).
          rewrite Ht, Hd in HBn.
          destruct (writeNodes_params oa ns) as [Ht' Hd'].
          destruct (IHl (writeNodes oa ns) ob) as (subs & HB & ->);
            [congruence|congruence|exact Hf|].
          exists (ns ++ subs). split; [|symmetry; apply writeNodes_app].
          apply BuiltChildren_build; assumption. }
    destruct (Hloop octants o1 o') as (subs & HB & ->);
      [reflexivity|reflexivity|exact Hb|].
    exists (mkNode c (setLocCode box c) None :: subs). split.
    + apply Built_split; assumption.
    + reflexivity.
Qed.

(** ** Codes as paths: depth and descendants *)

Lemma pow8_S (j : nat) : 8 ^ Z.of_nat (S j) = 8 * 8 ^ Z.of_nat j.
Proof. rewrite Nat2Z.inj_succ, Z.pow_succ_r by lia. reflexivity. Qed.

Lemma pow8_pos (j : nat) : 0 < 8 ^ Z.of_nat j.
Proof. apply Z.pow_pos_nonneg; lia. Qed.

Lemma pow8_le (j j' : nat) : (j <= j')%nat -> 8 ^ Z.of_nat j <= 8 ^ Z.of_nat j'.
Proof. intros H. apply Z.pow_le_mono_r; lia. Qed.

Lemma atDepth_root : atDepth 0 1.
Proof. unfold atDepth. simpl. lia. Qed.

Lemma atDepth_0 c : atDepth 0 c -> c = 1.
Proof. unfold atDepth. simpl. lia. Qed.

Lemma atDepth_pos j c : atDepth j c -> 0 < c.
Proof. unfold atDepth. pose proof (pow8_pos j). lia. Qed.

Lemma atDepth_child j c i :
  atDepth j c -> 0 <= i < 8 -> atDepth (S j) (8 * c + i).
Proof. unfold atDepth. rewrite pow8_S. lia. Qed.

Lemma atDepth_parent j k : atDepth (S j) k -> atDepth j (k / 8).
Proof.
  unfold atDepth. rewrite pow8_S. intros [H1 H2]. split.
  - apply Z.div_le_lower_bound; lia.
  - apply Z.div_lt_upper_bound; lia.
Qed.

Lemma atDepth_inj j j' k : atDepth j k -> atDepth j' k -> j = j'.
Proof.
  unfold atDepth. intros [H1 H2] [H3 H4].
  destruct (Nat.lt_trichotomy j j') as [Hlt|[Heq|Hgt]]; [|exact Heq|]; exfalso.
  - pose proof (pow8_le (S j) j' Hlt) as Hp. rewrite pow8_S in Hp. lia.
  - pose proof (pow8_le (S j') j Hgt) as Hp. rewrite pow8_S in Hp. lia.
Qed.

Lemma atDepth_bound j n c :
  atDepth j c -> (j <= n)%nat -> 0 < c < 2 * 8 ^ Z.of_nat n.
Proof.
  intros Hc Hj. pose proof (atDepth_pos _ _ Hc). pose proof (pow8_le j n Hj).
  unfold atDepth in Hc. lia.
Qed.

Lemma atDepth_lt28 j c : atDepth j c -> (j <= 9)%nat -> 0 < c < 2 ^ 28.
Proof.
  intros Hc Hj. pose proof (atDepth_bound j 9 c Hc Hj) as H.
  change (2 * 8 ^ Z.of_nat 9) with (2 ^ 28) in H. exact H.
Qed.

Lemma atDepth_lt31 j c : atDepth j c -> (j <= 10)%nat -> 0 < c < 2 ^ 31.
Proof.
  intros Hc Hj. pose proof (atDepth_bound j 10 c Hc Hj) as H.
  change (2 * 8 ^ Z.of_nat 10) with (2 ^ 31) in H. exact H.
Qed.

Lemma atDepth_msb j c : atDepth j c -> (j <= 10)%nat -> msb c = 3 * Z.of_nat j.
Proof.
  intros Hc Hj. pose proof (atDepth_lt31 j c Hc Hj).
  rewrite msb_pos by lia.
  apply Z.log2_unique; [lia|].
  unfold atDepth in Hc.
  replace (2 ^ (3 * Z.of_nat j)) with (8 ^ Z.of_nat j)
    by (rewrite Z.pow_mul_r by lia; reflexivity).
  rewrite Z.pow_succ_r by lia.
  replace (2 ^ (3 * Z.of_nat j)) with (8 ^ Z.of_nat j)
    by (rewrite Z.pow_mul_r by lia; reflexivity).
  lia.
Qed.

Lemma descAt_atDepth c m k j : descAt c m k -> atDepth j c -> atDepth (j + m) k.
Proof.
  induction 1 as [|m k i _ IH Hi]; intros Hc.
  - rewrite Nat.add_0_r. exact Hc.
  - rewrite Nat.add_succ_r. apply atDepth_child; auto.
Qed.

Lemma descAt_interval c m k :
  descAt c m k -> c * 8 ^ Z.of_nat m <= k < (c + 1) * 8 ^ Z.of_nat m.
Proof.
  induction 1 as [|m k i _ IH Hi].
  - simpl. lia.
  - rewrite pow8_S. lia.
Qed.

Lemma descAt_lift c i m k :
  0 <= i < 8 -> descAt (8 * c + i) m k -> descAt c (S m) k.
Proof.
  intros Hi. induction 1 as [|m k i' _ IH Hi'].
  - apply descAt_S; [apply descAt_O|exact Hi].
  - apply descAt_S; assumption.
Qed.

Lemma descAt_split c m : forall k,
  descAt c (S m) k -> exists i, 0 <= i < 8 /\ descAt (8 * c + i) m k.
Proof.
  induction m as [|m IH]; intros k H; inversion H as [|m' k' i Hk' Hi]; subst.
  - inversion Hk'; subst. exists i. split; [exact Hi|apply descAt_O].
  - destruct (IH k' Hk') as (i0 & Hi0 & Hd).
    exists i0. split; [exact Hi0|]. apply descAt_S; assumption.
Qed.


(** Two codes of the same depth have disjoint subtrees. *)
Lemma descAt_disjoint j a b m m' k :
  atDepth j a -> atDepth j b -> descAt a m k -> descAt b m' k -> a = b.
Proof.
  intros Ha Hb Hka Hkb.
  pose proof (descAt_atDepth _ _ _ _ Hka Ha) as H1.
  pose proof (descAt_atDepth _ _ _ _ Hkb Hb) as H2.
  assert (m = m') by (pose proof (atDepth_inj _ _ _ H1 H2); lia). subst m'.
  apply descAt_interval in Hka, Hkb.
  pose proof (pow8_pos m) as Hp.
  destruct (Z.lt_trichotomy a b) as [Hlt|[Heq|Hgt]]; [|exact Heq|]; exfalso.
  - assert ((a + 1) * 8 ^ Z.of_nat m <= b * 8 ^ Z.of_nat m)
      by (apply Z.mul_le_mono_nonneg_r; lia). lia.
  - assert ((b + 1) * 8 ^ Z.of_nat m <= a * 8 ^ Z.of_nat m)
      by (apply Z.mul_le_mono_nonneg_r; lia). lia.
Qed.

(** ** The leaf test and the octants *)

(** The leaf test, on a code of known depth. *)
Lemma Qle_depth (dd m : Z) :
  Qle_bool (inject_Z dd) (inject_Z m / 3) = true <-> 3 * dd <= m.
Proof.
  rewrite Qle_bool_iff. unfold Qle, Qdiv, Qmult, Qinv, inject_Z. simpl. lia.
Qed.

Lemma isTerminal_false t d idx c :
  isTerminal (emptyOctree t d) idx c = false ->
  (t < length idx)%nat /\ msb c < 3 * Z.of_nat d.
Proof.
  unfold isTerminal, getDepth. simpl. intros H.
  apply orb_false_iff in H. destruct H as [H1 H2]. split.
  - apply Nat.leb_gt in H1. exact H1.
  - destruct (Z.lt_ge_cases (msb c) (3 * Z.of_nat d)) as [|Hge]; [assumption|].
    apply Qle_depth in Hge. congruence.
Qed.

Lemma isTerminal_true t d idx c :
  isTerminal (emptyOctree t d) idx c = true ->
  (length idx <= t)%nat \/ 3 * Z.of_nat d <= msb c.
Proof.
  unfold isTerminal, getDepth. simpl. intros H.
  apply orb_true_iff in H. destruct H as [H|H].
  - left. apply Nat.leb_le. exact H.
  - right. apply Qle_depth. exact H.
Qed.

Lemma octantCode_range vertices ctr p : 0 <= octantCode vertices ctr p < 8.
Proof.
  unfold octantCode.
  destruct (coordGe _ _ (vx ctr)), (coordGe _ _ (vy ctr)), (coordGe _ _ (vz ctr));
    (split; [apply Z.leb_le|apply Z.ltb_lt]; reflexivity).
Qed.

Lemma octants_range i : In i octants <-> 0 <= i < 8.
Proof. unfold octants. simpl. lia. Qed.

Lemma octants_NoDup : List.NoDup octants.
Proof.
  unfold octants.
  repeat (apply List.NoDup_cons; [simpl; lia|]). apply List.NoDup_nil.
Qed.

Lemma childPointCounts_nextPoints vertices ctr idx i :
  childPointCounts (map (octantCode vertices ctr) idx) i
  = length (nextPoints vertices ctr idx i).
Proof.
  unfold childPointCounts, nextPoints.
  induction idx as [|p idx IH]; simpl; [reflexivity|].
  destruct (octantCode vertices ctr p =? i); simpl; rewrite IH; reflexivity.
Qed.

(** ** What a derivation writes *)

Lemma leaves_app ns1 ns2 : leaves (ns1 ++ ns2) = leaves ns1 ++ leaves ns2.
Proof. unfold leaves. rewrite omap_app. apply concat_app. Qed.

Section Partition.

Variables (f : N -> Z).

Lemma part_cons_notin p idx (l : list Z) :
  ~ In (f p) l -> map (partBy f (p :: idx)) l = map (partBy f idx) l.
Proof.
  induction l as [|i l IH]; intros Hn; simpl; [reflexivity|].
  rewrite IH by (simpl in Hn; tauto).
  destruct (Z.eqb_spec (f p) i) as [E|_]; [|reflexivity].
  exfalso. apply Hn. left. auto.
Qed.

Lemma part_cons_in p idx (l : list Z) :
  List.NoDup l -> In (f p) l ->
  Permutation (concat (map (partBy f (p :: idx)) l))
              (p :: concat (map (partBy f idx) l)).
Proof.
  induction l as [|i l IH]; intros Hnd Hin; [destruct Hin|].
  inversion Hnd as [|? ? Hni Hnd']; subst. simpl.
  destruct (Z.eqb_spec (f p) i) as [E|Hne].
  - rewrite part_cons_notin by (rewrite E; exact Hni). reflexivity.
  - destruct Hin as [Hin|Hin]; [congruence|].
    rewrite (IH Hnd' Hin). symmetry. apply Permutation_middle.
Qed.

(** Splitting a list by a code and concatenating the parts permutes it. *)
Lemma partition_perm (l : list Z) idx :
  List.NoDup l -> (forall p, In (f p) l) ->
  Permutation (concat (map (partBy f idx) l)) idx.
Proof.
  intros Hnd Hall. induction idx as [|p idx IH].
  - replace (concat (map (partBy f []) l)) with (@nil N); [reflexivity|].
    clear. induction l as [|i l IHl]; simpl; auto.
  - rewrite part_cons_in by auto. constructor. exact IH.
Qed.

End Partition.

Lemma nextPoints_partition vertices ctr idx :
  Permutation (concat (map (nextPoints vertices ctr idx) octants)) idx.
Proof.
  apply (partition_perm (octantCode vertices ctr) octants idx).
  - apply octants_NoDup.
  - intros p. apply octants_range. apply octantCode_range.
Qed.

Section BuiltFacts.

Variables (t d : nat) (vertices : list Q).

(** No index is lost or duplicated among the nodes of a derivation. *)
Lemma Built_leaves idx box c ns :
  Built t d vertices idx box c ns -> Permutation (leaves ns) idx.
Proof.
  revert idx box c ns.
  apply (Built_mut t d vertices
    (fun idx box c ns => Permutation (leaves ns) idx)
    (fun idx box c l subs =>
       Permutation (leaves subs)
                   (concat (map (nextPoints vertices (center box) idx) l)))).
  - intros idx box c _. unfold leaves. simpl. rewrite app_nil_r. reflexivity.
  - intros idx box c subs _ _ IH. unfold leaves in *. simpl.
    rewrite IH. apply nextPoints_partition.
  - intros. reflexivity.
  - intros idx box c i rest subs Hz _ IH. simpl.
    rewrite childPointCounts_nextPoints in Hz.
    apply length_zero_iff_nil in Hz. rewrite Hz. exact IH.
  - intros idx box c i rest ns subs _ _ IHn _ IHs. simpl.
    rewrite leaves_app, IHn, IHs. reflexivity.
Qed.

Lemma Built_local idx box c ns :
  Built t d vertices idx box c ns -> Forall (nodeLocal t d) ns.
Proof.
  revert idx box c ns.
  apply (Built_mut t d vertices
    (fun idx box c ns => Forall (nodeLocal t d) ns)
    (fun idx box c l subs => Forall (nodeLocal t d) subs)).
  - intros idx box c Hterm. constructor; [|constructor].
    split; [reflexivity|]. split; simpl.
    + intros l [= <-]. apply isTerminal_true with (c := c). exact Hterm.
    + discriminate.
  - intros idx box c subs Hterm _ IH. constructor; [|exact IH].
    split; [reflexivity|]. split; simpl.
    + discriminate.
    + intros _. apply (isTerminal_false t d idx c Hterm).
  - intros. constructor.
  - intros. assumption.
  - intros idx box c i rest ns subs _ _ IHn _ IHs.
    apply Forall_app. split; assumption.
Qed.

End BuiltFacts.

(** ** The tree shape of the written codes (codes that fit 32 bits) *)

Lemma sibling_disjoint j c i i' m m' k :
  atDepth j c -> 0 <= i < 8 -> 0 <= i' < 8 ->
  descAt (8 * c + i) m k -> descAt (8 * c + i') m' k -> i = i'.
Proof.
  intros Hc Hi Hi' H1 H2.
  assert (8 * c + i = 8 * c + i'); [|lia].
  apply (descAt_disjoint (S j) _ _ m m' k); auto using atDepth_child.
Qed.

Lemma div8_child c i : 0 <= i < 8 -> (8 * c + i) / 8 = c.
Proof.
  intros Hi. rewrite Z.mul_comm, Z.div_add_l by lia.
  rewrite Z.div_small by lia. lia.
Qed.

Section BuiltStructure.

Variables (t d : nat) (vertices : list Q).
Hypothesis Hd : (d <= 10)%nat.

Lemma in_codes k ns : In k (codes ns) <-> exists n, In n ns /\ n_code n = k.
Proof.
  unfold codes. rewrite in_map_iff. split; intros (n & H1 & H2); eauto.
Qed.

Lemma Built_structure idx box c ns :
  Built t d vertices idx box c ns ->
  forall j, atDepth j c -> (j <= d)%nat ->
    (exists p rest, ns = mkNode c (setLocCode box c) p :: rest)
    /\ subtreeOk d j c ns.
Proof.
  revert idx box c ns.
  apply (Built_mut t d vertices
    (fun idx box c ns => forall j, atDepth j c -> (j <= d)%nat ->
       (exists p rest, ns = mkNode c (setLocCode box c) p :: rest)
       /\ subtreeOk d j c ns)
    (fun idx box c l subs => forall j, atDepth j c -> (S j <= d)%nat ->
       List.NoDup l -> (forall i, In i l -> 0 <= i < 8) ->
       childrenOk d vertices idx box j c l subs)).
  - (* leaf *)
    intros idx box c _ j Hc Hj. split; [eauto|].
    pose proof (atDepth_pos _ _ Hc) as Hpos.
    constructor.
    + repeat constructor. exists 0%nat. apply descAt_O.
    + repeat constructor. exists j. split; [lia|exact Hc].
    + repeat constructor. simpl. tauto.
    + intros n [<-|[]] Hne. simpl in Hne. congruence.
    + intros n [<-|[]]. discriminate.
    + intros n l i [<-|[]] _ Hi [E|[]]. simpl in E. lia.
  - (* split *)
    intros idx box c subs Hterm _ IH j Hc Hj. split; [eauto|].
    apply isTerminal_false in Hterm. destruct Hterm as [Hlen Hmsb].
    rewrite (atDepth_msb j c Hc) in Hmsb by lia.
    assert (Hjd : (S j <= d)%nat) by lia.
    specialize (IH j Hc Hjd octants_NoDup (fun i H => proj1 (octants_range i) H)).
    destruct IH as [Cdesc Cdepth Cnodup Cparent Cint Cleaf Cheads].
    assert (Hfresh : ~ In c (codes subs)).
    { intros Hin. apply in_codes in Hin. destruct Hin as (n & Hn & Hcode).
      rewrite List.Forall_forall in Cdepth.
      destruct (Cdepth n Hn) as (j' & Hj' & Hat). rewrite Hcode in Hat.
      pose proof (atDepth_inj _ _ _ Hc Hat). lia. }
    constructor.
    + constructor; [exists 0%nat; apply descAt_O|].
      eapply List.Forall_impl; [|exact Cdesc].
      intros n (i & m & Hi & Hdesc). exists (S m).
      apply (descAt_lift c i); [apply octants_range; exact Hi|exact Hdesc].
    + constructor; [exists j; split; [lia|exact Hc]|].
      eapply List.Forall_impl; [|exact Cdepth].
      intros n (j' & Hj' & Hat). exists j'. split; [lia|exact Hat].
    + simpl. constructor; assumption.
    + intros n [<-|Hn] Hne; [simpl in Hne; congruence|].
      simpl. destruct (Cparent n Hn) as [E|Hin]; [left; auto|right; exact Hin].
    + intros n [<-|Hn] Hnone.
      * simpl. destruct idx as [|p idx]; [simpl in Hlen; lia|].
        exists (octantCode vertices (center box) p).
        pose proof (octantCode_range vertices (center box) p) as Hr.
        split; [exact Hr|]. right. apply Cheads.
        -- apply octants_range. exact Hr.
        -- rewrite childPointCounts_nextPoints. unfold nextPoints. simpl.
           rewrite Z.eqb_refl. simpl. discriminate.
      * destruct (Cint n Hn Hnone) as (i & Hi & Hin).
        exists i. split; [exact Hi|]. right. exact Hin.
    + intros n l i [<-|Hn] Hsome Hi; [discriminate|].
      intros [E|Hin]; [|exact (Cleaf n l i Hn Hsome Hi Hin)].
      rewrite List.Forall_forall in Cdepth.
      destruct (Cdepth n Hn) as (j' & Hj' & Hat).
      pose proof (atDepth_child _ _ i Hat Hi) as Hat'. rewrite <- E in Hat'.
      pose proof (atDepth_inj _ _ _ Hc Hat'). lia.
  - (* no octant left *)
    intros idx box c j Hc Hj _ _. constructor; simpl; try constructor; tauto.
  - (* empty octant *)
    intros idx box c i rest subs Hz _ IH j Hc Hj Hnd Hr.
    inversion Hnd as [|? ? Hni Hnd']; subst.
    specialize (IH j Hc Hj Hnd' (fun i' H => Hr i' (or_intror H))).
    destruct IH as [Cdesc Cdepth Cnodup Cparent Cint Cleaf Cheads].
    constructor; auto.
    + eapply List.Forall_impl; [|exact Cdesc].
      intros n (i' & m & Hi' & Hdesc). exists i', m. split; [right|]; auto.
    + intros i' [<-|Hi'] Hcnt; [congruence|]. apply Cheads; assumption.
  - (* built octant *)
    intros idx box c i rest ns subs Hcnt _ IHn _ IHs j Hc Hj Hnd Hr.
    inversion Hnd as [|? ? Hni Hnd']; subst.
    assert (Hi : 0 <= i < 8) by (apply Hr; left; reflexivity).
    pose proof (atDepth_lt28 j c Hc ltac:(lia)) as Hc28.
    rewrite generateLocCode_small in IHn by lia.
    destruct (IHn (S j) (atDepth_child _ _ _ Hc Hi) Hj)
      as [(p & rest' & Hns) [Sdesc Sdepth Snodup Sparent Sint Sleaf]].
    specialize (IHs j Hc Hj Hnd' (fun i' H => Hr i' (or_intror H))).
    destruct IHs as [Cdesc Cdepth Cnodup Cparent Cint Cleaf Cheads].
    rewrite List.Forall_forall in Sdesc, Cdesc.
    assert (Hdisj : forall k, In k (codes ns) -> In k (codes subs) -> False).
    { intros k H1 H2. apply in_codes in H1, H2.
      destruct H1 as (n1 & Hn1 & E1), H2 as (n2 & Hn2 & E2).
      destruct (Sdesc n1 Hn1) as (m1 & Hd1).
      destruct (Cdesc n2 Hn2) as (i2 & m2 & Hi2 & Hd2).
      rewrite E1 in Hd1. rewrite E2 in Hd2.
      assert (i = i2)
        by (eapply (sibling_disjoint j c i i2);
            [exact Hc|exact Hi|exact (Hr i2 (or_intror Hi2))|eassumption
            |eassumption]).
      subst i2. contradiction. }
    assert (Hcodes : codes (ns ++ subs) = codes ns ++ codes subs)
      by apply map_app.
    constructor.
    + apply List.Forall_forall. intros n Hn. apply in_app_or in Hn.
      destruct Hn as [Hn|Hn].
      * destruct (Sdesc n Hn) as (m & Hdm). exists i, m. split; [left|]; auto.
      * destruct (Cdesc n Hn) as (i' & m & Hi' & Hdm).
        exists i', m. split; [right|]; auto.
    + apply Forall_app. split; assumption.
    + rewrite Hcodes. apply List.NoDup_app; [exact Snodup|exact Cnodup|].
      intros k H1 H2. eauto.
    + intros n Hn. rewrite Hcodes. apply in_app_or in Hn.
      destruct Hn as [Hn|Hn].
      * destruct (Z.eq_dec (n_code n) (8 * c + i)) as [E|Hne].
        -- left. rewrite E. apply div8_child. exact Hi.
        -- right. apply in_or_app. left. apply Sparent; assumption.
      * destruct (Cparent n Hn) as [E|Hin]; [left; exact E|].
        right. apply in_or_app. right. exact Hin.
    + intros n Hn Hnone. rewrite Hcodes. apply in_app_or in Hn.
      destruct Hn as [Hn|Hn].
      * destruct (Sint n Hn Hnone) as (i' & Hi' & Hin).
        exists i'. split; [exact Hi'|]. apply in_or_app. left. exact Hin.
      * destruct (Cint n Hn Hnone) as (i' & Hi' & Hin).
        exists i'. split; [exact Hi'|]. apply in_or_app. right. exact Hin.
    + intros n l i0 Hn Hsome Hi0. rewrite Hcodes. intros Hin.
      apply in_app_or in Hn. apply in_app_or in Hin.
      destruct Hn as [Hn|Hn], Hin as [Hin|Hin].
      * exact (Sleaf n l i0 Hn Hsome Hi0 Hin).
      * apply in_codes in Hin. destruct Hin as (n2 & Hn2 & E2).
        destruct (Sdesc n Hn) as (m1 & Hd1).
        destruct (Cdesc n2 Hn2) as (i2 & m2 & Hi2 & Hd2).
        rewrite E2 in Hd2.
        pose proof (descAt_S _ _ _ i0 Hd1 Hi0) as Hd1'.
        assert (i = i2)
          by exact (sibling_disjoint j c i i2 _ _ _ Hc Hi
                      (Hr i2 (or_intror Hi2)) Hd1' Hd2).
        subst i2. contradiction.
      * apply in_codes in Hin. destruct Hin as (n1 & Hn1 & E1).
        destruct (Sdesc n1 Hn1) as (m1 & Hd1).
        destruct (Cdesc n Hn) as (i2 & m2 & Hi2 & Hd2).
        rewrite E1 in Hd1.
        pose proof (descAt_S _ _ _ i0 Hd2 Hi0) as Hd2'.
        assert (i = i2)
          by exact (sibling_disjoint j c i i2 _ _ _ Hc Hi
                      (Hr i2 (or_intror Hi2)) Hd1 Hd2').
        subst i2. contradiction.
      * exact (Cleaf n l i0 Hn Hsome Hi0 Hin).
    + intros i' [<-|Hi'] Hc'; rewrite Hcodes; apply in_or_app.
      * left. rewrite Hns. simpl. left. reflexivity.
      * right. apply Cheads; assumption.
Qed.

End BuiltStructure.

(** ** Termination of build for codes that fit 32 bits *)

Lemma build_params fuel o idx vertices box c o' :
  build fuel o idx vertices box c = Some o' ->
  threshold o' = threshold o /\ maxDepth o' = maxDepth o.
Proof.
  intros H. apply build_Built in H. destruct H as (ns & _ & ->).
  apply writeNodes_params.
Qed.

Lemma build_total fuel : forall o idx vertices box c j,
  (maxDepth o <= 10)%nat -> atDepth j c -> (j <= maxDepth o)%nat ->
  (maxDepth o < fuel + j)%nat ->
  exists o', build fuel o idx vertices box c = Some o'.
Proof.
  induction fuel as [|fuel IH]; intros o idx vertices box c j Hd Hc Hj Hfuel;
    [lia|].
  simpl. rewrite isTerminal_params. simpl (threshold _). simpl (maxDepth _).
  destruct (isTerminal (emptyOctree (threshold o) (maxDepth o)) idx c) eqn:Hterm;
    [eauto|].
  apply isTerminal_false in Hterm. destruct Hterm as [_ Hmsb].
  rewrite (atDepth_msb j c Hc) in Hmsb by lia.
  pose proof (atDepth_lt28 j c Hc ltac:(lia)) as Hc28.
  rewrite forOctants_fold.
  set (o1 := setNode o c None (setLocCode box c)).
  assert (Hloop : forall l oa,
    (forall i, In i l -> 0 <= i < 8) -> maxDepth oa = maxDepth o ->
    exists ob,
      fold_left
        (fun acc i => match acc with
           | Some s' =>
               if Nat.eqb (childPointCounts
                    (map (octantCode vertices (center box)) idx) i) 0
               then Some s'
               else build fuel s' (nextPoints vertices (center box) idx i)
                      vertices (nextAabb (setLocCode box c) i)
                      (generateLocCode c i)
           | None => None end) l (Some oa) = Some ob).
  { induction l as [|i l IHl]; intros oa Hr Hoa; cbn [fold_left]; [eauto|].
    assert (Hi : 0 <= i < 8) by (apply Hr; left; reflexivity).
    destruct (Nat.eqb _ 0).
    - apply IHl; [intros; apply Hr; right; assumption|exact Hoa].
    - destruct (IH oa (nextPoints vertices (center box) idx i) vertices
                  (nextAabb (setLocCode box c) i) (generateLocCode c i) (S j))
        as [oc Hoc]; try lia.
      + rewrite generateLocCode_small by lia. apply atDepth_child; assumption.
      + rewrite Hoc. apply IHl; [intros; apply Hr; right; assumption|].
        apply build_params in Hoc. destruct Hoc as [_ ->]. exact Hoa. }
  apply (Hloop octants o1); [apply octants_range|reflexivity].
Qed.

(** ** From the written nodes to the two maps *)

Lemma writeNodes_lookup ns : forall o k,
  (~ In k (codes ns)
   /\ aabbs (writeNodes o ns) !! k = aabbs o !! k
   /\ points (writeNodes o ns) !! k = points o !! k)
  \/ (exists n, In n ns /\ n_code n = k
        /\ aabbs (writeNodes o ns) !! k = Some (n_aabb n)
        /\ points (writeNodes o ns) !! k = Some (n_points n)).
Proof.
  induction ns as [|n ns IH]; intros o k; [left; simpl; tauto|].
  change (writeNodes o (n :: ns)) with (writeNodes (writeNode o n) ns).
  destruct (IH (writeNode o n) k) as [(Hni & Ha & Hp)|(n' & Hn' & E & Ha & Hp)].
  - destruct (Z.eq_dec (n_code n) k) as [E|Hne].
    + right. exists n. rewrite Ha, Hp. subst k. unfold writeNode, setNode. simpl.
      rewrite !lookup_insert_eq. auto.
    + left. rewrite Ha, Hp. unfold writeNode, setNode. simpl.
      rewrite !lookup_insert_ne by exact Hne. simpl. tauto.
  - right. exists n'. simpl. auto.
Qed.

Lemma NoDup_codes_inj ns n n' :
  List.NoDup (codes ns) -> In n ns -> In n' ns -> n_code n = n_code n' -> n = n'.
Proof.
  induction ns as [|a ns IH]; intros Hnd Hn Hn' E; [destruct Hn|].
  inversion Hnd as [|? ? Hni Hnd']; subst.
  destruct Hn as [<-|Hn], Hn' as [<-|Hn']; auto.
  - exfalso. apply Hni. rewrite E. apply in_map. exact Hn'.
  - exfalso. apply Hni. rewrite <- E. apply in_map. exact Hn.
Qed.

(** The maps of an octree built from nothing hold exactly the written nodes
    when no code is written twice. *)
Lemma writeNodes_empty_lookup t d ns k :
  List.NoDup (codes ns) ->
  let o := writeNodes (emptyOctree t d) ns in
  (~ In k (codes ns) /\ aabbs o !! k = None /\ points o !! k = None)
  \/ (exists n, In n ns /\ n_code n = k
        /\ aabbs o !! k = Some (n_aabb n) /\ points o !! k = Some (n_points n)).
Proof.
  intros Hnd o. subst o.
  destruct (writeNodes_lookup ns (emptyOctree t d) k) as [(H1 & H2 & H3)|H].
  - left. simpl in H2, H3. rewrite lookup_empty in H2. rewrite lookup_empty in H3.
    auto.
  - right. exact H.
Qed.

Lemma key_written t d ns k :
  is_Some (aabbs (writeNodes (emptyOctree t d) ns) !! k) ->
  exists n, In n ns /\ n_code n = k
    /\ aabbs (writeNodes (emptyOctree t d) ns) !! k = Some (n_aabb n)
    /\ points (writeNodes (emptyOctree t d) ns) !! k = Some (n_points n).
Proof.
  intros [b Hb].
  destruct (writeNodes_lookup ns (emptyOctree t d) k) as [(H1 & H2 & H3)|H].
  - simpl in H2. rewrite lookup_empty in H2. congruence.
  - exact H.
Qed.


Lemma code_is_key t d ns k :
  In k (codes ns) -> is_Some (aabbs (writeNodes (emptyOctree t d) ns) !! k).
Proof.
  intros Hin.
  destruct (writeNodes_lookup ns (emptyOctree t d) k) as [(H1 & _)|(n & _ & _ & Ha & _)].
  - contradiction.
  - rewrite Ha. eauto.
Qed.

(** ** Leaf contents (C1) *)

Lemma points_list_to_map t d ns :
  List.NoDup (codes ns) ->
  points (writeNodes (emptyOctree t d) ns) = list_to_map (map nodeEntry ns).
Proof.
  intros Hnd. apply map_eq. intros k.
  assert (Hfst : (map nodeEntry ns).*1 = codes ns).
  { unfold codes. clear. induction ns as [|n ns IH]; simpl; [|rewrite <- IH];
      reflexivity. }
  destruct (writeNodes_empty_lookup t d ns k Hnd)
    as [(Hni & _ & Hp)|(n & Hn & E & _ & Hp)]; rewrite Hp; symmetry.
  - apply not_elem_of_list_to_map. rewrite Hfst, list_elem_of_In. exact Hni.
  - apply elem_of_list_to_map.
    + rewrite Hfst. apply NoDup_ListNoDup. exact Hnd.
    + apply list_elem_of_In. rewrite <- E.
      apply (in_map nodeEntry). exact Hn.
Qed.

Lemma leafPoints_writeNodes t d ns :
  List.NoDup (codes ns) ->
  Permutation (leafPoints (writeNodes (emptyOctree t d) ns)) (leaves ns).
Proof.
  intros Hnd. unfold leafPoints. rewrite points_list_to_map by exact Hnd.
  rewrite map_to_list_to_map.
  - unfold leaves. clear. induction ns as [|n ns IH]; simpl; [reflexivity|].
    destruct (n_points n); simpl; [rewrite IH|]; auto.
  - replace ((map nodeEntry ns).*1) with (codes ns);
      [apply NoDup_ListNoDup; exact Hnd|].
    unfold codes. clear. induction ns as [|n ns IH]; simpl; [|rewrite IH];
      reflexivity.
Qed.

(** Everything known about an octree built from the root code 1 with a depth
    cap of at most 10. *)
Lemma build_root_structure fuel t d idx vertices box o :
  (d <= 10)%nat ->
  build fuel (emptyOctree t d) idx vertices box 1 = Some o ->
  exists ns, Built t d vertices idx box 1 ns
    /\ o = writeNodes (emptyOctree t d) ns
    /\ (exists p rest, ns = mkNode 1 (setLocCode box 1) p :: rest)
    /\ subtreeOk d 0 1 ns.
Proof.
  intros Hd Hb. apply build_Built in Hb. simpl in Hb.
  destruct Hb as (ns & HB & ->). exists ns.
  destruct (Built_structure t d vertices Hd idx box 1 ns HB 0%nat atDepth_root)
    as [Hhead Hst]; [lia|]. auto.
Qed.

Lemma build_root_total t d idx vertices box :
  (d <= 10)%nat ->
  exists o, build (S d) (emptyOctree t d) idx vertices box 1 = Some o.
Proof.
  intros Hd. apply (build_total (S d) (emptyOctree t d) idx vertices box 1 0%nat);
    simpl; auto using atDepth_root with lia.
Qed.

(** C1 (amended). For a depth cap of at most 10, [build] from the root
    returns, and in every octree it returns the index lists stored at the
    leaves (the keys of [points] with a non-null list) add up, as a multiset,
    to the input [pointIndices]: every index is in exactly one leaf list as
    often as it is in the input, and no other index appears. *)
Theorem build_leaf_points (t d : nat) (idx : list N) (vertices : list Q)
    (box : AABB) :
  (d <= 10)%nat ->
  (exists o, build (S d) (emptyOctree t d) idx vertices box 1 = Some o)
  /\ (forall fuel o,
        build fuel (emptyOctree t d) idx vertices box 1 = Some o ->
        Permutation (leafPoints o) idx).
Proof.
  intros Hd. split; [apply build_root_total; exact Hd|].
  intros fuel o Hb.
  destruct (build_root_structure fuel t d idx vertices box o Hd Hb)
    as (ns & HB & -> & _ & Hst).
  rewrite leafPoints_writeNodes by (apply (st_nodup _ _ _ _ Hst)).
  apply (Built_leaves t d vertices idx box 1 ns HB).
Qed.

(** ** Keys of the box map *)

Lemma in_getLocCodes o k : In k (getLocCodes o) <-> is_Some (aabbs o !! k).
Proof.
  unfold getLocCodes. rewrite <- list_elem_of_In, list_elem_of_fmap. split.
  - intros ([k' b] & -> & Hin). apply elem_of_map_to_list in Hin.
    simpl. rewrite Hin. eauto.
  - intros [b Hb]. exists (k, b). split; [reflexivity|].
    apply elem_of_map_to_list. exact Hb.
Qed.





(** C10 (amended). For a depth cap of at most 10, [build] from the root code
    1 returns, and in every octree it returns the root is a key of the box
    map, every other key has its parent [key >>> 3] among the keys, and
    taking the parent repeatedly leads from every key to the root. *)
Theorem build_ancestor_closed (t d : nat) (idx : list N) (vertices : list Q)
    (box : AABB) :
  (d <= 10)%nat ->
  (exists o, build (S d) (emptyOctree t d) idx vertices box 1 = Some o)
  /\ (forall fuel o,
        build fuel (emptyOctree t d) idx vertices box 1 = Some o ->
        In 1 (getLocCodes o)
        /\ forall k, In k (getLocCodes o) ->
             (k <> 1 -> In (getParent k) (getLocCodes o))
             /\ exists n, Nat.iter n getParent k = 1).
Proof.
  intros Hd. split; [apply build_root_total; exact Hd|].
  intros fuel o Hb.
  destruct (build_root_structure fuel t d idx vertices box o Hd Hb)
    as (ns & HB & -> & (p & rest & Hns) & Hst).
  destruct Hst as [Sdesc Sdepth Snodup Sparent Sint Sleaf].
  rewrite List.Forall_forall in Sdepth.
  assert (Hkey : forall k, In k (getLocCodes (writeNodes (emptyOctree t d) ns))
                           <-> In k (codes ns)).
  { intros k. rewrite in_getLocCodes. split.
    - intros H. apply key_written in H. destruct H as (n & Hn & <- & _).
      apply in_map. exact Hn.
    - apply code_is_key. }
  assert (Hup : forall k, In k (codes ns) -> k <> 1 ->
                  exists j, atDepth (S j) k /\ (S j <= d)%nat
                            /\ getParent k = k / 8 /\ In (k / 8) (codes ns)).
  { intros k Hk Hne. apply in_codes in Hk. destruct Hk as (n & Hn & <-).
    destruct (Sdepth n Hn) as (j' & Hj' & Hat).
    destruct j' as [|j]; [apply atDepth_0 in Hat; congruence|].
    exists j. split; [exact Hat|]. split; [lia|]. split.
    - apply getParent_div. pose proof (atDepth_lt31 _ _ Hat ltac:(lia)). lia.
    - apply Sparent; assumption. }
  split; [apply Hkey; rewrite Hns; left; reflexivity|].
  intros k Hk. apply Hkey in Hk. split.
  - intros Hne. destruct (Hup k Hk Hne) as (j & _ & _ & -> & Hin).
    apply Hkey. exact Hin.
  - assert (Hdepth : exists j, atDepth j k).
    { apply in_codes in Hk. destruct Hk as (n & Hn & <-).
      destruct (Sdepth n Hn) as (j' & _ & Hat). eauto. }
    destruct Hdepth as (j & Hat). revert k Hk Hat.
    induction j as [|j IH]; intros k Hk Hat.
    + exists 0%nat. simpl. apply atDepth_0. exact Hat.
    + assert (Hne : k <> 1).
      { intros ->. pose proof (atDepth_inj _ _ _ Hat atDepth_root). lia. }
      destruct (Hup k Hk Hne) as (j0 & _ & _ & Hpar & Hin).
      destruct (IH (k / 8) Hin (atDepth_parent _ _ Hat)) as (n & Hn).
      exists (S n). rewrite Nat.iter_succ_r, Hpar. exact Hn.
Qed.


(** C6 (amended). For a depth cap of at most 10, [build] from the root
    returns, and in every octree it returns the keys of [points] are the
    keys of the box map; the entry of a node is [null] exactly when the node
    is internal (one of its eight child codes is a key), and it is then
    present with the value [null], not absent. *)
Theorem build_points_entries (t d : nat) (idx : list N) (vertices : list Q)
    (box : AABB) :
  (d <= 10)%nat ->
  (exists o, build (S d) (emptyOctree t d) idx vertices box 1 = Some o)
  /\ (forall fuel o,
        build fuel (emptyOctree t d) idx vertices box 1 = Some o ->
        forall k,
          (is_Some (points o !! k) <-> In k (getLocCodes o))
          /\ (In k (getLocCodes o) ->
              (points o !! k = Some None
               <-> exists i, 0 <= i < 8 /\ In (8 * k + i) (getLocCodes o)))).
Proof.
  intros Hd. split; [apply build_root_total; exact Hd|].
  intros fuel o Hb k.
  destruct (build_root_structure fuel t d idx vertices box o Hd Hb)
    as (ns & HB & -> & _ & Hst).
  destruct Hst as [Sdesc Sdepth Snodup Sparent Sint Sleaf].
  assert (Hkey : forall k', In k' (getLocCodes (writeNodes (emptyOctree t d) ns))
                            <-> In k' (codes ns)).
  { intros k'. rewrite in_getLocCodes. split.
    - intros H. apply key_written in H. destruct H as (n & Hn & <- & _).
      apply in_map. exact Hn.
    - apply code_is_key. }
  split.
  - rewrite Hkey.
    destruct (writeNodes_empty_lookup t d ns k Snodup)
      as [(Hni & _ & Hp)|(n & Hn & E & _ & Hp)]; rewrite Hp.
    + split; [intros [? ?]; discriminate|contradiction].
    + split; [intros _; rewrite <- E; apply in_map; exact Hn|eauto].
  - intros Hk. apply in_getLocCodes, key_written in Hk.
    destruct Hk as (n & Hn & <- & _ & Hp). rewrite Hp. split.
    + intros [= Hnone]. destruct (Sint n Hn Hnone) as (i & Hi & Hin).
      exists i. split; [exact Hi|]. apply Hkey. exact Hin.
    + intros (i & Hi & Hin). apply Hkey in Hin.
      destruct (n_points n) as [l|] eqn:Hl; [|reflexivity].
      exfalso. exact (Sleaf n l i Hn Hl Hi Hin).
Qed.

(** ** Traversal (C3) *)

Lemma treeKeys_ancestor o a m k :
  treeKeys o -> 0 < a -> descAt a m k ->
  is_Some (aabbs o !! k) -> is_Some (aabbs o !! a).
Proof.
  intros Htk Ha Hd. induction Hd as [|m k i Hd IH Hi]; intros Hk; [exact Hk|].
  apply IH. pose proof (descAt_interval _ _ _ Hd) as Hint.
  pose proof (pow8_pos m) as Hp.
  assert (0 < k) by nia.
  rewrite <- (div8_child k i Hi). apply (tk_parent o Htk); [exact Hk|lia].
Qed.

Lemma traverse_tree o : treeKeys o ->
  forall fuel c j, atDepth j c -> (j <= 9)%nat -> (10 <= fuel + j)%nat ->
  exists vs, traverse fuel o c = Some vs
    /\ List.NoDup (visited vs)
    /\ (forall k, In k (visited vs)
                  <-> is_Some (aabbs o !! k) /\ exists m, descAt c (S m) k)
    /\ Forall (visitOk o) vs.
Proof.
  intros Htk. induction fuel as [|fuel IH]; intros c j Hc Hj Hfuel; [lia|].
  pose proof (atDepth_lt28 j c Hc Hj) as Hc28.
  simpl. rewrite forOctants_fold.
  match goal with |- context [fold_left ?f _ _] => set (body := f) end.
  assert (Hloop : forall l vs0,
    (forall i, In i l -> 0 <= i < 8) -> List.NoDup l ->
    exists vs, fold_left body l (Some vs0) = Some (vs0 ++ vs)
      /\ List.NoDup (visited vs)
      /\ (forall k, In k (visited vs)
            <-> is_Some (aabbs o !! k)
                /\ exists i m, In i l /\ descAt (8 * c + i) m k)
      /\ Forall (visitOk o) vs).
  { induction l as [|i l IHl]; intros vs0 Hr Hnd; cbn [fold_left].
    - exists []. rewrite app_nil_r. split; [reflexivity|].
      split; [constructor|]. split; [|constructor].
      intros k. simpl. split; [tauto|]. intros (_ & i & m & [] & _).
    - assert (Hi : 0 <= i < 8) by (apply Hr; left; reflexivity).
      inversion Hnd as [|? ? Hni Hnd']; subst.
      specialize (IHl) as IHl0.
      unfold body at 2. rewrite (childCode_small c i) by lia.
      destruct (aabbs o !! (8 * c + i)) as [b|] eqn:Hb.
      + (* the child exists: it is visited, then its subtree *)
        assert (Hj8 : (S j <= 9)%nat).
        { destruct (tk_depth o Htk (8 * c + i)) as (j' & Hj' & Hat);
            [rewrite Hb; eauto|].
          pose proof (atDepth_inj _ _ _ Hat (atDepth_child _ _ _ Hc Hi)). lia. }
        destruct (IH (8 * c + i) (S j) (atDepth_child _ _ _ Hc Hi) Hj8)
          as (sub & Hsub & Hsnd & Hsin & Hsok); [lia|].
        rewrite Hsub.
        destruct (IHl0 (vs0 ++ mkVisit (points o !! (8 * c + i)) b (8 * c + i) :: sub)
                    (fun i' H => Hr i' (or_intror H)) Hnd')
          as (vs & Hfold & Hvnd & Hvin & Hvok).
        exists (mkVisit (points o !! (8 * c + i)) b (8 * c + i) :: sub ++ vs).
        split; [rewrite Hfold, <- app_assoc; reflexivity|].
        assert (Hother : forall k, In k (visited vs) ->
                  forall m, descAt (8 * c + i) m k -> False).
        { intros k Hk m Hdm. apply Hvin in Hk.
          destruct Hk as (_ & i' & m' & Hi' & Hdm').
          assert (i = i')
            by exact (sibling_disjoint j c i i' _ _ _ Hc Hi
                        (Hr i' (or_intror Hi')) Hdm Hdm').
          subst i'. contradiction. }
        split; [|split].
        * unfold visited in *. simpl. rewrite map_app. constructor.
          -- intros Hin. apply in_app_or in Hin. destruct Hin as [Hin|Hin].
             ++ apply Hsin in Hin. destruct Hin as (_ & m & Hdm).
                pose proof (descAt_atDepth _ _ _ _ Hdm (atDepth_child _ _ _ Hc Hi)) as H1.
                pose proof (atDepth_inj _ _ _ H1 (atDepth_child _ _ _ Hc Hi)). lia.
             ++ exact (Hother _ Hin 0%nat (descAt_O _)).
          -- apply List.NoDup_app; [exact Hsnd|exact Hvnd|].
             intros k H1 H2. apply Hsin in H1. destruct H1 as (_ & m & Hdm).
             exact (Hother _ H2 _ Hdm).
        * intros k. unfold visited in *. simpl. rewrite map_app, in_app_iff.
          rewrite Hsin, Hvin. split.
          -- intros [<-|[(Hk & m & Hdm)|(Hk & i' & m & Hi' & Hdm)]].
             ++ split; [rewrite Hb; eauto|].
                exists i, 0%nat. split; [left; reflexivity|apply descAt_O].
             ++ split; [exact Hk|]. exists i, (S m). split; [left|]; auto.
             ++ split; [exact Hk|]. exists i', m. split; [right|]; auto.
          -- intros (Hk & i' & m & [<-|Hi'] & Hdm).
             ++ destruct m as [|m]; [inversion Hdm; left; reflexivity|].
                right. left. eauto.
             ++ right. right. eauto 6.
        * constructor; [split; simpl; [reflexivity|exact Hb]|].
          apply Forall_app. split; assumption.
      + (* no such child *)
        destruct (IHl0 vs0 (fun i' H => Hr i' (or_intror H)) Hnd')
          as (vs & Hfold & Hvnd & Hvin & Hvok).
        exists vs. split; [exact Hfold|]. split; [exact Hvnd|].
        split; [|exact Hvok].
        intros k. rewrite Hvin. split.
        * intros (Hk & i' & m & Hi' & Hdm). split; [exact Hk|].
          exists i', m. split; [right|]; auto.
        * intros (Hk & i' & m & [<-|Hi'] & Hdm); [|eauto 6].
          exfalso.
          assert (Hsome : is_Some (aabbs o !! (8 * c + i)))
            by (apply (treeKeys_ancestor o _ m k Htk); [lia|exact Hdm|exact Hk]).
          rewrite Hb in Hsome. destruct Hsome; discriminate. }
  destruct (Hloop octants [] (fun i H => proj1 (octants_range i) H) octants_NoDup)
    as (vs & Hfold & Hnd & Hin & Hok).
  exists vs. split; [exact Hfold|]. split; [exact Hnd|]. split; [|exact Hok].
  intros k. rewrite Hin. split.
  - intros (Hk & i & m & Hi & Hdm). split; [exact Hk|].
    exists m. apply (descAt_lift c i); [apply octants_range; exact Hi|exact Hdm].
  - intros (Hk & m & Hdm). split; [exact Hk|].
    destruct (descAt_split c m k Hdm) as (i & Hi & Hdi).
    exists i, m. split; [apply octants_range; exact Hi|exact Hdi].
Qed.


Lemma built_treeKeys fuel t d idx vertices box o :
  (d <= 9)%nat ->
  build fuel (emptyOctree t d) idx vertices box 1 = Some o ->
  treeKeys o
  /\ forall k, is_Some (aabbs o !! k) -> k = 1 \/ exists m, descAt 1 (S m) k.
Proof.
  intros Hd Hb.
  destruct (build_root_structure fuel t d idx vertices box o ltac:(lia) Hb)
    as (ns & HB & -> & _ & Hst).
  destruct Hst as [Sdesc Sdepth Snodup Sparent Sint Sleaf].
  rewrite List.Forall_forall in Sdesc, Sdepth.
  split; [constructor|].
  - intros k Hk. apply key_written in Hk. destruct Hk as (n & Hn & <- & _).
    destruct (Sdepth n Hn) as (j & Hj & Hat). exists j. split; [lia|exact Hat].
  - intros k Hk Hne. apply key_written in Hk. destruct Hk as (n & Hn & <- & _).
    apply code_is_key. apply Sparent; assumption.
  - intros k Hk. apply key_written in Hk. destruct Hk as (n & Hn & <- & _).
    destruct (Sdesc n Hn) as ([|m] & Hdm); [left; inversion Hdm; reflexivity|].
    right. eauto.
Qed.


(** ** Ray search (C7) *)


(** ** k nearest neighbours (C5) *)

Section KNNFacts.

Variable radixSort : list (option Q) -> sortResult.

Lemma consume_length k pd sorted bound js : forall st,
  length (indices (consume k pd sorted bound js st)) = length (indices st).
Proof.
  induction js as [|j js IH]; intros st; simpl; [reflexivity|].
  destruct (indexCount st <? k)%nat; [|reflexivity].
  destruct (gtOpt _ bound); [reflexivity|].
  rewrite IH. simpl. apply length_insert.
Qed.

Lemma cellLoop_length o k x y z positions cells sortedCells cellIdx :
  forall pd st res,
    cellLoop radixSort o k x y z positions cells sortedCells cellIdx pd st
    = Returns res ->
    length res = length (indices st).
Proof.
  induction cellIdx as [|i cellIdx IH]; intros pd st res H; simpl in H.
  - inversion H. reflexivity.
  - destruct (pointDistancesSq o x y z _ positions) as [newPd| |];
      simpl in H; try discriminate.
    match type of H with
    | context [enough k positions ?s] => destruct (enough k positions s) eqn:E
    end.
    + inversion H. apply consume_length.
    + apply IH in H. rewrite H. apply consume_length.
Qed.

End KNNFacts.

Lemma insertSorted_perm x l : Permutation (insertSorted x l) (x :: l).
Proof.
  induction l as [|y l IH]; simpl; [reflexivity|].
  destruct (keyLe (fst y) (fst x)); [|reflexivity].
  rewrite IH. apply perm_swap.
Qed.

Lemma sortPairs_perm l :
  Permutation (sortPairs l) (combine l (seq 0 (length l))).
Proof.
  unfold sortPairs. generalize (combine l (seq 0 (length l))) as ps.
  intros ps. rewrite <- (app_nil_r ps) at 2.
  generalize (@nil (option Q * nat)) as acc.
  induction ps as [|x ps IH]; intros acc; simpl; [reflexivity|].
  rewrite IH, insertSorted_perm. symmetry. apply Permutation_middle.
Qed.

Lemma radixSortModel_ok : sortOk radixSortModel.
Proof.
  intros l. unfold radixSortModel. simpl.
  pose proof (sortPairs_perm l) as Hp.
  assert (Hlen : length (sortPairs l) = length l).
  { rewrite (Permutation_length Hp), length_combine, length_seq. lia. }
  rewrite !length_map. split; [exact Hlen|]. split; [exact Hlen|].
  apply List.Forall_forall. intros s Hs. apply in_map_iff in Hs.
  destruct Hs as ([q s'] & <- & Hin). simpl.
  apply (Permutation_in _ Hp) in Hin. apply in_combine_r in Hin.
  apply in_seq in Hin. lia.
Qed.

Lemma cellDistanceList_total o x y z cs :
  Forall (fun c => is_Some (aabbs o !! c)) cs ->
  exists ds, cellDistanceList o x y z cs = Returns ds /\ length ds = length cs.
Proof.
  induction 1 as [|c cs [b Hb] _ (ds & IH & Hlen)]; simpl; [eauto|].
  rewrite Hb, IH. simpl. eexists. split; [reflexivity|]. simpl. lia.
Qed.

Lemma cellLoop_total radixSort o k x y z positions cells sortedCells cellIdx :
  (forall i, In i cellIdx ->
     exists c l, s_indices sortedCells !! i ≫= (fun s => cd_locCodes cells !! s)
                 = Some c /\ points o !! c = Some (Some l)) ->
  forall pd st, exists res,
    cellLoop radixSort o k x y z positions cells sortedCells cellIdx pd st
    = Returns res.
Proof.
  induction cellIdx as [|i cellIdx IH]; intros Hcells pd st; simpl; [eauto|].
  destruct (Hcells i (or_introl eq_refl)) as (c & l & -> & Hl).
  unfold pointDistancesSq. simpl. rewrite Hl. simpl.
  match goal with
  | |- context [enough k positions ?s] => destruct (enough k positions s)
  end; [eauto|].
  apply IH. intros i' Hi'. apply Hcells. right. exact Hi'.
Qed.

(** C5 (amended). Whenever [kNearestNeighbours] returns, the array it
    returns has exactly k+1 entries, whatever the number of indexed points.
    It returns, with fuel 10 or more, when the query is given by
    coordinates and the code of a leaf, on an octree built from the root
    with a depth cap of at most 9, with a sort that yields arrays of the
    input's length. *)
Theorem kNearestNeighbours_length
    (radixSort : list (option Q) -> sortResult) (o : Octree) (k : nat)
    (positions : list Q) :
  (forall fuel point locCode res,
     kNearestNeighbours radixSort fuel o k point locCode positions = Returns res ->
     length res = S k)
  /\ (forall fuel0 t d idx vertices box fuel x y z c l,
        sortOk radixSort -> (d <= 9)%nat ->
        build fuel0 (emptyOctree t d) idx vertices box 1 = Some o ->
        points o !! c = Some (Some l) -> (10 <= fuel)%nat ->
        exists res,
          kNearestNeighbours radixSort fuel o k (PointCoords x y z) (Some c)
                             positions = Returns res).
Proof.
  split.
  - intros fuel point locCode res H. unfold kNearestNeighbours in H.
    destruct point as [i|x y z]; [discriminate|].
    match type of H with
    | andThen ?m _ = _ => destruct m as [code| |]; simpl in H; try discriminate
    end.
    destruct (getCellDistancesToPoint fuel o x y z code) as [cells| |];
      simpl in H; try discriminate.
    destruct (pointDistancesSq o x y z (Some code) positions) as [pd| |];
      simpl in H; try discriminate.
    match type of H with
    | context [Nat.eqb (indexCount ?s) (S k)] =>
        destruct (Nat.eqb (indexCount s) (S k))
    end.
    + inversion H. rewrite consume_length. simpl. rewrite length_replicate.
      reflexivity.
    + apply cellLoop_length in H. rewrite H, consume_length. simpl.
      rewrite length_replicate. reflexivity.
  - intros fuel0 t d idx vertices box fuel x y z c l Hsort Hd Hb Hl Hfuel.
    destruct (built_treeKeys fuel0 t d idx vertices box o Hd Hb) as [Htk _].
    destruct (traverse_tree o Htk fuel 1 0%nat atDepth_root)
      as (vs & Htr & _ & _ & Hok); [lia|lia|].
    unfold kNearestNeighbours, getCellDistancesToPoint. simpl andThen.
    rewrite Htr.
    set (cs := map v_code (List.filter (isOtherCell c) vs)).
    assert (Hcs : Forall (fun c' => exists l', points o !! c' = Some (Some l')
                                               /\ is_Some (aabbs o !! c')) cs).
    { apply List.Forall_forall. intros c' Hc'. apply in_map_iff in Hc'.
      destruct Hc' as (v & <- & Hv). apply filter_In in Hv.
      destruct Hv as [Hv Hother]. rewrite List.Forall_forall in Hok.
      destruct (Hok v Hv) as [Hpts Hbox]. unfold isOtherCell in Hother.
      rewrite <- Hpts, Hbox.
      destruct (v_points v) as [[l'|]|]; try discriminate. eauto. }
    destruct (cellDistanceList_total o x y z cs) as (ds & -> & Hds).
    { eapply List.Forall_impl; [|exact Hcs]. intros c' (l' & _ & H). exact H. }
    simpl andThen. unfold pointDistancesSq at 1. simpl. rewrite Hl. simpl.
    match goal with
    | |- context [Nat.eqb (indexCount ?s) (S k)] =>
        destruct (Nat.eqb (indexCount s) (S k))
    end; [eauto|].
    apply cellLoop_total. intros i Hi. apply in_seq in Hi. simpl.
    destruct (Hsort ds) as (Harr & Hidx & Hrange).
    rewrite Harr in Hi.
    destruct (lookup_lt_is_Some_2 (s_indices (radixSort ds)) i) as [s Hs];
      [lia|].
    rewrite Hs. simpl.
    rewrite List.Forall_forall in Hrange.
    assert (Hslt : (s < length ds)%nat).
    { apply Hrange. apply list_elem_of_In. eapply list_elem_of_lookup_2. exact Hs. }
    destruct (lookup_lt_is_Some_2 cs s) as [c' Hc']; [lia|].
    rewrite Hc'. rewrite List.Forall_forall in Hcs.
    destruct (Hcs c') as (l' & Hl' & _);
      [apply list_elem_of_In; eapply list_elem_of_lookup_2; exact Hc'|].
    eauto.
Qed.

(** ** The result of a build does not depend on the fuel *)

Lemma Built_functional t d vertices idx box c ns :
  Built t d vertices idx box c ns ->
  forall ns', Built t d vertices idx box c ns' -> ns = ns'.
Proof.
  revert idx box c ns.
  apply (Built_mut t d vertices
    (fun idx box c ns => forall ns', Built t d vertices idx box c ns' -> ns = ns')
    (fun idx box c l subs =>
       forall subs', BuiltChildren t d vertices idx box c l subs' -> subs = subs')).
  - intros idx box c Hterm ns' H'. inversion H'; subst; [reflexivity|congruence].
  - intros idx box c subs Hterm _ IH ns' H'.
    inversion H' as [|? ? ? subs' Hterm' Hch]; subst; [congruence|].
    f_equal. apply IH. exact Hch.
  - intros idx box c subs' H'. inversion H'. reflexivity.
  - intros idx box c i rest subs Hz _ IH subs' H'.
    inversion H'; subst; [apply IH; assumption|contradiction].
  - intros idx box c i rest ns subs Hnz _ IHn _ IHs subs' H'.
    inversion H' as [| |? ? ? ? ? ns2 subs2 Hnz' Hb2 Hc2]; subst;
      [contradiction|].
    f_equal; [apply IHn|apply IHs]; assumption.
Qed.

Lemma build_deterministic fuel1 fuel2 o idx vertices box c o1 o2 :
  build fuel1 o idx vertices box c = Some o1 ->
  build fuel2 o idx vertices box c = Some o2 -> o1 = o2.
Proof.
  intros H1 H2. apply build_Built in H1, H2.
  destruct H1 as (ns1 & HB1 & ->), H2 as (ns2 & HB2 & ->).
  rewrite (Built_functional _ _ _ _ _ _ _ HB1 _ HB2). reflexivity.
Qed.

Lemma getClosestBox_deterministic o point thr : forall fuel1 fuel2 c r1 r2,
  getClosestBox fuel1 o point thr c = Some r1 ->
  getClosestBox fuel2 o point thr c = Some r2 -> r1 = r2.
Proof.
  induction fuel1 as [|fuel1 IH]; intros [|fuel2] c r1 r2 H1 H2;
    try discriminate.
  simpl in H1, H2.
  destruct (fst (closestChild _ o thr c) <? 0).
  - congruence.
  - exact (IH _ _ _ _ H1 H2).
Qed.

(** ** Worked examples (C2, C4) and refutations *)

Lemma spec_build :
  exists o, build 5 (Octree_new 2 4) specIndices specVertices specRoot 1 = Some o
    /\ points o = list_to_map
         [(1, None); (15, None); (120, None); (127, Some [4%N]); (960, None);
          (7680, Some [0%N]); (7681, Some [1%N]); (7682, Some [2%N]);
          (7684, Some [3%N])]
    /\ (exists b, getClosestBox 5 o origin 0 1 = Some (Some b)
                  /\ getLocCode b = 7680)
    /\ is_Some (aabbs o !! 7680).
Proof.
  eexists. split; [vm_compute; reflexivity|].
  split; [vm_compute; reflexivity|].
  split; [eexists; split; vm_compute; reflexivity|].
  vm_compute. eexists. reflexivity.
Qed.

(** C2 (amended). On the example of the specification, [build] returns;
    the root is subdivided with all five points in its octant 7 (node 15,
    internal); node 15 separates the outlier into the leaf 127 and the four
    clustered points into node 120, which is subdivided twice more (node 960,
    then the leaves 7680, 7681, 7682 and 7684 of one point each);
    [getClosestBox] for the origin and threshold 0 returns the box of leaf
    7680, which holds the point at the origin only and is not the outlier's
    leaf. *)
Theorem spec_example :
  (exists o,
     build 5 (Octree_new 2 4) specIndices specVertices specRoot 1 = Some o)
  /\ (forall fuel o,
        build fuel (Octree_new 2 4) specIndices specVertices specRoot 1 = Some o ->
        points o = list_to_map
          [(1, None); (15, None); (120, None); (127, Some [4%N]); (960, None);
           (7680, Some [0%N]); (7681, Some [1%N]); (7682, Some [2%N]);
           (7684, Some [3%N])]
        /\ (exists b, getClosestBox 5 o origin 0 1 = Some (Some b))
        /\ (forall fuel' r,
              getClosestBox fuel' o origin 0 1 = Some r ->
              exists b, r = Some b /\ getLocCode b = 7680)).
Proof.
  destruct spec_build as (o0 & Hb0 & Hpts & (b & Hgc & Hcode) & _).
  split; [eauto|].
  intros fuel o Hb.
  assert (o = o0) by exact (build_deterministic _ _ _ _ _ _ _ _ _ Hb Hb0).
  subst o. split; [exact Hpts|]. split; [eauto|].
  intros fuel' r Hr.
  rewrite (getClosestBox_deterministic _ _ _ _ _ _ _ _ Hr Hgc). eauto.
Qed.

Lemma spec_example_witness :
  exists o,
    build 5 (Octree_new 2 4) specIndices specVertices specRoot 1 = Some o
    /\ points o !! 7680 = Some (Some [0%N]).
Proof.
  destruct (proj1 spec_example) as (o & Hb).
  exists o. split; [exact Hb|].
  destruct (proj2 spec_example 5%nat o Hb) as (Hpts & _).
  rewrite Hpts. vm_compute. reflexivity.
Defined.

Lemma spec_example_not_as_worded : ~ specExampleClaim.
Proof.
  intros Hclaim.
  destruct spec_build as (o0 & Hb0 & Hpts & (b & Hgc & Hcode) & _).
  destruct (Hclaim _ _ Hb0) as (_ & _ & Hclosest).
  destruct (Hclosest _ _ Hgc) as (b' & l & [= <-] & Hl & Hin).
  rewrite Hcode, Hpts in Hl. vm_compute in Hl.
  injection Hl as <-.
  specialize (Hin 1%N ltac:(simpl; auto)).
  destruct Hin as [Hin|[]]. discriminate.
Qed.

Lemma pair_build :
  exists o, build 3 (Octree_new 1 4) pairIndices pairVertices specRoot 1 = Some o
    /\ points o = list_to_map
         [(1, None); (15, None); (120, Some [0%N]); (127, Some [1%N])]
    /\ (exists b, getClosestBoxFromCenter 3 o pairQuery 0 1 = Some (Some b)
                  /\ getLocCode b = 120)
    /\ (exists b, getClosestBoxFromCenter_spec 3 o pairQuery 0 1 = Some (Some b)
                  /\ getLocCode b = 127)
    /\ kNearestNeighbours radixSortModel 10 o 3 (PointCoords 1 1 1) None
                          pairVertices = Returns [0; 1; 0; 0]%N
    /\ (exists vs, traverse 3 o 1 = Some vs /\ visited vs = [15; 120; 127])
    /\ is_Some (aabbs o !! 1).
Proof.
  eexists. split; [vm_compute; reflexivity|].
  split; [vm_compute; reflexivity|].
  split; [eexists; split; vm_compute; reflexivity|].
  split; [eexists; split; vm_compute; reflexivity|].
  split; [vm_compute; reflexivity|].
  split; [eexists; split; vm_compute; reflexivity|].
  vm_compute. eexists. reflexivity.
Qed.

(** C4 (the code departs from the claim). On the octree built from two
    points in opposite corners of octant 7, [getClosestBoxFromCenter] returns
    the box 120: below the first level it descends by the distance to the
    box surface. The descent by the distance to the box center, at every
    level, returns the box 127. *)
Theorem getClosestBoxFromCenter_below_first_level :
  exists o b b',
    build 3 (Octree_new 1 4) pairIndices pairVertices specRoot 1 = Some o
    /\ getClosestBoxFromCenter 3 o pairQuery 0 1 = Some (Some b)
    /\ getClosestBoxFromCenter_spec 3 o pairQuery 0 1 = Some (Some b')
    /\ getLocCode b = 120 /\ getLocCode b' = 127.
Proof.
  destruct pair_build as (o & Hb & _ & (b & Hc & Hbc) & (b' & Hs & Hbs) & _).
  exists o, b, b'. auto.
Qed.

(** Refutation of C5 as worded: with two indexed points and k = 3 the
    returned array has 4 entries, two of them padding, not min(4, 2) = 2. *)
Lemma kNearestNeighbours_pads :
  ~ (forall fuel0 o fuel k point locCode res,
       build fuel0 (Octree_new 1 4) pairIndices pairVertices specRoot 1 = Some o ->
       kNearestNeighbours radixSortModel fuel o k point locCode pairVertices
       = Returns res ->
       length res = Nat.min (S k) (length pairIndices)).
Proof.
  intros Hclaim.
  destruct pair_build as (o & Hb & _ & _ & _ & Hknn & _).
  specialize (Hclaim _ _ _ _ _ _ _ Hb Hknn). simpl in Hclaim. discriminate.
Qed.

Lemma kNearestNeighbours_length_witness :
  exists o res,
    build 3 (Octree_new 1 4) pairIndices pairVertices specRoot 1 = Some o
    /\ kNearestNeighbours radixSortModel 10 o 3 (PointCoords 1 1 1) None
                          pairVertices = Returns res
    /\ length res = 4%nat
    /\ exists res',
         kNearestNeighbours radixSortModel 10 o 3 (PointCoords 1 1 1) (Some 120)
                            pairVertices = Returns res'.
Proof.
  destruct pair_build as (o & Hb & Hpts & _ & _ & Hknn & _).
  exists o, [0; 1; 0; 0]%N. split; [exact Hb|]. split; [exact Hknn|].
  split.
  - exact (proj1 (kNearestNeighbours_length radixSortModel o 3 pairVertices)
             10%nat (PointCoords 1 1 1) None _ Hknn).
  - apply (proj2 (kNearestNeighbours_length radixSortModel o 3 pairVertices)
             3%nat 1%nat 4%nat pairIndices pairVertices specRoot 10%nat
             1%Q 1%Q 1%Q 120 [0%N]).
    + exact radixSortModel_ok.
    + lia.
    + exact Hb.
    + rewrite Hpts. vm_compute. reflexivity.
    + lia.
Defined.

(** Refutation of C6 as worded: the root of a subdivided tree is a key of
    [points] whose value is [null]. *)
Lemma points_entry_null :
  ~ (forall fuel o,
       build fuel (Octree_new 1 4) pairIndices pairVertices specRoot 1 = Some o ->
       forall k, is_Some (points o !! k) ->
                 exists l, points o !! k = Some (Some l)).
Proof.
  intros Hclaim.
  destruct pair_build as (o & Hb & Hpts & _).
  destruct (Hclaim _ _ Hb 1) as (l & Hl).
  - rewrite Hpts. vm_compute. eauto.
  - rewrite Hpts in Hl. vm_compute in Hl. discriminate.
Qed.

Lemma build_points_entries_witness :
  (4 <= 10)%nat
  /\ exists o,
       build 5 (emptyOctree 1 4) pairIndices pairVertices specRoot 1 = Some o
       /\ (points o !! 1 = Some None
           <-> exists i, 0 <= i < 8 /\ In (8 * 1 + i) (getLocCodes o)).
Proof.
  assert (Hd : (4 <= 10)%nat) by lia.
  split; [exact Hd|].
  destruct (build_points_entries 1 4 pairIndices pairVertices specRoot Hd)
    as ((o & Hb) & Hall).
  exists o. split; [exact Hb|].
  destruct (Hall _ _ Hb 1) as (Hkeys & Hnull).
  apply Hnull. apply Hkeys.
  destruct pair_build as (o' & Hb' & Hpts & _).
  rewrite (build_deterministic _ _ _ _ _ _ _ _ _ Hb Hb'), Hpts.
  vm_compute. eauto.
Defined.

(** *** Codes that overflow 32 bits: a depth cap of 11 *)

Lemma deep_build :
  exists o,
    build 12 (Octree_new 1 11) deepIndices deepVertices deepRoot 1 = Some o
    /\ leafPoints o = [3; 2]%N
    /\ is_Some (aabbs o !! 0)
    /\ points o !! 0 = Some (Some [2%N])
    /\ points o !! 4 = Some (Some [3%N]).
Proof.
  eexists. split; [vm_compute; reflexivity|].
  split; [vm_compute; reflexivity|].
  split; [vm_compute; eauto|].
  split; vm_compute; reflexivity.
Qed.

(** Refutation of C1 as worded: with a depth cap of 11 the codes of depth 11
    lose their sentinel bit; the leaves of the pair in octant 4 of the root
    overwrite those of the pair in octant 0, whose indices are lost. *)
Lemma build_loses_points_at_depth_11 :
  ~ (forall fuel o,
       build fuel (Octree_new 1 11) deepIndices deepVertices deepRoot 1 = Some o ->
       Permutation (leafPoints o) deepIndices).
Proof.
  intros Hclaim.
  destruct deep_build as (o & Hb & Hleaves & _).
  specialize (Hclaim _ _ Hb). rewrite Hleaves in Hclaim.
  apply Permutation_length in Hclaim. clear Hb. discriminate.
Qed.

Lemma build_leaf_points_witness :
  (4 <= 10)%nat
  /\ (exists o,
        build 5 (emptyOctree 2 4) specIndices specVertices specRoot 1 = Some o)
  /\ (forall fuel o,
        build fuel (emptyOctree 2 4) specIndices specVertices specRoot 1 = Some o ->
        Permutation (leafPoints o) specIndices).
Proof.
  assert (Hd : (4 <= 10)%nat) by lia.
  split; [exact Hd|].
  exact (build_leaf_points 2 4 specIndices specVertices specRoot Hd).
Defined.

Lemma getParent_iter_0 n : Nat.iter n getParent 0 = 0.
Proof. induction n as [|n IH]; simpl; [|rewrite IH]; reflexivity. Qed.

(** Refutation of C10 as worded: with a depth cap of 11 the code 0 is a key
    of the box map, and its parent is 0 again: the root is never reached. *)
Lemma build_orphan_at_depth_11 :
  ~ (forall fuel o,
       build fuel (Octree_new 1 11) deepIndices deepVertices deepRoot 1 = Some o ->
       forall k, In k (getLocCodes o) ->
         (k <> 1 -> In (getParent k) (getLocCodes o))
         /\ exists n, Nat.iter n getParent k = 1).
Proof.
  intros Hclaim.
  destruct deep_build as (o & Hb & _ & Hkey & _).
  destruct (Hclaim _ _ Hb 0) as (_ & n & Hn).
  - apply in_getLocCodes. exact Hkey.
  - rewrite getParent_iter_0 in Hn. clear Hb Hclaim. discriminate.
Qed.

Lemma build_ancestor_closed_witness :
  (4 <= 10)%nat
  /\ (exists o,
        build 5 (emptyOctree 2 4) specIndices specVertices specRoot 1 = Some o)
  /\ (forall fuel o,
        build fuel (emptyOctree 2 4) specIndices specVertices specRoot 1 = Some o ->
        In 1 (getLocCodes o)
        /\ forall k, In k (getLocCodes o) ->
             (k <> 1 -> In (getParent k) (getLocCodes o))
             /\ exists n, Nat.iter n getParent k = 1).
Proof.
  assert (Hd : (4 <= 10)%nat) by lia.
  split; [exact Hd|].
  exact (build_ancestor_closed 2 4 specIndices specVertices specRoot Hd).
Defined.


(** *** The root is not visited; codes of depth 10 alias in [traverse] *)


Lemma traverse_stuck o c i b fuel :
  In i octants -> aabbs o !! childCode c i = Some b ->
  traverse fuel o (childCode c i) = None ->
  traverse (S fuel) o c = None.
Proof.
  intros Hi Hb Hnone. simpl. rewrite forOctants_fold.
  match goal with |- context [fold_left ?f _ _] => set (body := f) end.
  assert (Hbody : forall vs, body (Some vs) i = None).
  { intros vs. unfold body. rewrite Hb, Hnone. reflexivity. }
  assert (Hnone' : forall l, fold_left body l None = None).
  { induction l as [|i' l IHl]; simpl; auto. }
  generalize (Some (@nil visit)) as acc. revert Hi.
  induction octants as [|i' l IHl]; intros Hi acc; [destruct Hi|].
  simpl. destruct Hi as [->|Hi].
  - destruct acc as [vs|]; [rewrite Hbody|]; apply Hnone'.
  - apply IHl. exact Hi.
Qed.

Lemma loopTree_traverse :
  build 11 (Octree_new 1 10) loopIndices loopVertices deepRoot 1 = Some loopTree
  /\ forall fuel, traverse fuel loopTree 1 = None.
Proof.
  split; [vm_compute; reflexivity|].
  assert (H10 : forall fuel, traverse fuel loopTree 1227133513 = None).
  { induction fuel as [|fuel IH]; [reflexivity|].
    eapply (traverse_stuck loopTree 1227133513 1);
      [simpl; tauto|vm_compute; reflexivity|exact IH]. }
  assert (Hup : forall c c', childCode c 1 = c' ->
            is_Some (aabbs loopTree !! c') ->
            (forall fuel, traverse fuel loopTree c' = None) ->
            forall fuel, traverse fuel loopTree c = None).
  { intros c c' <- [b Hb] Hc' [|fuel]; [reflexivity|].
    eapply (traverse_stuck loopTree c 1); [simpl; tauto|exact Hb|apply Hc']. }
  assert (Hkey : forall c, In c [9; 73; 585; 4681; 37449; 299593; 2396745;
                                  19173961; 153391689; 1227133513] ->
                           is_Some (aabbs loopTree !! c)).
  { intros c Hc. simpl in Hc.
    repeat (destruct Hc as [<-|Hc]; [vm_compute; eauto|]). destruct Hc. }
  apply (Hup 1 9); [reflexivity|apply Hkey; simpl; tauto|].
  apply (Hup 9 73); [reflexivity|apply Hkey; simpl; tauto|].
  apply (Hup 73 585); [reflexivity|apply Hkey; simpl; tauto|].
  apply (Hup 585 4681); [reflexivity|apply Hkey; simpl; tauto|].
  apply (Hup 4681 37449); [reflexivity|apply Hkey; simpl; tauto|].
  apply (Hup 37449 299593); [reflexivity|apply Hkey; simpl; tauto|].
  apply (Hup 299593 2396745); [reflexivity|apply Hkey; simpl; tauto|].
  apply (Hup 2396745 19173961); [reflexivity|apply Hkey; simpl; tauto|].
  apply (Hup 19173961 153391689); [reflexivity|apply Hkey; simpl; tauto|].
  apply (Hup 153391689 1227133513); [reflexivity|apply Hkey; simpl; tauto|].
  exact H10.
Qed.


(** X5. With a depth cap of 10 the code 1227133513 of depth 10 (octant 1 at
    every level) is its own child under [locCode << 3 | 1]: [traverse] from
    the root does not return, whatever the fuel. *)
Theorem traverse_diverges_at_depth_10 :
  build 11 (Octree_new 1 10) loopIndices loopVertices deepRoot 1 = Some loopTree
  /\ forall fuel, traverse fuel loopTree 1 = None.
Proof. exact loopTree_traverse. Qed.

(** *** Ray search on a tree whose root is a leaf *)


(** ** Further properties of build *)

(** X1. For a depth cap of at most 10, [build] from the root returns with
    fuel [maxDepth + 1]. *)
Theorem build_terminates (t d : nat) (idx : list N) (vertices : list Q)
    (box : AABB) :
  (d <= 10)%nat ->
  exists o, build (S d) (emptyOctree t d) idx vertices box 1 = Some o.
Proof. apply build_root_total. Qed.

Lemma build_terminates_witness :
  (8 <= 10)%nat
  /\ exists o,
       build 9 (emptyOctree 500 8) specIndices specVertices specRoot 1 = Some o.
Proof.
  assert (Hd : (8 <= 10)%nat) by lia.
  split; [exact Hd|].
  exact (build_terminates 500 8 specIndices specVertices specRoot Hd).
Defined.

Lemma Built_nonempty t d vertices idx box c ns :
  Built t d vertices idx box c ns -> idx <> [] ->
  Forall (fun n => n_points n <> Some []) ns.
Proof.
  revert idx box c ns.
  apply (Built_mut t d vertices
    (fun idx box c ns => idx <> [] -> Forall (fun n => n_points n <> Some []) ns)
    (fun idx box c l subs => Forall (fun n => n_points n <> Some []) subs)).
  - intros idx box c _ Hne. constructor; [|constructor].
    simpl. intros [= E]. contradiction.
  - intros idx box c subs _ _ IH _. constructor; [discriminate|exact IH].
  - intros. constructor.
  - intros. assumption.
  - intros idx box c i rest ns subs Hcnt _ IHn _ IHs.
    apply Forall_app. split; [|exact IHs]. apply IHn.
    rewrite childPointCounts_nextPoints in Hcnt.
    intros E. rewrite E in Hcnt. simpl in Hcnt. contradiction.
Qed.

(** X2. Empty octants get no node: when the input holds at least one index,
    no leaf of a built octree is empty, whatever the depth cap. *)
Theorem build_leaves_nonempty (fuel t d : nat) (idx : list N)
    (vertices : list Q) (box : AABB) (o : Octree) :
  build fuel (emptyOctree t d) idx vertices box 1 = Some o ->
  idx <> [] ->
  forall k, points o !! k <> Some (Some []).
Proof.
  intros Hb Hne k Hk.
  apply build_Built in Hb. simpl in Hb. destruct Hb as (ns & HB & ->).
  pose proof (Built_nonempty _ _ _ _ _ _ _ HB Hne) as Hall.
  rewrite List.Forall_forall in Hall.
  destruct (writeNodes_lookup ns (emptyOctree t d) k)
    as [(_ & _ & Hp)|(n & Hn & _ & _ & Hp)]; rewrite Hp in Hk.
  - simpl in Hk. rewrite lookup_empty in Hk. discriminate.
  - injection Hk as Hk. exact (Hall n Hn Hk).
Qed.

Lemma build_leaves_nonempty_witness :
  exists o,
    build 5 (emptyOctree 2 4) specIndices specVertices specRoot 1 = Some o
    /\ forall k, points o !! k <> Some (Some []).
Proof.
  destruct (build_root_total 2 4 specIndices specVertices specRoot ltac:(lia))
    as (o & Hb).
  exists o. split; [exact Hb|].
  apply (build_leaves_nonempty 5 2 4 specIndices specVertices specRoot o Hb).
  discriminate.
Defined.






(** ** A closer look at the neighbour search *)

(** X4. With the two indexed points (1,1,1) and (7,7,7), k = 1 and the query
    (1,1,1), [kNearestNeighbours] returns [0, 0]: the first loop takes the
    only point of the query's cell without a break, [pointOffset] stays 0,
    and the second loop stores entry 0 again and counts it a second time. *)
Theorem kNearestNeighbours_counts_twice :
  exists o,
    build 3 (Octree_new 1 4) pairIndices pairVertices specRoot 1 = Some o
    /\ kNearestNeighbours radixSortModel 10 o 1 (PointCoords 1 1 1) None
                          pairVertices = Returns [0; 0]%N.
Proof.
  eexists. split; [vm_compute; reflexivity|].
  vm_compute. reflexivity.
Qed.

(** ** Pruned traversal *)

Lemma keptBelow_descAt o cond c k :
  keptBelow o cond c k -> exists m, descAt c (S m) k.
Proof.
  induction 1 as [i b Hi _ _|k i b _ (m & IH) Hi _ _].
  - exists 0%nat. apply descAt_S; [apply descAt_O|exact Hi].
  - exists (S m). apply descAt_S; assumption.
Qed.

Lemma keptBelow_lift o cond c i b k :
  0 <= i < 8 -> aabbs o !! (8 * c + i) = Some b -> cond b (8 * c + i) = true ->
  keptBelow o cond (8 * c + i) k -> keptBelow o cond c k.
Proof.
  intros Hi Hb Hc. induction 1 as [i' b' Hi' Hb' Hc'|k i' b' _ IH Hi' Hb' Hc'].
  - eapply kept_step; [eapply kept_child|..]; eassumption.
  - eapply kept_step; eassumption.
Qed.

Lemma keptBelow_split o cond c k :
  keptBelow o cond c k ->
  exists i b, 0 <= i < 8 /\ aabbs o !! (8 * c + i) = Some b
    /\ cond b (8 * c + i) = true
    /\ (k = 8 * c + i \/ keptBelow o cond (8 * c + i) k).
Proof.
  induction 1 as [i b Hi Hb Hc|k i' b' _ IH Hi' Hb' Hc'].
  - exists i, b. auto.
  - destruct IH as (i & b & Hi & Hb & Hc & [->|Hk]); exists i, b;
      repeat (split; [assumption|]); right.
    + eapply kept_child; eassumption.
    + eapply kept_step; eassumption.
Qed.

Lemma traverseIf_tree o cond : treeKeys o ->
  forall fuel c j, atDepth j c -> (j <= 9)%nat -> (10 <= fuel + j)%nat ->
  exists vs, traverseIf fuel o cond c = Some vs
    /\ List.NoDup (visited vs)
    /\ (forall k, In k (visited vs) <-> keptBelow o cond c k)
    /\ Forall (visitOk o) vs.
Proof.
  intros Htk. induction fuel as [|fuel IH]; intros c j Hc Hj Hfuel; [lia|].
  pose proof (atDepth_lt28 j c Hc Hj) as Hc28.
  simpl. rewrite forOctants_fold.
  match goal with |- context [fold_left ?f _ _] => set (body := f) end.
  assert (Hloop : forall l vs0,
    (forall i, In i l -> 0 <= i < 8) -> List.NoDup l ->
    exists vs, fold_left body l (Some vs0) = Some (vs0 ++ vs)
      /\ List.NoDup (visited vs)
      /\ (forall k, In k (visited vs)
            <-> exists i b, In i l /\ aabbs o !! (8 * c + i) = Some b
                  /\ cond b (8 * c + i) = true
                  /\ (k = 8 * c + i \/ keptBelow o cond (8 * c + i) k))
      /\ Forall (visitOk o) vs).
  { induction l as [|i l IHl]; intros vs0 Hr Hnd; cbn [fold_left].
    - exists []. rewrite app_nil_r. split; [reflexivity|].
      split; [constructor|]. split; [|constructor].
      intros k. simpl. split; [tauto|]. intros (i & b & [] & _).
    - assert (Hi : 0 <= i < 8) by (apply Hr; left; reflexivity).
      inversion Hnd as [|? ? Hni Hnd']; subst.
      pose proof (fun vs0 => IHl vs0 (fun i' H => Hr i' (or_intror H)) Hnd')
        as IHl0.
      assert (Hskip : forall vs,
                (forall b, aabbs o !! (8 * c + i) = Some b ->
                           cond b (8 * c + i) = false) ->
                (forall k, In k (visited vs)
                   <-> exists i' b, In i' l /\ aabbs o !! (8 * c + i') = Some b
                         /\ cond b (8 * c + i') = true
                         /\ (k = 8 * c + i' \/ keptBelow o cond (8 * c + i') k)) ->
                forall k, In k (visited vs)
                   <-> exists i' b, In i' (i :: l)
                         /\ aabbs o !! (8 * c + i') = Some b
                         /\ cond b (8 * c + i') = true
                         /\ (k = 8 * c + i' \/ keptBelow o cond (8 * c + i') k)).
      { intros vs Hno Hvin k. rewrite Hvin. split.
        - intros (i' & b & Hi' & H). exists i', b. split; [right|]; tauto.
        - intros (i' & b & [<-|Hi'] & Hb & Hcb & H).
          + rewrite (Hno b Hb) in Hcb. discriminate.
          + exists i', b. tauto. }
      unfold body at 2. rewrite (childCode_small c i) by lia.
      destruct (aabbs o !! (8 * c + i)) as [b|] eqn:Hb.
      + destruct (cond b (8 * c + i)) eqn:Hcond.
        * assert (Hj8 : (S j <= 9)%nat).
          { destruct (tk_depth o Htk (8 * c + i)) as (j' & Hj' & Hat);
              [rewrite Hb; eauto|].
            pose proof (atDepth_inj _ _ _ Hat (atDepth_child _ _ _ Hc Hi)). lia. }
          destruct (IH (8 * c + i) (S j) (atDepth_child _ _ _ Hc Hi) Hj8)
            as (sub & Hsub & Hsnd & Hsin & Hsok); [lia|].
          rewrite Hsub.
          destruct (IHl0 (vs0 ++ mkVisit (points o !! (8 * c + i)) b (8 * c + i)
                              :: sub))
            as (vs & Hfold & Hvnd & Hvin & Hvok).
          exists (mkVisit (points o !! (8 * c + i)) b (8 * c + i) :: sub ++ vs).
          split; [rewrite Hfold, <- app_assoc; reflexivity|].
          assert (Hother : forall k, In k (visited vs) ->
                    forall m, descAt (8 * c + i) m k -> False).
          { intros k Hk m Hdm. apply Hvin in Hk.
            destruct Hk as (i' & b' & Hi' & _ & _ & Hk).
            assert (Hd' : exists m', descAt (8 * c + i') m' k).
            { destruct Hk as [->|Hk]; [exists 0%nat; apply descAt_O|].
              destruct (keptBelow_descAt _ _ _ _ Hk) as (m' & Hm'). eauto. }
            destruct Hd' as (m' & Hdm').
            assert (i = i')
              by exact (sibling_disjoint j c i i' _ _ _ Hc Hi
                          (Hr i' (or_intror Hi')) Hdm Hdm').
            subst i'. contradiction. }
          split; [|split].
          -- unfold visited in *. simpl. rewrite map_app. constructor.
             ++ intros Hin. apply in_app_or in Hin. destruct Hin as [Hin|Hin].
                ** apply Hsin, keptBelow_descAt in Hin. destruct Hin as (m & Hdm).
                   pose proof (descAt_atDepth _ _ _ _ Hdm
                                 (atDepth_child _ _ _ Hc Hi)) as H1.
                   pose proof (atDepth_inj _ _ _ H1 (atDepth_child _ _ _ Hc Hi)).
                   lia.
                ** exact (Hother _ Hin 0%nat (descAt_O _)).
             ++ apply List.NoDup_app; [exact Hsnd|exact Hvnd|].
                intros k H1 H2. apply Hsin, keptBelow_descAt in H1.
                destruct H1 as (m & Hdm). exact (Hother _ H2 _ Hdm).
          -- intros k. unfold visited in *. simpl. rewrite map_app, in_app_iff.
             rewrite Hsin, Hvin. split.
             ++ intros [<-|[Hk|(i' & b' & Hi' & H)]].
                ** exists i, b. split; [left; reflexivity|]. auto.
                ** exists i, b. split; [left; reflexivity|]. auto.
                ** exists i', b'. split; [right|]; tauto.
             ++ intros (i' & b' & [<-|Hi'] & Hb' & Hcb & [->|Hk]).
                ** left. reflexivity.
                ** right. left. exact Hk.
                ** right. right. exists i', b'. auto.
                ** right. right. exists i', b'. auto.
          -- constructor; [split; simpl; [reflexivity|exact Hb]|].
             apply Forall_app. split; assumption.
        * destruct (IHl0 vs0) as (vs & Hfold & Hvnd & Hvin & Hvok).
          exists vs. split; [exact Hfold|]. split; [exact Hvnd|].
          split; [|exact Hvok].
          apply Hskip; [|exact Hvin]. intros b' [= <-]. exact Hcond.
      + destruct (IHl0 vs0) as (vs & Hfold & Hvnd & Hvin & Hvok).
        exists vs. split; [exact Hfold|]. split; [exact Hvnd|].
        split; [|exact Hvok].
        apply Hskip; [|exact Hvin]. intros b' [=]. }
  destruct (Hloop octants [] (fun i H => proj1 (octants_range i) H) octants_NoDup)
    as (vs & Hfold & Hnd & Hin & Hok).
  exists vs. split; [exact Hfold|]. split; [exact Hnd|]. split; [|exact Hok].
  intros k. rewrite Hin. split.
  - intros (i & b & Hi & Hb & Hcb & [->|Hk]).
    + eapply kept_child; [apply octants_range| |]; eassumption.
    + eapply keptBelow_lift; [apply octants_range| | |]; eassumption.
  - intros Hk. destruct (keptBelow_split _ _ _ _ Hk) as (i & b & Hi & H).
    exists i, b. split; [apply octants_range; exact Hi|exact H].
Qed.

(** X6. On an octree built from the root with a depth cap of at most 9,
    [traverseIf] returns (with fuel 10 or more) and calls its callback
    exactly once for every node below the root that the condition callback
    accepts together with all its ancestors below the root: a node for
    which the condition is false is skipped with its whole subtree. *)
Theorem traverseIf_prunes_subtrees (fuel0 t d : nat) (idx : list N)
    (vertices : list Q) (box : AABB) (o : Octree)
    (cond : AABB -> Z -> bool) (fuel : nat) :
  (d <= 9)%nat ->
  build fuel0 (emptyOctree t d) idx vertices box 1 = Some o ->
  (10 <= fuel)%nat ->
  exists vs, traverseIf fuel o cond 1 = Some vs
    /\ List.NoDup (visited vs)
    /\ (forall k, In k (visited vs) <-> keptBelow o cond 1 k)
    /\ Forall (visitOk o) vs.
Proof.
  intros Hd Hb Hfuel.
  destruct (built_treeKeys fuel0 t d idx vertices box o Hd Hb) as [Htk _].
  apply (traverseIf_tree o cond Htk fuel 1 0%nat atDepth_root); lia.
Qed.

Lemma traverseIf_prunes_subtrees_witness :
  exists o vs,
    build 3 (emptyOctree 1 4) pairIndices pairVertices specRoot 1 = Some o
    /\ traverseIf 10 o (fun _ code => negb (code =? 120)) 1 = Some vs
    /\ (forall k, In k (visited vs)
                  <-> keptBelow o (fun _ code => negb (code =? 120)) 1 k).
Proof.
  destruct pair_build as (o & Hb & _).
  assert (Hd : (4 <= 9)%nat) by lia.
  assert (Hf : (10 <= 10)%nat) by lia.
  destruct (traverseIf_prunes_subtrees 3 1 4 pairIndices pairVertices specRoot o
              (fun _ code => negb (code =? 120)) 10 Hd Hb Hf)
    as (vs & Htr & _ & Hin & _).
  exists o, vs. split; [exact Hb|]. split; [exact Htr|exact Hin].
Defined.

(** ** Centers, closest and farthest points *)

Lemma NoDup_map_filter {A B : Type} (f : A -> B) (p : A -> bool) (l : list A) :
  List.NoDup (map f l) -> List.NoDup (map f (List.filter p l)).
Proof.
  induction l as [|a l IH]; simpl; intros Hnd; [constructor|].
  inversion Hnd as [|? ? Hni Hnd']; subst.
  destruct (p a); simpl; [constructor|]; auto.
  intros Hin. apply Hni. apply in_map_iff in Hin.
  destruct Hin as (x & Hx & Hin). apply filter_In in Hin.
  apply in_map_iff. exists x. tauto.
Qed.

(** A key of [points] is a key of [aabbs], whatever the depth cap. *)
Lemma build_points_key fuel t d idx vertices box o k :
  build fuel (emptyOctree t d) idx vertices box 1 = Some o ->
  is_Some (points o !! k) -> is_Some (aabbs o !! k).
Proof.
  intros Hb Hk. apply build_Built in Hb. simpl in Hb.
  destruct Hb as (ns & _ & ->).
  destruct (writeNodes_lookup ns (emptyOctree t d) k)
    as [(_ & _ & Hp)|(n & _ & _ & Ha & _)].
  - rewrite Hp in Hk. simpl in Hk. rewrite lookup_empty in Hk.
    destruct Hk as [? [=]].
  - rewrite Ha. eauto.
Qed.

(** The visits of [traverse] from the root of a built octree. *)
Lemma traverse_built fuel0 t d idx vertices box o fuel :
  (d <= 9)%nat ->
  build fuel0 (emptyOctree t d) idx vertices box 1 = Some o ->
  (10 <= fuel)%nat ->
  exists vs, traverse fuel o 1 = Some vs
    /\ List.NoDup (visited vs)
    /\ (forall k, In k (visited vs) <-> is_Some (aabbs o !! k) /\ k <> 1)
    /\ Forall (visitOk o) vs.
Proof.
  intros Hd Hb Hfuel.
  destruct (built_treeKeys fuel0 t d idx vertices box o Hd Hb) as [Htk Hkeys].
  destruct (traverse_tree o Htk fuel 1 0%nat atDepth_root) as (vs & Htr & Hnd & Hin & Hok);
    [lia|lia|].
  exists vs. split; [exact Htr|]. split; [exact Hnd|]. split; [|exact Hok].
  intros k. rewrite Hin. split.
  - intros [Hk (m & Hdm)]. split; [exact Hk|]. intros ->.
    pose proof (descAt_atDepth _ _ _ _ Hdm atDepth_root) as H1.
    pose proof (atDepth_inj _ _ _ H1 atDepth_root). lia.
  - intros [Hk Hne]. split; [exact Hk|].
    destruct (Hkeys k Hk) as [->|H]; [congruence|exact H].
Qed.

Lemma filter_visited o (p : visit -> bool) (q : option (option (list N)) -> bool) vs :
  (forall v, p v = q (v_points v)) ->
  Forall (visitOk o) vs ->
  forall k, In k (visited (List.filter p vs))
            <-> In k (visited vs) /\ q (points o !! k) = true.
Proof.
  intros Hp Hok k. rewrite List.Forall_forall in Hok. unfold visited.
  rewrite !in_map_iff. split.
  - intros (v & <- & Hv). apply filter_In in Hv. destruct Hv as [Hv Hpv].
    split; [eauto|]. destruct (Hok v Hv) as [<- _]. rewrite <- Hp. exact Hpv.
  - intros [(v & <- & Hv) Hq]. exists v. split; [reflexivity|].
    apply filter_In. split; [exact Hv|]. rewrite Hp.
    destruct (Hok v Hv) as [-> _]. exact Hq.
Qed.

(** The root of a build over at most [threshold] indices is the only node. *)
Lemma build_small_root fuel t d idx vertices box o :
  build fuel (emptyOctree t d) idx vertices box 1 = Some o ->
  (length idx <= t)%nat ->
  forall k, is_Some (aabbs o !! k) -> k = 1.
Proof.
  intros Hb Hlen k Hk. destruct fuel as [|fuel]; [discriminate|].
  simpl in Hb. unfold isTerminal in Hb. simpl in Hb.
  apply Nat.leb_le in Hlen. rewrite Hlen in Hb. simpl in Hb.
  injection Hb as <-. simpl in Hk.
  destruct (Z.eq_dec k 1) as [E|Hne]; [exact E|].
  rewrite lookup_insert_ne in Hk by congruence.
  rewrite lookup_empty in Hk. destruct Hk as [? [=]].
Qed.

(** X7. On an octree built from the root with a depth cap of at most 9,
    [getCenters] returns (with fuel 10 or more) one center for every node
    below the root that stores more than [threshold] points (0 when the
    argument is omitted), and for no other node; the root is never among
    them, so a cloud that fits the root (at most [threshold] of the octree
    many indices) gives the empty list. *)
Theorem getCenters_leaves_below_root (fuel0 t d : nat) (idx : list N)
    (vertices : list Q) (box : AABB) (o : Octree) (thr : option nat)
    (fuel : nat) :
  (d <= 9)%nat ->
  build fuel0 (emptyOctree t d) idx vertices box 1 = Some o ->
  (10 <= fuel)%nat ->
  (exists vs, getCenters fuel o thr = Some (map (fun v => center (v_aabb v)) vs)
     /\ List.NoDup (visited vs)
     /\ Forall (visitOk o) vs
     /\ forall k, In k (visited vs)
          <-> k <> 1 /\ exists l, points o !! k = Some (Some l)
                                  /\ (orZero thr < length l)%nat)
  /\ ((length idx <= t)%nat -> getCenters fuel o thr = Some []).
Proof.
  intros Hd Hb Hfuel.
  destruct (traverse_built fuel0 t d idx vertices box o fuel Hd Hb Hfuel)
    as (vs & Htr & Hnd & Hin & Hok).
  set (p := fun v : visit => overThreshold (v_points v) (orZero thr)).
  assert (Hchar : forall k, In k (visited (List.filter p vs))
            <-> k <> 1 /\ exists l, points o !! k = Some (Some l)
                                    /\ (orZero thr < length l)%nat).
  { intros k.
    rewrite (filter_visited o p (fun pts => overThreshold pts (orZero thr)) vs
               (fun v => eq_refl) Hok k).
    rewrite Hin. unfold overThreshold. split.
    - intros [[_ Hne] Hq]. split; [exact Hne|].
      destruct (points o !! k) as [[l|]|]; try discriminate.
      exists l. split; [reflexivity|]. apply Nat.ltb_lt. exact Hq.
    - intros [Hne (l & Hl & Hlt)]. split; [split; [|exact Hne]|].
      + apply (build_points_key fuel0 t d idx vertices box o k Hb).
        rewrite Hl. eauto.
      + rewrite Hl. apply Nat.ltb_lt. exact Hlt. }
  split.
  - exists (List.filter p vs). unfold getCenters. rewrite Htr.
    split; [reflexivity|]. split; [apply NoDup_map_filter; exact Hnd|].
    split; [|exact Hchar].
    rewrite List.Forall_forall in *. intros v Hv. apply filter_In in Hv.
    apply Hok. tauto.
  - intros Hlen. unfold getCenters. rewrite Htr. fold p.
    destruct (List.filter p vs) as [|v rest] eqn:E; [reflexivity|].
    exfalso.
    assert (Hv : In (v_code v) (visited (v :: rest))) by (left; reflexivity).
    apply Hchar in Hv. destruct Hv as [Hne (l & Hl & _)].
    apply Hne. apply (build_small_root fuel0 t d idx vertices box o Hb Hlen).
    apply (build_points_key fuel0 t d idx vertices box o _ Hb).
    rewrite Hl. eauto.
Qed.

(** ** Nodes of a built octree *)

(** What the two maps of an octree built from the root hold, for codes that
    fit 32 bits. *)
Lemma built_node_facts fuel t d idx vertices box o :
  (d <= 10)%nat ->
  build fuel (emptyOctree t d) idx vertices box 1 = Some o ->
  aabbs o !! 1 = Some (setLocCode box 1)
  /\ (forall k b, aabbs o !! k = Some b ->
        locCode b = k
        /\ (exists j, (j <= d)%nat /\ atDepth j k)
        /\ ((points o !! k = Some None
             /\ exists i, 0 <= i < 8 /\ is_Some (aabbs o !! (8 * k + i)))
            \/ ((exists l, points o !! k = Some (Some l))
                /\ forall i, 0 <= i < 8 -> aabbs o !! (8 * k + i) = None))).
Proof.
  intros Hd Hb.
  destruct (build_root_structure fuel t d idx vertices box o Hd Hb)
    as (ns & HB & -> & (p & rest & Hns) & Hst).
  pose proof (Built_local _ _ _ _ _ _ _ HB) as Hloc.
  rewrite List.Forall_forall in Hloc.
  destruct Hst as [_ Sdepth Snodup _ Sint Sleaf].
  rewrite List.Forall_forall in Sdepth.
  assert (Hlook : forall k b,
            aabbs (writeNodes (emptyOctree t d) ns) !! k = Some b ->
            exists n, In n ns /\ n_code n = k /\ n_aabb n = b
              /\ points (writeNodes (emptyOctree t d) ns) !! k = Some (n_points n)).
  { intros k b Hk.
    destruct (key_written t d ns k) as (n & Hn & Hc & Ha & Hp);
      [rewrite Hk; eauto|].
    exists n. rewrite Ha in Hk. injection Hk as Hk. auto. }
  split.
  - destruct (writeNodes_empty_lookup t d ns 1 Snodup)
      as [(Hni & _)|(n & Hn & Hc & Ha & _)].
    + exfalso. apply Hni. rewrite Hns. left. reflexivity.
    + rewrite Ha. f_equal.
      assert (E : n = mkNode 1 (setLocCode box 1) p).
      { apply (NoDup_codes_inj ns); [exact Snodup|exact Hn| |exact Hc].
        rewrite Hns. left. reflexivity. }
      rewrite E. reflexivity.
  - intros k b Hk. destruct (Hlook k b Hk) as (n & Hn & Hc & Ha & Hp).
    subst k b. split; [apply (Hloc n Hn)|].
    split.
    { destruct (Sdepth n Hn) as (j & Hj & Hat). exists j. split; [lia|exact Hat]. }
    destruct (n_points n) as [l|] eqn:En.
    + right. split; [eauto|]. intros i Hi.
      destruct (writeNodes_empty_lookup t d ns (8 * n_code n + i) Snodup)
        as [(_ & Ha' & _)|(n' & Hn' & Hc' & _)]; [exact Ha'|].
      exfalso. apply (Sleaf n l i Hn En Hi). rewrite <- Hc'.
      apply in_map. exact Hn'.
    + left. split; [exact Hp|].
      destruct (Sint n Hn En) as (i & Hi & Hin). exists i. split; [exact Hi|].
      apply code_is_key. exact Hin.
Qed.

(** ** The scans over the children of a node *)

Lemma Qltb_lt a b : Qltb a b = true <-> (a < b)%Q.
Proof.
  unfold Qltb. rewrite negb_true_iff. split.
  - intros H. apply Qnot_le_lt. intros Hle. apply Qle_bool_iff in Hle. congruence.
  - intros H. destruct (Qle_bool b a) eqn:E; [|reflexivity].
    apply Qle_bool_iff in E. apply Qlt_not_le in H. contradiction.
Qed.

Lemma closestChild_bestChild dist o thr code :
  closestChild dist o thr code
  = bestChild (fun d m => Qltb d m) MAX_VALUE dist o thr code octants
              (-1, MAX_VALUE).
Proof. reflexivity. Qed.

Lemma farthestChild_bestChild dist o thr code :
  farthestChild dist o thr code
  = bestChild (fun d m => Qltb m d) MIN_VALUE dist o thr code octants
              (-1, MIN_VALUE).
Proof. reflexivity. Qed.

(** Either no child qualifies, or the scan picks a child that does. *)
Lemma bestChild_spec better init dist o thr code :
  let r := bestChild better init dist o thr code octants (-1, init) in
  (fst r = -1
   /\ forall i b, 0 <= i < 8 -> aabbs o !! childCode code i = Some b ->
        underThreshold (points o !! childCode code i) thr = true
        \/ better (dist b) init = false)
  \/ (exists i b, 0 <= i < 8 /\ fst r = childCode code i
        /\ aabbs o !! childCode code i = Some b
        /\ underThreshold (points o !! childCode code i) thr = false).
Proof.
  set (J := fun (done : list Z) (st : Z * Q) =>
    (fst st = -1 /\ snd st = init
     /\ forall i b, In i done -> aabbs o !! childCode code i = Some b ->
          underThreshold (points o !! childCode code i) thr = true
          \/ better (dist b) init = false)
    \/ (exists i b, 0 <= i < 8 /\ fst st = childCode code i
          /\ aabbs o !! childCode code i = Some b
          /\ underThreshold (points o !! childCode code i) thr = false)).
  assert (Hloop : forall l done st,
            (forall i, In i l -> 0 <= i < 8) -> J done st ->
            J (done ++ l) (bestChild better init dist o thr code l st)).
  { induction l as [|i l IH]; intros done st Hr HJ.
    - rewrite app_nil_r. exact HJ.
    - replace (done ++ i :: l) with ((done ++ [i]) ++ l)
        by (rewrite <- app_assoc; reflexivity).
      unfold bestChild. cbn [fold_left]. apply IH; [intros; apply Hr; right; auto|].
      assert (Hi : 0 <= i < 8) by (apply Hr; left; reflexivity).
      cbv zeta.
      destruct HJ as [(H1 & H2 & H3)|Hpicked].
      + assert (Hkeep : (forall b, aabbs o !! childCode code i = Some b ->
                   underThreshold (points o !! childCode code i) thr = true
                   \/ better (dist b) init = false) ->
                J (done ++ [i]) st).
        { intros Hno. left. split; [exact H1|]. split; [exact H2|].
          intros i' b Hin Hb. apply in_app_or in Hin.
          destruct Hin as [Hin|[<-|[]]]; eauto. }
        destruct (aabbs o !! childCode code i) as [b|] eqn:Hb;
          [|apply Hkeep; intros ? [=]].
        destruct (underThreshold (points o !! childCode code i) thr) eqn:Hu;
          [apply Hkeep; intros; left; reflexivity|].
        destruct (better (dist b) (snd st)) eqn:Hbt.
        * right. exists i, b. simpl. auto.
        * apply Hkeep. intros b' [= <-]. right. rewrite <- H2. exact Hbt.
      + destruct (aabbs o !! childCode code i) as [b|] eqn:Hb;
          [|right; exact Hpicked].
        destruct (underThreshold (points o !! childCode code i) thr) eqn:Hu;
          [right; exact Hpicked|].
        destruct (better (dist b) (snd st)); [|right; exact Hpicked].
        right. exists i, b. simpl. auto. }
  intros r.
  destruct (Hloop octants [] (-1, init) (fun i H => proj1 (octants_range i) H))
    as [(H1 & _ & H3)|H].
  - left. split; [reflexivity|]. split; [reflexivity|]. intros i b [].
  - left. split; [exact H1|]. intros i b Hi Hb.
    apply (H3 i b); [apply octants_range; exact Hi|exact Hb].
  - right. exact H.
Qed.

(** When no child qualifies the scan answers -1. *)
Lemma bestChild_none better init dist o thr code :
  (forall i b, 0 <= i < 8 -> aabbs o !! childCode code i = Some b ->
     underThreshold (points o !! childCode code i) thr = true
     \/ better (dist b) init = false) ->
  bestChild better init dist o thr code octants (-1, init) = (-1, init).
Proof.
  intros Hno.
  assert (Hloop : forall l, (forall i, In i l -> 0 <= i < 8) ->
            bestChild better init dist o thr code l (-1, init) = (-1, init)).
  { induction l as [|i l IH]; intros Hr; [reflexivity|].
    unfold bestChild. cbn [fold_left]. cbv zeta.
    assert (Hi : 0 <= i < 8) by (apply Hr; left; reflexivity).
    destruct (aabbs o !! childCode code i) as [b|] eqn:Hb.
    - destruct (Hno i b Hi Hb) as [Hu|Hw].
      + rewrite Hu. apply IH. intros; apply Hr; right; assumption.
      + destruct (underThreshold (points o !! childCode code i) thr);
          [|cbn [snd]; rewrite Hw];
          apply IH; intros; apply Hr; right; assumption.
    - apply IH. intros; apply Hr; right; assumption. }
  apply Hloop. intros i. apply octants_range.
Qed.

(** ** Closest box *)

(** [getClosestBox] walks down from a node of the tree to a node none of
    whose children qualifies. *)
Lemma getClosestBox_descends o point thr : treeKeys o ->
  forall fuel c j, atDepth j c -> (j <= 9)%nat -> (10 <= fuel + j)%nat ->
  exists c',
    getClosestBox fuel o point thr c = Some (aabbs o !! c')
    /\ (c' = c \/ is_Some (aabbs o !! c'))
    /\ forall i b, 0 <= i < 8 -> aabbs o !! (8 * c' + i) = Some b ->
         underThreshold (points o !! (8 * c' + i)) thr = true
         \/ Qltb (distanceToPointSq b (vx point) (vy point) (vz point))
                 MAX_VALUE = false.
Proof.
  intros Htk. induction fuel as [|fuel IH]; intros c j Hc Hj Hfuel; [lia|].
  pose proof (atDepth_lt28 j c Hc Hj) as Hc28.
  cbn [getClosestBox]. rewrite closestChild_bestChild.
  set (dist := fun b => distanceToPointSq b (vx point) (vy point) (vz point)).
  destruct (bestChild_spec (fun d m => Qltb d m) MAX_VALUE dist o thr c)
    as [(H1 & H2)|(i & b & Hi & H1 & Hb & _)]; cbv zeta in *; rewrite H1.
  - exists c. simpl. split; [reflexivity|]. split; [left; reflexivity|].
    intros i b Hi Hb. rewrite <- (childCode_small c i) in * by lia.
    exact (H2 i b Hi Hb).
  - rewrite (childCode_small c i) in * by lia.
    assert (Hpos : (8 * c + i <? 0) = false) by (apply Z.ltb_ge; lia).
    rewrite Hpos.
    assert (Hj8 : (S j <= 9)%nat).
    { destruct (tk_depth o Htk (8 * c + i)) as (j' & Hj' & Hat);
        [rewrite Hb; eauto|].
      pose proof (atDepth_inj _ _ _ Hat (atDepth_child _ _ _ Hc Hi)). lia. }
    destruct (IH (8 * c + i) (S j) (atDepth_child _ _ _ Hc Hi) Hj8)
      as (c' & Hres & Hkey & Hstop); [lia|].
    exists c'. split; [exact Hres|]. split; [|exact Hstop].
    right. destruct Hkey as [->|Hkey]; [rewrite Hb; eauto|exact Hkey].
Qed.

Lemma getClosestBox_reaches_leaf_aux (fuel0 t d : nat) (idx : list N)
    (vertices : list Q) (box : AABB) (o : Octree) (point : Vector3f)
    (thr fuel : nat) :
  (d <= 9)%nat ->
  build fuel0 (emptyOctree t d) idx vertices box 1 = Some o ->
  (10 <= fuel)%nat ->
  exists b,
    getClosestBox fuel o point thr 1 = Some (Some b)
    /\ aabbs o !! getLocCode b = Some b
    /\ (thr = 0%nat ->
        (forall k b', aabbs o !! k = Some b' ->
           (distanceToPointSq b' (vx point) (vy point) (vz point) < MAX_VALUE)%Q) ->
        exists l, points o !! getLocCode b = Some (Some l)).
Proof.
  intros Hd Hb Hfuel.
  destruct (built_treeKeys fuel0 t d idx vertices box o Hd Hb) as [Htk _].
  destruct (built_node_facts fuel0 t d idx vertices box o ltac:(lia) Hb)
    as (Hroot & Hnodes).
  destruct (getClosestBox_descends o point thr Htk fuel 1 0%nat atDepth_root)
    as (c' & Hres & Hkey & Hstop); [lia|lia|].
  assert (Hk : is_Some (aabbs o !! c')).
  { destruct Hkey as [->|H]; [rewrite Hroot; eauto|exact H]. }
  destruct Hk as (b & Hbx). exists b.
  destruct (Hnodes c' b Hbx) as (Hcode & _ & Hkind).
  unfold getLocCode. rewrite Hcode, Hres.
  split; [rewrite Hbx; reflexivity|]. split; [exact Hbx|].
  intros -> Hfar.
  destruct Hkind as [(_ & i & Hi & (b' & Hb'))|(Hl & _)]; [|exact Hl].
  exfalso. destruct (Hstop i b' Hi Hb') as [Hu|Hq].
  - unfold underThreshold in Hu.
    destruct (points o !! (8 * c' + i)) as [[l|]|]; try discriminate.
  - specialize (Hfar _ _ Hb'). apply Qltb_lt in Hfar. congruence.
Qed.

(** X8. On an octree built from the root with a depth cap of at most 9,
    [getClosestBox] from the root returns (with fuel 10 or more) the box of
    a node of the octree, stored under the code that the box carries; with
    the threshold 0 and every box at a squared distance below
    [Number.MAX_VALUE] from the point, that node is a leaf. *)
Theorem getClosestBox_reaches_leaf (fuel0 t d : nat) (idx : list N)
    (vertices : list Q) (box : AABB) (o : Octree) (point : Vector3f)
    (thr fuel : nat) :
  (d <= 9)%nat ->
  build fuel0 (emptyOctree t d) idx vertices box 1 = Some o ->
  (10 <= fuel)%nat ->
  exists b,
    getClosestBox fuel o point thr 1 = Some (Some b)
    /\ aabbs o !! getLocCode b = Some b
    /\ (thr = 0%nat ->
        (forall k b', aabbs o !! k = Some b' ->
           (distanceToPointSq b' (vx point) (vy point) (vz point) < MAX_VALUE)%Q) ->
        exists l, points o !! getLocCode b = Some (Some l)).
Proof. apply getClosestBox_reaches_leaf_aux. Qed.

(** ** Closest and farthest point of a box *)

Lemma vertexDistSq_vertexAt positions point index d :
  vertexDistSq positions point index = Some d ->
  exists v, vertexAt positions index = Some v.
Proof.
  unfold vertexDistSq, vertexAt.
  destruct (nth_error positions index); [|discriminate].
  destruct (nth_error positions (index + 1)); [|discriminate].
  destruct (nth_error positions (index + 2)); [|discriminate]. eauto.
Qed.

Section BestPoint.

Variables (better : Q -> Q -> bool) (le : Q -> Q -> Prop).
Hypothesis better_le : forall d m, better d m = true -> le d m.
Hypothesis worse_le : forall d m, better d m = false -> le m d.
Hypothesis le_refl : forall d, le d d.
Hypothesis le_trans : forall a b c, le a b -> le b c -> le a c.
Hypothesis better_trans : forall a b c,
  better a b = true -> better b c = true -> better a c = true.

Variables (init : Q) (positions : list Q) (point : Vector3f).

(** Nothing beats the initial bound and the result is null, or the result is
    a vertex of the list that every other vertex of the list is no better
    than. *)
Lemma bestPoint_spec l :
  let r := bestPoint better positions point l (init, None) in
  (snd r = None
   /\ forall q dq, In q l ->
        vertexDistSq positions point (N.to_nat (q * 3)) = Some dq ->
        better dq init = false)
  \/ (exists p v, In p l
        /\ vertexAt positions (N.to_nat (p * 3)) = Some v
        /\ snd r = Some v
        /\ vertexDistSq positions point (N.to_nat (p * 3)) = Some (fst r)
        /\ better (fst r) init = true
        /\ forall q dq, In q l ->
             vertexDistSq positions point (N.to_nat (q * 3)) = Some dq ->
             le (fst r) dq).
Proof.
  set (J := fun (done : list N) (st : Q * option Vector3f) =>
    (snd st = None /\ fst st = init
     /\ forall q dq, In q done ->
          vertexDistSq positions point (N.to_nat (q * 3)) = Some dq ->
          better dq init = false)
    \/ (exists p v, In p done
          /\ vertexAt positions (N.to_nat (p * 3)) = Some v
          /\ snd st = Some v
          /\ vertexDistSq positions point (N.to_nat (p * 3)) = Some (fst st)
          /\ better (fst st) init = true
          /\ forall q dq, In q done ->
               vertexDistSq positions point (N.to_nat (q * 3)) = Some dq ->
               le (fst st) dq)).
  assert (Hloop : forall l done st, J done st ->
            J (done ++ l) (bestPoint better positions point l st)).
  { clear l. induction l as [|p l IH]; intros done st HJ.
    - rewrite app_nil_r. exact HJ.
    - replace (done ++ p :: l) with ((done ++ [p]) ++ l)
        by (rewrite <- app_assoc; reflexivity).
      unfold bestPoint. cbn [fold_left]. apply IH. cbv zeta.
      destruct (vertexDistSq positions point (N.to_nat (p * 3))) as [d|] eqn:Hd.
      + destruct (vertexDistSq_vertexAt _ _ _ _ Hd) as (v & Hv).
        destruct (better d (fst st)) eqn:Hbt.
        * right. exists p, v. simpl.
          split; [apply in_or_app; right; left; reflexivity|].
          split; [exact Hv|]. split; [exact Hv|]. split; [exact Hd|].
          destruct HJ as [(_ & H2 & H3)|(p' & v' & _ & _ & _ & _ & H5 & H6)].
          -- rewrite H2 in Hbt. split; [exact Hbt|].
             intros q dq Hin Hq. apply in_app_or in Hin.
             destruct Hin as [Hin|[<-|[]]].
             ++ apply (le_trans _ init); [apply better_le; exact Hbt|].
                apply worse_le. exact (H3 q dq Hin Hq).
             ++ rewrite Hd in Hq. injection Hq as <-. apply le_refl.
          -- split.
             ++ exact (better_trans _ _ _ Hbt H5).
             ++ intros q dq Hin Hq. apply in_app_or in Hin.
                destruct Hin as [Hin|[<-|[]]].
                ** apply (le_trans _ (fst st)); [apply better_le; exact Hbt|].
                   exact (H6 q dq Hin Hq).
                ** rewrite Hd in Hq. injection Hq as <-. apply le_refl.
        * destruct HJ as [(H1 & H2 & H3)|(p' & v' & Hp' & Hv' & H3 & H4 & H5 & H6)].
          -- left. split; [exact H1|]. split; [exact H2|].
             intros q dq Hin Hq. apply in_app_or in Hin.
             destruct Hin as [Hin|[<-|[]]]; [eauto|].
             rewrite Hd in Hq. injection Hq as <-. rewrite <- H2. exact Hbt.
          -- right. exists p', v'. split; [apply in_or_app; left; exact Hp'|].
             repeat (split; [assumption|]).
             intros q dq Hin Hq. apply in_app_or in Hin.
             destruct Hin as [Hin|[<-|[]]]; [eauto|].
             rewrite Hd in Hq. injection Hq as <-. apply worse_le. exact Hbt.
      + destruct HJ as [(H1 & H2 & H3)|(p' & v' & Hp' & Hv' & H3 & H4 & H5 & H6)].
        * left. split; [exact H1|]. split; [exact H2|].
          intros q dq Hin Hq. apply in_app_or in Hin.
          destruct Hin as [Hin|[<-|[]]]; [eauto|congruence].
        * right. exists p', v'. split; [apply in_or_app; left; exact Hp'|].
          repeat (split; [assumption|]).
          intros q dq Hin Hq. apply in_app_or in Hin.
          destruct Hin as [Hin|[<-|[]]]; [eauto|congruence]. }
  intros r. destruct (Hloop l [] (init, None)) as [(H1 & _ & H3)|H].
  - left. split; [reflexivity|]. split; [reflexivity|]. intros q dq [].
  - left. split; [exact H1|exact H3].
  - right. exact H.
Qed.

End BestPoint.

Lemma Qltb_trans a b c : Qltb a b = true -> Qltb b c = true -> Qltb a c = true.
Proof. rewrite !Qltb_lt. apply Qlt_trans. Qed.

Lemma Qltb_ge a b : Qltb a b = false -> (b <= a)%Q.
Proof.
  unfold Qltb. rewrite negb_false_iff. apply Qle_bool_iff.
Qed.

Lemma scanClosest_spec positions point l :
  let r := scanClosest positions point l in
  (snd r = None
   /\ forall q dq, In q l ->
        vertexDistSq positions point (N.to_nat (q * 3)) = Some dq ->
        (MAX_VALUE <= dq)%Q)
  \/ (exists p v, In p l
        /\ vertexAt positions (N.to_nat (p * 3)) = Some v
        /\ snd r = Some v
        /\ vertexDistSq positions point (N.to_nat (p * 3)) = Some (fst r)
        /\ (fst r < MAX_VALUE)%Q
        /\ forall q dq, In q l ->
             vertexDistSq positions point (N.to_nat (q * 3)) = Some dq ->
             (fst r <= dq)%Q).
Proof.
  destruct (bestPoint_spec (fun d m => Qltb d m) Qle
              (fun d m H => Qlt_le_weak _ _ (proj1 (Qltb_lt d m) H))
              (fun d m H => Qltb_ge _ _ H) Qle_refl Qle_trans
              (fun a b c => Qltb_trans a b c)
              MAX_VALUE positions point l)
    as [(H1 & H2)|(p & v & Hp & Hv & H3 & H4 & H5 & H6)].
  - left. split; [exact H1|]. intros q dq Hq Hd. apply Qltb_ge. eauto.
  - right. exists p, v. repeat (split; [assumption|]).
    split; [apply Qltb_lt; exact H5|exact H6].
Qed.

Lemma scanFarthest_spec positions point l :
  let r := scanFarthest positions point l in
  (snd r = None
   /\ forall q dq, In q l ->
        vertexDistSq positions point (N.to_nat (q * 3)) = Some dq ->
        (dq <= MIN_VALUE)%Q)
  \/ (exists p v, In p l
        /\ vertexAt positions (N.to_nat (p * 3)) = Some v
        /\ snd r = Some v
        /\ vertexDistSq positions point (N.to_nat (p * 3)) = Some (fst r)
        /\ (MIN_VALUE < fst r)%Q
        /\ forall q dq, In q l ->
             vertexDistSq positions point (N.to_nat (q * 3)) = Some dq ->
             (dq <= fst r)%Q).
Proof.
  destruct (bestPoint_spec (fun d m => Qltb m d) (fun a b => (b <= a)%Q)
              (fun d m H => Qlt_le_weak _ _ (proj1 (Qltb_lt m d) H))
              (fun d m H => Qltb_ge _ _ H) Qle_refl
              (fun a b c H1 H2 => Qle_trans _ _ _ H2 H1)
              (fun a b c H1 H2 => Qltb_trans c b a H2 H1)
              MIN_VALUE positions point l)
    as [(H1 & H2)|(p & v & Hp & Hv & H3 & H4 & H5 & H6)].
  - left. split; [exact H1|]. intros q dq Hq Hd. apply Qltb_ge. eauto.
  - right. exists p, v. repeat (split; [assumption|]).
    split; [apply Qltb_lt; exact H5|exact H6].
Qed.

Lemma in_leaves ns n l p :
  In n ns -> n_points n = Some l -> In p l -> In p (leaves ns).
Proof.
  unfold leaves. induction ns as [|n' ns IH]; intros Hn Hl Hp; [destruct Hn|].
  destruct Hn as [<-|Hn].
  - simpl. rewrite Hl. simpl. apply in_or_app. left. exact Hp.
  - simpl. destruct (n_points n'); simpl; [apply in_or_app; right|]; auto.
Qed.

(** Every index stored in a node is one of the input, and no stored list is
    empty when the input is not. *)
Lemma build_stored_points fuel t d idx vertices box o k l :
  build fuel (emptyOctree t d) idx vertices box 1 = Some o ->
  points o !! k = Some (Some l) ->
  (forall p, In p l -> In p idx) /\ (idx <> [] -> l <> []).
Proof.
  intros Hb Hl. apply build_Built in Hb. simpl in Hb.
  destruct Hb as (ns & HB & ->).
  destruct (writeNodes_lookup ns (emptyOctree t d) k)
    as [(_ & _ & Hp)|(n & Hn & _ & _ & Hp)]; rewrite Hp in Hl.
  - simpl in Hl. rewrite lookup_empty in Hl. discriminate.
  - injection Hl as Hl. split.
    + intros p Hin.
      apply (Permutation_in _ (Built_leaves _ _ _ _ _ _ _ HB)).
      exact (in_leaves ns n l p Hn Hl Hin).
    + intros Hne ->. pose proof (Built_nonempty _ _ _ _ _ _ _ HB Hne) as Hall.
      rewrite List.Forall_forall in Hall. exact (Hall n Hn Hl).
Qed.

(** X9. On an octree built from the root over at least one index with a
    depth cap of at most 9, with every box and every vertex at a squared
    distance below [Number.MAX_VALUE] from the point, [getClosestPoint]
    without threshold and code returns a vertex: that of an input index [p]
    stored in the leaf that [getClosestBox] reaches, and no index of that
    leaf is closer to the point than [p]. *)
Theorem getClosestPoint_nearest_in_leaf (fuel0 t d : nat) (idx : list N)
    (vertices : list Q) (box : AABB) (o : Octree) (point : Vector3f)
    (positions : list Q) (fuel : nat) :
  (d <= 9)%nat ->
  build fuel0 (emptyOctree t d) idx vertices box 1 = Some o ->
  (10 <= fuel)%nat ->
  idx <> [] ->
  (forall k b, aabbs o !! k = Some b ->
     (distanceToPointSq b (vx point) (vy point) (vz point) < MAX_VALUE)%Q) ->
  (forall p, In p idx ->
     exists dp, vertexDistSq positions point (N.to_nat (p * 3)) = Some dp
                /\ (dp < MAX_VALUE)%Q) ->
  exists b l p v dp,
    getClosestBox fuel o point 0 1 = Some (Some b)
    /\ points o !! getLocCode b = Some (Some l)
    /\ getClosestPoint fuel o point positions None None = Returns (Some v)
    /\ In p l /\ In p idx
    /\ vertexAt positions (N.to_nat (p * 3)) = Some v
    /\ vertexDistSq positions point (N.to_nat (p * 3)) = Some dp
    /\ forall q dq, In q l ->
         vertexDistSq positions point (N.to_nat (q * 3)) = Some dq ->
         (dp <= dq)%Q.
Proof.
  intros Hd Hb Hfuel Hne Hboxes Hpts.
  destruct (getClosestBox_reaches_leaf_aux fuel0 t d idx vertices box o point 0 fuel
              Hd Hb Hfuel) as (b & Hbox & Hkey & Hleaf).
  destruct (Hleaf eq_refl Hboxes) as (l & Hl).
  destruct (build_stored_points fuel0 t d idx vertices box o _ l Hb Hl)
    as [Hsub Hnonempty].
  exists b, l.
  unfold getClosestPoint. simpl. rewrite Hbox. simpl. rewrite Hl.
  destruct (scanClosest_spec positions point l)
    as [(_ & Hall)|(p & v & Hp & Hv & Hres & Hdist & _ & Hmin)].
  - exfalso. destruct l as [|p l]; [exact (Hnonempty Hne eq_refl)|].
    destruct (Hpts p (Hsub p (or_introl eq_refl))) as (dp & Hdp & Hlt).
    apply (Qlt_not_le _ _ Hlt). apply (Hall p dp); [left; reflexivity|exact Hdp].
  - exists p, v, (fst (scanClosest positions point l)).
    split; [reflexivity|]. split; [reflexivity|]. split; [rewrite Hres; reflexivity|].
    auto 10.
Qed.

(** X11. For a code [c] other than 0 whose box names a stored index list,
    [getFarthestPoint] returns: null when no index of the list is farther
    than [Number.MIN_VALUE] from the point (so when all its vertices are the
    point itself), and otherwise the vertex of an index of the list that no
    other index of the list is farther than. *)
Theorem getFarthestPoint_in_cell (fuel : nat) (o : Octree) (point : Vector3f)
    (positions : list Q) (thr : option nat) (c : Z) (b : AABB) (l : list N) :
  c <> 0 ->
  aabbs o !! c = Some b ->
  points o !! getLocCode b = Some (Some l) ->
  exists r,
    getFarthestPoint fuel o point positions thr (Some c) = Returns r
    /\ ((r = None
         /\ forall q dq, In q l ->
              vertexDistSq positions point (N.to_nat (q * 3)) = Some dq ->
              (dq <= MIN_VALUE)%Q)
        \/ (exists p v dp, r = Some v /\ In p l
              /\ vertexAt positions (N.to_nat (p * 3)) = Some v
              /\ vertexDistSq positions point (N.to_nat (p * 3)) = Some dp
              /\ (MIN_VALUE < dp)%Q
              /\ forall q dq, In q l ->
                   vertexDistSq positions point (N.to_nat (q * 3)) = Some dq ->
                   (dq <= dp)%Q)).
Proof.
  intros Hc Hb Hl. unfold getFarthestPoint, givenCode.
  apply Z.eqb_neq in Hc. rewrite Hc. simpl. rewrite Hb. simpl. rewrite Hl.
  eexists. split; [reflexivity|].
  destruct (scanFarthest_spec positions point l)
    as [(Hnone & Hall)|(p & v & Hp & Hv & Hres & Hdist & Hlt & Hmax)].
  - left. split; assumption.
  - right. exists p, v, (fst (scanFarthest positions point l)). auto 10.
Qed.

(** The codes 0 and 2 to 7 are no nodes of a built octree. *)
Lemma built_low_codes fuel t d idx vertices box o i :
  (d <= 10)%nat ->
  build fuel (emptyOctree t d) idx vertices box 1 = Some o ->
  0 <= i < 8 -> i <> 1 -> aabbs o !! i = None.
Proof.
  intros Hd Hb Hi Hne.
  destruct (built_node_facts fuel t d idx vertices box o Hd Hb) as (_ & Hnodes).
  destruct (aabbs o !! i) as [b|] eqn:E; [|reflexivity].
  exfalso. destruct (Hnodes i b E) as (_ & (j & _ & Hat) & _).
  destruct j as [|j].
  - apply atDepth_0 in Hat. contradiction.
  - unfold atDepth in Hat. rewrite pow8_S in Hat. pose proof (pow8_pos j). lia.
Qed.

Lemma distanceToPointSq_inside b v :
  inBox b v -> distanceToPointSq b (vx v) (vy v) (vz v) = (0 + 0 + (0 + 0) + (0 + 0))%Q.
Proof.
  intros (Hx & Hy & Hz). unfold distanceToPointSq, axisDistSq.
  assert (Hno : forall a c, (a <= c)%Q -> Qltb c a = false).
  { intros a c H. unfold Qltb. apply negb_false_iff. apply Qle_bool_iff. exact H. }
  rewrite !Hno by tauto. reflexivity.
Qed.

(** X10. On an octree built from the root with a depth cap of at most 10,
    for a point in the root box: [getFarthestBox] without a start code
    returns [undefined] ([undefined << 3 | 1] is the root code and the root
    box is at distance 0, which is not above [Number.MIN_VALUE]), and
    [getFarthestPoint] without a code, or with the code 0, throws a
    TypeError. *)
Theorem getFarthestPoint_without_code_inside_root (fuel0 t d : nat)
    (idx : list N) (vertices : list Q) (box : AABB) (o : Octree)
    (point : Vector3f) (positions : list Q) (thr : option nat) (fuel : nat) :
  (d <= 10)%nat ->
  build fuel0 (emptyOctree t d) idx vertices box 1 = Some o ->
  inBox box point ->
  getFarthestBox (S fuel) o point (orZero thr) None = Some None
  /\ getFarthestPoint (S fuel) o point positions thr None = Throws TypeError
  /\ getFarthestPoint (S fuel) o point positions thr (Some 0) = Throws TypeError.
Proof.
  intros Hd Hb Hin.
  destruct (built_node_facts fuel0 t d idx vertices box o Hd Hb) as (Hroot & _).
  pose proof (fun i Hi Hne =>
                built_low_codes fuel0 t d idx vertices box o i Hd Hb Hi Hne) as Hlow.
  assert (Hbox : getFarthestBox (S fuel) o point (orZero thr) None = Some None).
  { cbn [getFarthestBox default]. rewrite farthestChild_bestChild.
    rewrite bestChild_none; [reflexivity|].
    intros i b Hi Hbx. rewrite (childCode_small 0 i) in Hbx by lia.
    replace (8 * 0 + i) with i in Hbx by lia.
    destruct (Z.eq_dec i 1) as [->|Hne];
      [|rewrite (Hlow i Hi Hne) in Hbx; discriminate].
    rewrite Hroot in Hbx. injection Hbx as <-. right.
    rewrite (distanceToPointSq_inside (setLocCode box 1) point Hin).
    reflexivity. }
  split; [exact Hbox|].
  unfold getFarthestPoint, givenCode. rewrite Z.eqb_refl, Hbox.
  split; reflexivity.
Qed.

(** ** Nested boxes and neighbours *)

Lemma boxIn_refl_geom a b :
  center a = center b -> radius a = radius b -> boxIn a b.
Proof.
  intros Hc Hr. unfold boxIn, AABB_min, AABB_max. rewrite Hc, Hr. simpl.
  repeat split; apply Qle_refl.
Qed.


Lemma mod8_child c i : 0 <= i < 8 -> (8 * c + i) mod 8 = i.
Proof.
  intros Hi. rewrite Z.add_comm, Z.mul_comm, Z_mod_plus_full.
  apply Z.mod_small. exact Hi.
Qed.


Section BuiltNested.

Variables (t d : nat) (vertices : list Q).
Hypothesis Hd : (d <= 10)%nat.


End BuiltNested.



Lemma cellDistanceList_keys o x y z ks :
  (forall k, In k ks -> is_Some (aabbs o !! k)) ->
  exists ds, cellDistanceList o x y z ks = Returns ds /\ length ds = length ks.
Proof.
  induction ks as [|k ks IH]; intros Hks.
  - exists []. split; reflexivity.
  - destruct (Hks k (or_introl eq_refl)) as (b & Hb).
    destruct IH as (ds & Hds & Hlen); [intros; apply Hks; right; assumption|].
    simpl. rewrite Hb, Hds. simpl. eexists. split; [reflexivity|].
    simpl. lia.
Qed.


(** ** Box intersection *)

Lemma keptBelow_cond o cond c k :
  keptBelow o cond c k -> exists b, aabbs o !! k = Some b /\ cond b k = true.
Proof. intros [i b _ Hb Hc|k' i b _ _ Hb Hc]; eauto. Qed.

(** X13. On an octree built from the root with a depth cap of at most 9,
    [intersectBox] returns (with fuel 10 or more) the empty array, whatever
    the box; the nodes that it logs after the box map are nodes whose box
    does not intersect the box [min]..[max]. *)
Theorem intersectBox_returns_nothing (fuel0 t d : nat) (idx : list N)
    (vertices : list Q) (box : AABB) (o : Octree) (min max : Vector3f)
    (fuel : nat) :
  (d <= 9)%nat ->
  build fuel0 (emptyOctree t d) idx vertices box 1 = Some o ->
  (10 <= fuel)%nat ->
  exists log,
    intersectBox fuel o min max = Some ([], LogBoxes (aabbs o) :: log)
    /\ forall code len, In (LogNode code len) log ->
         exists b, aabbs o !! code = Some b /\ intersects min max b = false.
Proof.
  intros Hd Hb Hfuel.
  destruct (built_treeKeys fuel0 t d idx vertices box o Hd Hb) as [Htk _].
  destruct (traverseIf_tree o (fun aabb _ => negb (intersects min max aabb)) Htk
              fuel 1 0%nat atDepth_root) as (vs & Htr & _ & Hin & _); [lia|lia|].
  exists (omap logVisit vs). unfold intersectBox. rewrite Htr.
  split; [reflexivity|]. intros code len Hlog.
  apply list_elem_of_In, list_elem_of_omap in Hlog.
  destruct Hlog as (v & Hv & Hline). apply list_elem_of_In in Hv.
  unfold logVisit in Hline.
  destruct (v_points v) as [[l|]|]; try discriminate.
  injection Hline as <- _.
  assert (Hk : keptBelow o (fun aabb _ => negb (intersects min max aabb)) 1
                 (v_code v)) by (apply Hin; apply in_map; exact Hv).
  destruct (keptBelow_cond _ _ _ _ Hk) as (b & Hbx & Hc).
  exists b. split; [exact Hbx|]. apply negb_true_iff. exact Hc.
Qed.

(** ** The queries on the two-point octree *)

Lemma aabbs_forallb (m : gmap Z AABB) (P : AABB -> bool) :
  forallb (fun kb => P (snd kb)) (map_to_list m) = true ->
  forall k b, m !! k = Some b -> P b = true.
Proof.
  intros Hall k b Hk. rewrite forallb_forall in Hall.
  apply (Hall (k, b)). apply list_elem_of_In, elem_of_map_to_list. exact Hk.
Qed.


Lemma pair_queries :
  exists o b,
    build 3 (emptyOctree 1 4) pairIndices pairVertices specRoot 1 = Some o
    /\ (forall k b', aabbs o !! k = Some b' ->
          Qltb (distanceToPointSq b' (vx pairQuery) (vy pairQuery) (vz pairQuery))
               MAX_VALUE = true)
    /\ aabbs o !! 120 = Some b
    /\ points o !! getLocCode b = Some (Some [0%N]).
Proof.
  eexists. eexists. split; [vm_compute; reflexivity|].
  split; [|split; vm_compute; reflexivity].
  apply (aabbs_forallb _ (fun b' =>
           Qltb (distanceToPointSq b' (vx pairQuery) (vy pairQuery) (vz pairQuery))
                MAX_VALUE)).
  vm_compute. reflexivity.
Qed.

Lemma pair_points_near p :
  In p pairIndices ->
  exists dp, vertexDistSq pairVertices pairQuery (N.to_nat (p * 3)) = Some dp
             /\ (dp < MAX_VALUE)%Q.
Proof.
  intros [<-|[<-|[]]]; eexists; (split; [vm_compute; reflexivity|]);
    apply Qltb_lt; vm_compute; reflexivity.
Qed.

Lemma getCenters_leaves_below_root_witness :
  exists o vs,
    build 3 (emptyOctree 1 4) pairIndices pairVertices specRoot 1 = Some o
    /\ getCenters 10 o None = Some (map (fun v => center (v_aabb v)) vs)
    /\ forall k, In k (visited vs)
         <-> k <> 1 /\ exists l, points o !! k = Some (Some l)
                                 /\ (orZero None < length l)%nat.
Proof.
  destruct pair_build as (o & Hb & _).
  assert (Hd : (4 <= 9)%nat) by lia.
  assert (Hf : (10 <= 10)%nat) by lia.
  destruct (getCenters_leaves_below_root 3 1 4 pairIndices pairVertices specRoot o
              None 10 Hd Hb Hf) as ((vs & Hc & _ & _ & Hin) & _).
  exists o, vs. split; [exact Hb|]. split; [exact Hc|exact Hin].
Defined.

Lemma getClosestBox_reaches_leaf_witness :
  exists o b l,
    build 3 (emptyOctree 1 4) pairIndices pairVertices specRoot 1 = Some o
    /\ getClosestBox 10 o pairQuery 0 1 = Some (Some b)
    /\ aabbs o !! getLocCode b = Some b
    /\ points o !! getLocCode b = Some (Some l).
Proof.
  destruct pair_queries as (o & _ & Hb & Hnear & _).
  assert (Hd : (4 <= 9)%nat) by lia.
  assert (Hf : (10 <= 10)%nat) by lia.
  destruct (getClosestBox_reaches_leaf 3 1 4 pairIndices pairVertices specRoot o
              pairQuery 0 10 Hd Hb Hf) as (b & Hbox & Hkey & Hleaf).
  destruct (Hleaf eq_refl (fun k b' H => proj1 (Qltb_lt _ _) (Hnear k b' H)))
    as (l & Hl).
  exists o, b, l. auto.
Defined.

Lemma getClosestPoint_nearest_in_leaf_witness :
  exists o v,
    build 3 (emptyOctree 1 4) pairIndices pairVertices specRoot 1 = Some o
    /\ getClosestPoint 10 o pairQuery pairVertices None None = Returns (Some v).
Proof.
  destruct pair_queries as (o & _ & Hb & Hnear & _).
  assert (Hd : (4 <= 9)%nat) by lia.
  assert (Hf : (10 <= 10)%nat) by lia.
  assert (Hne : pairIndices <> []) by discriminate.
  destruct (getClosestPoint_nearest_in_leaf 3 1 4 pairIndices pairVertices specRoot
              o pairQuery pairVertices 10 Hd Hb Hf Hne
              (fun k b' H => proj1 (Qltb_lt _ _) (Hnear k b' H))
              pair_points_near)
    as (b & l & p & v & dp & _ & _ & Hres & _).
  exists o, v. split; [exact Hb|exact Hres].
Defined.

Lemma getFarthestPoint_in_cell_witness :
  exists o r,
    build 3 (emptyOctree 1 4) pairIndices pairVertices specRoot 1 = Some o
    /\ getFarthestPoint 10 o (mkVector3f 1 1 1) pairVertices None (Some 120)
       = Returns r.
Proof.
  destruct pair_queries as (o & b & Hb & _ & Hbox & Hl).
  assert (Hc : 120 <> 0) by lia.
  destruct (getFarthestPoint_in_cell 10 o (mkVector3f 1 1 1) pairVertices None 120
              b [0%N] Hc Hbox Hl) as (r & Hr & _).
  exists o, r. split; [exact Hb|exact Hr].
Defined.

Lemma origin_in_specRoot : inBox specRoot origin.
Proof. unfold inBox, Qle. simpl. lia. Qed.

Lemma getFarthestPoint_without_code_inside_root_witness :
  exists o,
    build 3 (emptyOctree 1 4) pairIndices pairVertices specRoot 1 = Some o
    /\ getFarthestPoint 10 o origin pairVertices None None = Throws TypeError.
Proof.
  destruct pair_build as (o & Hb & _).
  assert (Hd : (4 <= 10)%nat) by lia.
  destruct (getFarthestPoint_without_code_inside_root 3 1 4 pairIndices
              pairVertices specRoot o origin pairVertices None 9 Hd Hb
              origin_in_specRoot) as (_ & Hthrow & _).
  exists o. split; [exact Hb|exact Hthrow].
Defined.



Lemma intersectBox_returns_nothing_witness :
  exists o log,
    build 3 (emptyOctree 1 4) pairIndices pairVertices specRoot 1 = Some o
    /\ intersectBox 10 o origin pairQuery = Some ([], LogBoxes (aabbs o) :: log).
Proof.
  destruct pair_build as (o & Hb & _).
  assert (Hd : (4 <= 9)%nat) by lia.
  assert (Hf : (10 <= 10)%nat) by lia.
  destruct (intersectBox_returns_nothing 3 1 4 pairIndices pairVertices specRoot o
              origin pairQuery 10 Hd Hb Hf) as (log & Hres & _).
  exists o, log. split; [exact Hb|exact Hres].
Defined.

(** ** Cloning *)



(** ** The cells and the indices of the neighbour search *)

(** X15. On an octree built from the root with a depth cap of at most 9,
    [getCellDistancesToPoint] returns (with fuel 10 or more), each once,
    exactly the codes other than the root and [locCode] that store at least
    one point, with one distance for each. *)
Theorem getCellDistancesToPoint_other_leaves (fuel0 t d : nat) (idx : list N)
    (vertices : list Q) (box : AABB) (o : Octree) (x y z : Q) (c : Z)
    (fuel : nat) :
  (d <= 9)%nat ->
  build fuel0 (emptyOctree t d) idx vertices box 1 = Some o ->
  (10 <= fuel)%nat ->
  exists ks ds,
    getCellDistancesToPoint fuel o x y z c = Returns (mkCellDists ks ds)
    /\ List.NoDup ks
    /\ length ds = length ks
    /\ forall k, In k ks
         <-> k <> 1 /\ k <> c
             /\ exists l, points o !! k = Some (Some l) /\ l <> [].
Proof.
  intros Hd Hb Hfuel.
  destruct (traverse_built fuel0 t d idx vertices box o fuel Hd Hb Hfuel)
    as (vs & Htr & Hnd & Hin & Hok).
  assert (Hchar : forall k, In k (visited (List.filter (isOtherCell c) vs))
            <-> k <> 1 /\ k <> c
                /\ exists l, points o !! k = Some (Some l) /\ l <> []).
  { intros k. unfold visited. rewrite in_map_iff.
    rewrite List.Forall_forall in Hok. split.
    - intros (v & <- & Hv). apply filter_In in Hv. destruct Hv as [Hv Hcell].
      destruct (Hok v Hv) as [Hp Ha].
      assert (Hk : In (v_code v) (visited vs)) by (apply in_map; exact Hv).
      apply Hin in Hk. destruct Hk as [_ Hne]. split; [exact Hne|].
      unfold isOtherCell in Hcell. rewrite Hp in Hcell.
      destruct (points o !! v_code v) as [[l|]|]; try discriminate.
      apply andb_true_iff in Hcell. destruct Hcell as [Hlen Hcode].
      split; [apply negb_true_iff, Z.eqb_neq in Hcode; exact Hcode|].
      exists l. split; [reflexivity|]. intros ->. discriminate.
    - intros (Hne1 & Hnec & l & Hl & Hnil).
      assert (Hk : In k (visited vs)).
      { apply Hin. split; [|exact Hne1].
        apply (build_points_key fuel0 t d idx vertices box o k Hb).
        rewrite Hl. eauto. }
      unfold visited in Hk. apply in_map_iff in Hk.
      destruct Hk as (v & Hcode & Hv). exists v. split; [exact Hcode|].
      apply filter_In. split; [exact Hv|].
      destruct (Hok v Hv) as [Hp _].
      unfold isOtherCell. rewrite Hp, Hcode, Hl.
      apply andb_true_iff. split.
      + destruct l; [contradiction|reflexivity].
      + apply negb_true_iff, Z.eqb_neq. exact Hnec. }
  destruct (cellDistanceList_keys o x y z
              (visited (List.filter (isOtherCell c) vs))) as (ds & Hds & Hlen).
  { intros k Hk. apply Hchar in Hk. destruct Hk as (_ & _ & l & Hl & _).
    apply (build_points_key fuel0 t d idx vertices box o k Hb).
    rewrite Hl. eauto. }
  exists (visited (List.filter (isOtherCell c) vs)), ds.
  split.
  { unfold getCellDistancesToPoint. rewrite Htr.
    change (map v_code (List.filter (isOtherCell c) vs))
      with (visited (List.filter (isOtherCell c) vs)).
    rewrite Hds. reflexivity. }
  split; [apply NoDup_map_filter; exact Hnd|]. split; [exact Hlen|exact Hchar].
Qed.

Lemma getCellDistancesToPoint_other_leaves_witness :
  exists o ks ds,
    build 3 (emptyOctree 1 4) pairIndices pairVertices specRoot 1 = Some o
    /\ getCellDistancesToPoint 10 o 1 1 1 120 = Returns (mkCellDists ks ds)
    /\ length ds = length ks.
Proof.
  destruct pair_build as (o & Hb & _).
  assert (Hd : (4 <= 9)%nat) by lia.
  assert (Hf : (10 <= 10)%nat) by lia.
  destruct (getCellDistancesToPoint_other_leaves 3 1 4 pairIndices pairVertices
              specRoot o 1 1 1 120 10 Hd Hb Hf) as (ks & ds & Hres & _ & Hlen & _).
  exists o, ks, ds. split; [exact Hb|]. split; [exact Hres|exact Hlen].
Defined.

Section KNNStored.

Variable radixSort : list (option Q) -> sortResult.
Variable o : Octree.

Lemma pointDistancesSq_stored x y z code positions pd :
  pointDistancesSq o x y z code positions = Returns pd ->
  Forall (stored o) (pd_indices pd).
Proof.
  unfold pointDistancesSq.
  destruct code as [c|]; simpl; [|discriminate].
  destruct (points o !! c) as [[l|]|] eqn:El; try discriminate.
  intros [= <-]. simpl. apply List.Forall_forall. intros i Hi.
  exists c, l. auto.
Qed.

Lemma pickIndex_stored pd sorted j :
  Forall (stored o) (pd_indices pd) ->
  pickIndex pd sorted j = 0%N \/ stored o (pickIndex pd sorted j).
Proof.
  intros Hpd. unfold pickIndex.
  destruct (s_indices sorted !! j) as [s|]; simpl; [|left; reflexivity].
  destruct (pd_indices pd !! s) as [v|] eqn:E; [|left; reflexivity].
  right. rewrite List.Forall_forall in Hpd. apply Hpd.
  apply list_elem_of_In. eapply list_elem_of_lookup_2. exact E.
Qed.

Lemma consume_stored k pd sorted bound js : forall st,
  Forall (stored o) (pd_indices pd) ->
  Forall (fun i => i = 0%N \/ stored o i) (indices st) ->
  Forall (fun i => i = 0%N \/ stored o i)
         (indices (consume k pd sorted bound js st)).
Proof.
  induction js as [|j js IH]; intros st Hpd Hst; [exact Hst|].
  simpl. destruct (indexCount st <? k)%nat; [|exact Hst].
  destruct (gtOpt _ bound); [exact Hst|].
  apply IH; [exact Hpd|]. simpl.
  apply Forall_insert; [exact Hst|]. apply pickIndex_stored. exact Hpd.
Qed.

Lemma cellLoop_stored k x y z positions cells sortedCells cellIdx :
  forall pd st res,
  Forall (stored o) (pd_indices pd) ->
  Forall (fun i => i = 0%N \/ stored o i) (indices st) ->
  cellLoop radixSort o k x y z positions cells sortedCells cellIdx pd st
  = Returns res ->
  Forall (fun i => i = 0%N \/ stored o i) res.
Proof.
  induction cellIdx as [|i cellIdx IH]; intros pd st res Hpd Hst Hres.
  - simpl in Hres. injection Hres as <-. exact Hst.
  - simpl in Hres.
    destruct (pointDistancesSq o x y z _ positions) as [newPd| |] eqn:Enew;
      simpl in Hres; try discriminate.
    pose proof (pointDistancesSq_stored _ _ _ _ _ _ Enew) as Hnew.
    assert (Hpd' : Forall (stored o) (pd_indices (mergePointDistances pd newPd))).
    { simpl. unfold concatTypedArrays. apply Forall_app. split; assumption. }
    match type of Hres with
    | context [consume ?k' ?pd' ?s ?b ?js st] =>
        pose proof (consume_stored k' pd' s b js st Hpd' Hst) as Hst'
    end.
    destruct (enough k positions _).
    + injection Hres as <-. exact Hst'.
    + exact (IH _ _ _ Hpd' Hst' Hres).
Qed.

End KNNStored.

(** X16. Whenever [kNearestNeighbours] returns on a built octree, whatever
    the sort and the depth cap, every entry of its result is 0 or one of the
    input indices of the build. *)
Theorem kNearestNeighbours_stored_indices
    (radixSort : list (option Q) -> sortResult) (fuel0 t d : nat)
    (idx : list N) (vertices : list Q) (box : AABB) (o : Octree) (fuel k : nat)
    (point : knnPoint) (code : option Z) (positions : list Q) (res : list N) :
  build fuel0 (emptyOctree t d) idx vertices box 1 = Some o ->
  kNearestNeighbours radixSort fuel o k point code positions = Returns res ->
  Forall (fun i => i = 0%N \/ In i idx) res.
Proof.
  intros Hb Hres.
  assert (Hall : Forall (fun i => i = 0%N \/ stored o i) res).
  { unfold kNearestNeighbours in Hres.
    destruct point as [p|x y z]; [discriminate|].
    match type of Hres with
    | andThen ?m _ = _ => destruct m as [c| |]; simpl in Hres; try discriminate
    end.
    destruct (getCellDistancesToPoint fuel o x y z c) as [cells| |];
      simpl in Hres; try discriminate.
    destruct (pointDistancesSq o x y z (Some c) positions) as [pd| |] eqn:Epd;
      simpl in Hres; try discriminate.
    pose proof (pointDistancesSq_stored _ _ _ _ _ _ _ Epd) as Hpd.
    assert (Hinit : Forall (fun i => i = 0%N \/ stored o i)
                      (indices (mkKnnState (replicate (S k) 0%N) 0 0))).
    { cbn [indices]. apply List.Forall_forall. intros i Hi. left.
      apply list_elem_of_In, elem_of_replicate in Hi. tauto. }
    match type of Hres with
    | context [consume ?k' ?pd' ?s ?b ?js ?st] =>
        pose proof (consume_stored o k' pd' s b js st Hpd Hinit) as Hst
    end.
    destruct (Nat.eqb _ (S k)).
    - injection Hres as <-. exact Hst.
    - exact (cellLoop_stored radixSort o _ _ _ _ _ _ _ _ _ _ _ Hpd Hst Hres). }
  eapply List.Forall_impl; [|exact Hall].
  intros i [->|(c & l & Hl & Hi)]; [left; reflexivity|right].
  exact (proj1 (build_stored_points fuel0 t d idx vertices box o c l Hb Hl) i Hi).
Qed.

Lemma kNearestNeighbours_stored_indices_witness :
  exists o,
    build 3 (Octree_new 1 4) pairIndices pairVertices specRoot 1 = Some o
    /\ Forall (fun i => i = 0%N \/ In i pairIndices) [0; 1; 0; 0]%N.
Proof.
  destruct pair_build as (o & Hb & _ & _ & _ & Hknn & _).
  exists o. split; [exact Hb|].
  exact (kNearestNeighbours_stored_indices radixSortModel 3 1 4 pairIndices
           pairVertices specRoot o 10 3 (PointCoords 1 1 1) None pairVertices
           [0; 1; 0; 0]%N Hb Hknn).
Defined.

(** ** Event listeners *)

Section ListenerFacts.

Variable H : Type.
Context `{EqDecision H}.

Lemma indexOf_app_fresh (l : list H) (x : H) :
  ~ In x l -> ControlsBase.indexOf H (l ++ [x]) x = Some (length l).
Proof.
  induction l as [|y l IH]; intros Hni; simpl.
  - destruct (decide (x = x)); [reflexivity|congruence].
  - destruct (decide (y = x)) as [->|Hne]; [exfalso; apply Hni; left; reflexivity|].
    rewrite IH by (intros Hin; apply Hni; right; exact Hin). reflexivity.
Qed.

Lemma indexOf_None (l : list H) (x : H) :
  ~ In x l -> ControlsBase.indexOf H l x = None.
Proof.
  induction l as [|y l IH]; intros Hni; simpl; [reflexivity|].
  destruct (decide (y = x)) as [->|Hne]; [exfalso; apply Hni; left; reflexivity|].
  rewrite IH by (intros Hin; apply Hni; right; exact Hin). reflexivity.
Qed.

Lemma delete_app_last (l : list H) (x : H) : delete (length l) (l ++ [x]) = l.
Proof. induction l as [|y l IH]; simpl; [reflexivity|]. f_equal. exact IH. Qed.

Lemma addEventListener_lookup (ls : gmap string (list H)) e h e' :
  ControlsBase.addEventListener H ls e h !! e'
  = if decide (e = e') then Some (default [] (ls !! e) ++ [h]) else ls !! e'.
Proof.
  unfold ControlsBase.addEventListener. cbv zeta.
  destruct (ls !! e) as [l|] eqn:E.
  - rewrite E. destruct (decide (e = e')) as [<-|Hne].
    + rewrite lookup_insert_eq. reflexivity.
    + rewrite lookup_insert_ne by exact Hne. reflexivity.
  - rewrite lookup_insert_eq. destruct (decide (e = e')) as [<-|Hne].
    + rewrite lookup_insert_eq. reflexivity.
    + rewrite !lookup_insert_ne by exact Hne. reflexivity.
Qed.


(** Removing a callback that is not registered for the event changes no
    call. *)
Lemma raiseEvent_remove_absent {D : Type} (ls : gmap string (list H)) e h e'
    (data : D) :
  (forall l, ls !! e = Some l -> ~ In h l) ->
  ControlsBase.raiseEvent H (ControlsBase.removeEventListener H ls e h) e' data
  = ControlsBase.raiseEvent H ls e' data.
Proof.
  intros Hni. unfold ControlsBase.removeEventListener.
  destruct (ls !! e) as [l|] eqn:E; [|reflexivity].
  rewrite (indexOf_None l h (Hni l eq_refl)). reflexivity.
Qed.


End ListenerFacts.


Section HandlerFacts.

Variable H : Type.
Context `{EqDecision H}.

Lemma removeEventListener_lookup (ls : gmap string (list H)) e h e' :
  ControlsBase.removeEventListener H ls e h !! e'
  = if decide (e = e') then (fun l => removeFirst l h) <$> ls !! e else ls !! e'.
Proof.
  unfold ControlsBase.removeEventListener, removeFirst.
  destruct (decide (e = e')) as [<-|Hne].
  - destruct (ls !! e) as [l|] eqn:E; [|rewrite E; reflexivity].
    destruct (ControlsBase.indexOf H l h) eqn:Ei; simpl; rewrite Ei.
    + rewrite lookup_insert_eq. reflexivity.
    + exact E.
  - destruct (ls !! e) as [l|]; [|reflexivity].
    destruct (ControlsBase.indexOf H l h); [|reflexivity].
    rewrite lookup_insert_ne by exact Hne. reflexivity.
Qed.

Lemma removeEventListener_lookup_eq (ls : gmap string (list H)) e h :
  ControlsBase.removeEventListener H ls e h !! e
  = (fun l => removeFirst l h) <$> ls !! e.
Proof.
  rewrite removeEventListener_lookup. destruct (decide (e = e)); congruence.
Qed.

Lemma removeEventListener_lookup_ne (ls : gmap string (list H)) e h e' :
  e <> e' -> ControlsBase.removeEventListener H ls e h !! e' = ls !! e'.
Proof.
  intros Hne. rewrite removeEventListener_lookup.
  destruct (decide (e = e')); congruence.
Qed.

Lemma addEventListener_lookup_eq (ls : gmap string (list H)) e h :
  ControlsBase.addEventListener H ls e h !! e
  = Some (default [] (ls !! e) ++ [h]).
Proof.
  rewrite addEventListener_lookup. destruct (decide (e = e)); congruence.
Qed.

Lemma addEventListener_lookup_ne (ls : gmap string (list H)) e h e' :
  e <> e' -> ControlsBase.addEventListener H ls e h !! e' = ls !! e'.
Proof.
  intros Hne. rewrite addEventListener_lookup.
  destruct (decide (e = e')); congruence.
Qed.

Lemma removeFirst_fresh (l : list H) h : ~ In h l -> removeFirst (l ++ [h]) h = l.
Proof.
  intros Hni. unfold removeFirst.
  rewrite (indexOf_app_fresh H l h Hni). apply delete_app_last.
Qed.

Lemma removeFirst_absent (l : list H) h : ~ In h l -> removeFirst l h = l.
Proof. intros Hni. unfold removeFirst. rewrite (indexOf_None H l h Hni). reflexivity. Qed.

End HandlerFacts.

(** X18. [destruct] removes the double-click handler from the click
    event: after the constructor's registrations and [destruct], with
    handlers that were not registered before, the click event still calls
    the click handler of the helper after the earlier listeners, while every
    other event calls the listeners it called before the constructor. *)
Theorem destruct_keeps_click_handler (H D : Type) `{EqDecision H}
    (controls : gmap string (list H)) (h : OctreeHelper.handlers H) (data : D) :
  OctreeHelper._clickHandler H h <> OctreeHelper._dblclickHandler H h ->
  unregistered controls (OctreeHelper._dblclickHandler H h) ->
  unregistered controls (OctreeHelper._mousemoveHandler H h) ->
  unregistered controls (OctreeHelper._updatedHandler H h) ->
  let after := OctreeHelper.destruct H (OctreeHelper.constructor H controls h) h in
  ControlsBase.raiseEvent H after "click" data
  = ControlsBase.raiseEvent H controls "click" data
    ++ [(OctreeHelper._clickHandler H h, data)]
  /\ forall eventName, eventName <> "click" ->
       ControlsBase.raiseEvent H after eventName data
       = ControlsBase.raiseEvent H controls eventName data.
Proof.
  intros Hne Hdbl Hmm Hup after.
  assert (Hfresh : forall x e, unregistered controls x ->
            ~ In x (default [] (controls !! e))).
  { intros x e Hx. destruct (controls !! e) as [l|] eqn:E; [exact (Hx e l E)|].
    intros []. }
  assert (Hcalls : forall e l,
            after !! e = Some (default [] (controls !! e) ++ l) ->
            ControlsBase.raiseEvent H after e data
            = ControlsBase.raiseEvent H controls e data
              ++ map (fun callback => (callback, data)) l).
  { intros e l Hl. unfold ControlsBase.raiseEvent. rewrite Hl, map_app.
    destruct (controls !! e); reflexivity. }
  unfold OctreeHelper.destruct, OctreeHelper.constructor in after. cbv zeta in after.
  split.
  - apply (Hcalls "click" [OctreeHelper._clickHandler H h]). unfold after.
    rewrite !removeEventListener_lookup_ne by discriminate.
    rewrite removeEventListener_lookup_eq.
    rewrite !addEventListener_lookup_ne by discriminate.
    rewrite addEventListener_lookup_eq. simpl. f_equal.
    apply removeFirst_absent.
    intros Hin. apply in_app_or in Hin.
    destruct Hin as [Hin|[E|[]]]; [exact (Hfresh _ _ Hdbl Hin)|congruence].
  - intros e He.
    destruct (decide (e = "dblclick")) as [->|H1];
      [|destruct (decide (e = "mousemove")) as [->|H2];
        [|destruct (decide (e = "updated")) as [->|H3]]].
    + rewrite (Hcalls "dblclick" []); [apply app_nil_r|]. unfold after.
      rewrite !removeEventListener_lookup_ne by discriminate.
      rewrite removeEventListener_lookup_eq.
      rewrite removeEventListener_lookup_ne by discriminate.
      rewrite !addEventListener_lookup_ne by discriminate.
      rewrite addEventListener_lookup_eq.
      rewrite addEventListener_lookup_ne by discriminate.
      simpl. f_equal. rewrite app_nil_r.
      apply removeFirst_fresh, Hfresh, Hdbl.
    + rewrite (Hcalls "mousemove" []); [apply app_nil_r|]. unfold after.
      rewrite removeEventListener_lookup_ne by discriminate.
      rewrite removeEventListener_lookup_eq.
      rewrite !removeEventListener_lookup_ne by discriminate.
      rewrite addEventListener_lookup_ne by discriminate.
      rewrite addEventListener_lookup_eq.
      rewrite !addEventListener_lookup_ne by discriminate.
      simpl. f_equal. rewrite app_nil_r.
      apply removeFirst_fresh, Hfresh, Hmm.
    + rewrite (Hcalls "updated" []); [apply app_nil_r|]. unfold after.
      rewrite removeEventListener_lookup_eq.
      rewrite !removeEventListener_lookup_ne by discriminate.
      rewrite addEventListener_lookup_eq.
      rewrite !addEventListener_lookup_ne by discriminate.
      simpl. f_equal. rewrite app_nil_r.
      apply removeFirst_fresh, Hfresh, Hup.
    + unfold ControlsBase.raiseEvent, after.
      rewrite !removeEventListener_lookup_ne by congruence.
      rewrite !addEventListener_lookup_ne by congruence.
      reflexivity.
Qed.

(** ** Selection *)

Section SelectionFacts.

Variable Screen : Type.
Variable sceneToScreen : list (option Q) -> Screen.

Local Abbreviation helper := (OctreeHelper.helper Screen).
Local Abbreviation selected := (OctreeHelper.selected Screen).
Local Abbreviation multiSelect := (OctreeHelper.multiSelect Screen).
Local Abbreviation i_index := (OctreeHelper.i_index Screen).

Lemma selectedContains_In (h : helper) index :
  OctreeHelper.selectedContains Screen h index = true
  <-> In index (selectedIndices Screen h).
Proof.
  unfold OctreeHelper.selectedContains, selectedIndices.
  rewrite existsb_exists, in_map_iff. split.
  - intros (it & Hit & E). apply N.eqb_eq in E. eauto.
  - intros (it & E & Hit). exists it. split; [exact Hit|]. apply N.eqb_eq. exact E.
Qed.

Lemma addSelected_ok now (h h' : helper) arg :
  selectionOk Screen h ->
  OctreeHelper.addSelected Screen sceneToScreen now h arg = Returns h' ->
  selectionOk Screen h' /\ multiSelect h' = multiSelect h.
Proof.
  intros [Hnd Hone] Hres. unfold OctreeHelper.addSelected in Hres.
  match type of Hres with
  | andThen ?m _ = _ => destruct m as [it| |]; simpl in Hres; try discriminate
  end.
  destruct (OctreeHelper.selectedContains Screen h (i_index it)) eqn:Hc.
  - injection Hres as <-. split; [split; assumption|reflexivity].
  - injection Hres as <-. split; [|reflexivity].
    assert (Hni : ~ In (i_index it) (selectedIndices Screen h)).
    { intros Hin. apply selectedContains_In in Hin. congruence. }
    unfold selectionOk, selectedIndices in *. simpl.
    destruct (multiSelect h) eqn:Hm.
    + split; [|discriminate]. rewrite map_app. simpl.
      apply NoDup_ListNoDup, NoDup_app. split; [apply NoDup_ListNoDup; exact Hnd|].
      split; [|apply NoDup_singleton].
      intros x Hx Hx'. apply list_elem_of_In in Hx.
      apply list_elem_of_singleton in Hx'. subst x. contradiction.
    + specialize (Hone eq_refl).
      destruct (selected h) as [|it0 rest]; simpl in *.
      * split; [repeat constructor; intros []|lia].
      * destruct rest; [|simpl in Hone; lia].
        split; [repeat constructor; intros []|simpl; lia].
Qed.

Lemma splice1_sublist {A : Type} (l : list A) index :
  sublist (OctreeHelper.splice1 l index) l.
Proof. unfold OctreeHelper.splice1. apply sublist_delete. Qed.

Lemma step_ok (h h' : helper) (a : action Screen) :
  selectionOk Screen h -> step Screen sceneToScreen h a = Returns h' ->
  selectionOk Screen h' /\ multiSelect h' = multiSelect h.
Proof.
  intros Hok Hres. destruct a as [now arg|index| |index|now]; simpl in Hres.
  - exact (addSelected_ok now h h' arg Hok Hres).
  - injection Hres as <-. split; [|reflexivity]. destruct Hok as [Hnd Hone].
    pose proof (splice1_sublist (selected h) index) as Hsub.
    unfold selectionOk, selectedIndices. simpl. split.
    + apply NoDup_ListNoDup.
      eapply sublist_NoDup; [apply NoDup_ListNoDup; exact Hnd|].
      apply (fmap_sublist i_index). exact Hsub.
    + intros Hm. apply sublist_length in Hsub. specialize (Hone Hm). lia.
  - injection Hres as <-. split; [|reflexivity].
    unfold selectionOk, selectedIndices. simpl. split; [constructor|lia].
  - injection Hres as <-. split.
    + unfold OctreeHelper.setHovered. cbv zeta.
      destruct (match OctreeHelper.hovered Screen h with
                | Some it => (i_index it =? index)%N
                | None => false
                end); exact Hok.
    + unfold OctreeHelper.setHovered. cbv zeta.
      destruct (match OctreeHelper.hovered Screen h with
                | Some it => (i_index it =? index)%N
                | None => false
                end); reflexivity.
  - unfold OctreeHelper.selectHovered in Hres.
    destruct (OctreeHelper.hovered Screen h) as [it|].
    + destruct (OctreeHelper.selectedContains Screen h (i_index it)).
      * injection Hres as <-. split; [exact Hok|reflexivity].
      * exact (addSelected_ok now h h' _ Hok Hres).
    + injection Hres as <-. split; [exact Hok|reflexivity].
Qed.

Lemma run_ok actions : forall (h h' : helper),
  selectionOk Screen h -> run Screen sceneToScreen h actions = Returns h' ->
  selectionOk Screen h' /\ multiSelect h' = multiSelect h.
Proof.
  induction actions as [|a rest IH]; intros h h' Hok Hres.
  - simpl in Hres. injection Hres as <-. split; [exact Hok|reflexivity].
  - simpl in Hres.
    destruct (step Screen sceneToScreen h a) as [h1| |] eqn:E;
      simpl in Hres; try discriminate.
    destruct (step_ok h h1 a Hok E) as [Hok1 Hm1].
    destruct (IH h1 h' Hok1 Hres) as [Hok' Hm']. split; [exact Hok'|congruence].
Qed.

End SelectionFacts.

(** X19. From the empty selection of the constructor, after any calls of
    [addSelected], [removeSelected], [clearSelected], [setHovered] and
    [selectHovered] that return, no two selected items have the same vertex
    index, and with [multiSelect] off at most one item is selected. *)
Theorem selection_indices_distinct (Screen : Type)
    (sceneToScreen : list (option Q) -> Screen)
    (h h' : OctreeHelper.helper Screen) (actions : list (action Screen)) :
  OctreeHelper.selected Screen h = [] ->
  run Screen sceneToScreen h actions = Returns h' ->
  List.NoDup (selectedIndices Screen h')
  /\ (OctreeHelper.multiSelect Screen h = false ->
      (length (OctreeHelper.selected Screen h') <= 1)%nat).
Proof.
  intros Hempty Hrun.
  assert (Hok : selectionOk Screen h).
  { unfold selectionOk, selectedIndices. rewrite Hempty. simpl.
    split; [constructor|lia]. }
  destruct (run_ok Screen sceneToScreen actions h h' Hok Hrun) as [[Hnd Hone] Hm].
  split; [exact Hnd|]. intros Hms. apply Hone. congruence.
Qed.

(** X20. [selectHovered] after [setHovered(index)] returns with the
    vertex [index] hovered and selected; when it was selected before, the
    selection is unchanged. *)
Theorem selectHovered_after_setHovered (Screen : Type)
    (sceneToScreen : list (option Q) -> Screen)
    (h : OctreeHelper.helper Screen) (index : N) (now : Z) :
  exists h',
    OctreeHelper.selectHovered Screen sceneToScreen now
      (OctreeHelper.setHovered Screen sceneToScreen h index) = Returns h'
    /\ OctreeHelper.selectedContains Screen h' index = true
    /\ (exists it, OctreeHelper.hovered Screen h' = Some it
                   /\ OctreeHelper.i_index Screen it = index)
    /\ (OctreeHelper.selectedContains Screen h index = true ->
        OctreeHelper.selected Screen h' = OctreeHelper.selected Screen h).
Proof.
  set (h1 := OctreeHelper.setHovered Screen sceneToScreen h index).
  assert (Hh1 : OctreeHelper.selected Screen h1 = OctreeHelper.selected Screen h
                /\ OctreeHelper.multiSelect Screen h1
                   = OctreeHelper.multiSelect Screen h
                /\ exists it, OctreeHelper.hovered Screen h1 = Some it
                              /\ OctreeHelper.i_index Screen it = index).
  { unfold h1, OctreeHelper.setHovered. cbv zeta.
    destruct (OctreeHelper.hovered Screen h) as [it|] eqn:Eh.
    - destruct (OctreeHelper.i_index Screen it =? index)%N eqn:E.
      + split; [reflexivity|]. split; [reflexivity|].
        exists it. split; [exact Eh|]. apply N.eqb_eq. exact E.
      + simpl. eauto.
    - simpl. eauto. }
  destruct Hh1 as (Hsel & Hms & it & Hhov & Hidx).
  assert (Hcontains : forall x,
            OctreeHelper.selectedContains Screen h1 x
            = OctreeHelper.selectedContains Screen h x).
  { intros x. unfold OctreeHelper.selectedContains. rewrite Hsel. reflexivity. }
  unfold OctreeHelper.selectHovered. rewrite Hhov, Hidx, Hcontains.
  destruct (OctreeHelper.selectedContains Screen h index) eqn:Hc.
  - exists h1. split; [reflexivity|]. rewrite Hcontains.
    split; [exact Hc|]. split; [eauto|]. intros _. exact Hsel.
  - unfold OctreeHelper.addSelected. simpl. rewrite Hcontains, Hc.
    eexists. split; [reflexivity|].
    split; [|split; [simpl; rewrite Hhov; eauto|discriminate]].
    unfold OctreeHelper.selectedContains. simpl. apply existsb_exists.
    eexists. split.
    { destruct (OctreeHelper.multiSelect Screen h1).
      - apply in_or_app. right. left. reflexivity.
      - destruct (OctreeHelper.selected Screen h1); left; reflexivity. }
    simpl. apply N.eqb_refl.
Qed.

(** ** Joined helpers *)

Lemma combine_seq_snoc {A : Type} (l : list A) (x : A) : forall a,
  combine (seq a (length (l ++ [x]))) (l ++ [x])
  = combine (seq a (length l)) l ++ [((a + length l)%nat, x)].
Proof.
  induction l as [|y l IH]; intros a; simpl.
  - rewrite Nat.add_0_r. reflexivity.
  - rewrite IH. replace (S a + length l)%nat with (a + S (length l))%nat by lia.
    reflexivity.
Qed.

Lemma joinHoveredChanged_snoc (Screen : Type)
    (l : list (option (OctreeHelper.item Screen))) x :
  OctreeHelper.joinHoveredChanged Screen (l ++ [x])
  = match x with
    | Some it => (Some it, Some (length l))
    | None => OctreeHelper.joinHoveredChanged Screen l
    end.
Proof.
  unfold OctreeHelper.joinHoveredChanged.
  rewrite combine_seq_snoc, fold_left_app. simpl. reflexivity.
Qed.

(** X21. The listener of [joinHoveredChanged] reports the hovered item
    of the last helper that has one, with its position as the source, and
    null for both when no helper has a hovered item. *)
Theorem joinHoveredChanged_last_hovered (Screen : Type)
    (helpers : list (option (OctreeHelper.item Screen))) :
  match OctreeHelper.joinHoveredChanged Screen helpers with
  | (Some it, Some j) =>
      helpers !! j = Some (Some it)
      /\ forall j', (j < j')%nat -> (j' < length helpers)%nat ->
           helpers !! j' = Some None
  | (None, None) => Forall (fun h => h = None) helpers
  | _ => False
  end.
Proof.
  induction helpers as [|x l IH] using rev_ind.
  - simpl. constructor.
  - rewrite joinHoveredChanged_snoc. destruct x as [it|].
    + split.
      * rewrite lookup_app_r by lia. rewrite Nat.sub_diag. reflexivity.
      * intros j' H1 H2. rewrite length_app in H2. simpl in H2. lia.
    + destruct (OctreeHelper.joinHoveredChanged Screen l) as [[it|] [j|]];
        try contradiction.
      * destruct IH as [Hj Hlater].
        assert (Hjl : (j < length l)%nat) by (eapply lookup_lt_Some; exact Hj).
        split; [rewrite lookup_app_l by exact Hjl; exact Hj|].
        intros j' H1 H2. rewrite length_app in H2. simpl in H2.
        destruct (Nat.eq_dec j' (length l)) as [->|Hne].
        -- rewrite lookup_app_r by lia. rewrite Nat.sub_diag. reflexivity.
        -- rewrite lookup_app_l by lia. apply Hlater; lia.
      * apply Forall_app. split; [exact IH|]. repeat constructor.
Qed.

(** ** Ray intersections *)

(** The callback arguments of [traverseIf] are the entries of the two maps,
    on every octree. *)
Lemma traverseIf_visitOk o cond : forall fuel c vs,
  traverseIf fuel o cond c = Some vs -> Forall (visitOk o) vs.
Proof.
  induction fuel as [|fuel IH]; intros c vs Hres; [discriminate|].
  simpl in Hres. rewrite forOctants_fold in Hres.
  match type of Hres with
  | fold_left ?f _ _ = _ => set (body := f) in Hres
  end.
  assert (Hloop : forall l vs0 vs1,
            Forall (visitOk o) vs0 ->
            fold_left body l (Some vs0) = Some vs1 -> Forall (visitOk o) vs1).
  { induction l as [|i l IHl]; intros vs0 vs1 Hok Hfold; cbn [fold_left] in Hfold.
    - injection Hfold as <-. exact Hok.
    - unfold body at 2 in Hfold. cbv zeta in Hfold.
      destruct (aabbs o !! childCode c i) as [b|] eqn:Hb; [|eauto].
      destruct (cond b (childCode c i)); [|eauto].
      destruct (traverseIf fuel o cond (childCode c i)) as [sub|] eqn:Hsub.
      + eapply IHl; [|exact Hfold].
        apply Forall_app. split; [exact Hok|].
        constructor; [split; [reflexivity|exact Hb]|].
        exact (IH _ _ Hsub).
      + unfold body in Hfold. rewrite fold_option_None in Hfold. discriminate. }
  exact (Hloop octants [] vs (Forall_nil_2 _) Hres).
Qed.

Lemma raySearch_hits_stored cylinderTest inverseDirection fuel o rc tmp :
  raySearch cylinderTest inverseDirection fuel o rc = Some tmp ->
  Forall (hitStored o) tmp.
Proof.
  unfold raySearch. intros Hres.
  destruct (traverseIf fuel o _ 1) as [vs|] eqn:Htr; [|discriminate].
  injection Hres as <-.
  assert (Hhits : forall pts code,
            pts = points o !! code -> Forall (hitStored o) (hitsOf pts code)).
  { intros pts code ->. unfold hitsOf.
    destruct (points o !! code) as [[l|]|] eqn:El; try constructor.
    apply List.Forall_forall. intros c Hc. apply in_map_iff in Hc.
    destruct Hc as (p & <- & Hp). exists l. simpl. auto. }
  apply Forall_app. split; [apply Hhits; reflexivity|].
  pose proof (traverseIf_visitOk _ _ _ _ _ Htr) as Hok.
  apply List.Forall_forall. intros c Hc. apply in_flat_map in Hc.
  destruct Hc as (v & Hv & Hc). rewrite List.Forall_forall in Hok.
  destruct (Hok v Hv) as [Hp _].
  pose proof (Hhits (v_points v) (v_code v) Hp) as Hall.
  rewrite List.Forall_forall in Hall. exact (Hall c Hc).
Qed.

Section IntersectionFacts.

Variable Screen : Type.
Variables rayPointDistanceSq sourceDistance : list (option Q) -> option Q.

Local Abbreviation rayIntersections :=
  (OctreeHelper.rayIntersections Screen rayPointDistanceSq sourceDistance).

(** Every item comes from a candidate, with its index and its code. *)
Lemma rayIntersections_candidates g rc near pointScale cutoff indices :
  forall res,
  rayIntersections g rc near pointScale cutoff indices = Returns res ->
  Forall (fun it => exists c, In c indices
            /\ OctreeHelper.i_index Screen it = h_index c
            /\ OctreeHelper.i_locCode Screen it = Some (h_locCode c)) res
  /\ (length res <= length indices)%nat.
Proof.
  induction indices as [|c rest IH]; intros res Hres; simpl in Hres.
  - injection Hres as <-. split; [constructor|simpl; lia].
  - assert (Hrest : forall r,
              rayIntersections g rc near pointScale cutoff rest = Returns r ->
              Forall (fun it => exists c', In c' (c :: rest)
                        /\ OctreeHelper.i_index Screen it = h_index c'
                        /\ OctreeHelper.i_locCode Screen it = Some (h_locCode c')) r
              /\ (length r <= length (c :: rest))%nat).
    { intros r Hr. destruct (IH r Hr) as [Hall Hlen]. split; [|simpl; lia].
      eapply List.Forall_impl; [|exact Hall].
      intros it (c' & Hc' & H). exists c'. split; [right; exact Hc'|exact H]. }
    destruct (OctreeHelper.ltNum _ _); [|exact (Hrest res Hres)].
    destruct (FilterBase.isVisible g (h_index c)) as [vis| |];
      simpl in Hres; try discriminate.
    destruct (_ || negb vis); [exact (Hrest res Hres)|].
    destruct (rayIntersections g rc near pointScale cutoff rest) as [r| |] eqn:Er;
      simpl in Hres; try discriminate.
    injection Hres as <-. destruct (Hrest r eq_refl) as [Hall _].
    destruct (IH r eq_refl) as [_ Hlen].
    split; [|simpl; lia].
    constructor; [|exact Hall]. exists c. simpl. auto.
Qed.

Lemma insertByDistance_perm x l :
  Permutation (OctreeHelper.insertByDistance Screen x l) (x :: l).
Proof.
  induction l as [|y l IH]; simpl; [reflexivity|].
  destruct (OctreeHelper.distanceLe Screen y x); [|reflexivity].
  rewrite IH. apply perm_swap.
Qed.

Lemma sortByDistance_perm l : Permutation (OctreeHelper.sortByDistance Screen l) l.
Proof.
  unfold OctreeHelper.sortByDistance.
  assert (H : forall acc,
            Permutation (fold_left (fun acc x =>
                           OctreeHelper.insertByDistance Screen x acc) l acc)
                        (acc ++ l)).
  { induction l as [|x l IH]; intros acc; simpl.
    - rewrite app_nil_r. reflexivity.
    - rewrite IH, insertByDistance_perm. apply Permutation_middle. }
  exact (H []).
Qed.

End IntersectionFacts.

(** X22. Whenever [getIntersections] returns, on any octree and with any
    cylinder test and ray computations, every item of its result is a point
    of the octree: its index is stored in the node named by its location
    code. *)
Theorem getIntersections_octree_points (Screen : Type)
    (rayPointDistanceSq sourceDistance : list (option Q) -> option Q)
    (cylinderTest : AABB -> Vector3f -> Vector3f -> Q -> Q -> bool)
    (inverseDirection : Vector3f -> Vector3f) (fuel : nat) (o : Octree)
    (g : geometry) (rc : Raycaster) (near pointScale cutoff : Q)
    (res : list (OctreeHelper.item Screen)) :
  OctreeHelper.getIntersections Screen rayPointDistanceSq sourceDistance
    cylinderTest inverseDirection fuel o g rc near pointScale cutoff
  = Returns res ->
  Forall (fun it => exists code l,
            OctreeHelper.i_locCode Screen it = Some code
            /\ points o !! code = Some (Some l)
            /\ In (OctreeHelper.i_index Screen it) l) res.
Proof.
  unfold OctreeHelper.getIntersections. intros Hres.
  destruct (raySearch cylinderTest inverseDirection fuel o rc) as [tmp|] eqn:Hrs;
    [|discriminate].
  destruct (OctreeHelper.rayIntersections Screen rayPointDistanceSq sourceDistance
              g rc near pointScale cutoff tmp) as [r| |] eqn:Hri;
    simpl in Hres; try discriminate.
  injection Hres as <-.
  pose proof (raySearch_hits_stored _ _ _ _ _ _ Hrs) as Hstored.
  destruct (rayIntersections_candidates _ _ _ _ _ _ _ _ _ _ Hri) as [Hcand _].
  rewrite List.Forall_forall in *. intros it Hit.
  apply (Permutation_in _ (sortByDistance_perm Screen r)) in Hit.
  destruct (Hcand it Hit) as (c & Hc & Hidx & Hcode).
  destruct (Hstored c Hc) as (l & Hl & Hin).
  exists (h_locCode c), l. rewrite Hidx. auto.
Qed.

(** X23. With color data, [rayIntersections] returns, and every item it
    returns carries the color entries of its vertex and is visible for
    [FilterBase.isVisible]. Without a color attribute, or without its data,
    it throws a TypeError as soon as one candidate lies within the threshold
    of the ray, and returns the empty array otherwise. *)
Theorem rayIntersections_color_attribute (Screen : Type)
    (rayPointDistanceSq sourceDistance : list (option Q) -> option Q)
    (g : geometry) (rc : Raycaster) (near pointScale cutoff : Q)
    (indices : list hit) :
  match g_color g with
  | Some (Some data) =>
      exists res,
        OctreeHelper.rayIntersections Screen rayPointDistanceSq sourceDistance
          g rc near pointScale cutoff indices = Returns res
        /\ Forall (fun it =>
                     OctreeHelper.i_color Screen it
                     = Some (triple data
                               (N.to_nat (OctreeHelper.i_index Screen it * 3)))
                     /\ FilterBase.isVisible g (OctreeHelper.i_index Screen it)
                        = Returns true) res
  | _ =>
      OctreeHelper.rayIntersections Screen rayPointDistanceSq sourceDistance
        g rc near pointScale cutoff indices
      = if existsb
             (fun c =>
                OctreeHelper.ltNum
                  (rayPointDistanceSq
                     (triple (g_position g) (N.to_nat (h_index c * 3))))
                  (rc_threshold rc * pointScale * (rc_threshold rc * pointScale)))
             indices
        then Throws TypeError
        else Returns []
  end.
Proof.
  destruct (g_color g) as [[data|]|] eqn:Ec.
  - induction indices as [|c rest (res & Hres & Hall)]; simpl.
    + exists []. split; [reflexivity|constructor].
    + destruct (OctreeHelper.ltNum _ _); [|eauto].
      unfold FilterBase.isVisible at 1. rewrite Ec. simpl.
      destruct (data !! N.to_nat (h_index c * 3 + 2)) as [blue|] eqn:Eb.
      * destruct (_ || negb (Qltb 0 blue)) eqn:Etest; [eauto|].
        rewrite Hres. simpl. eexists. split; [reflexivity|].
        constructor; [|exact Hall]. simpl. rewrite ?Ec. simpl.
        split; [reflexivity|].
        unfold FilterBase.isVisible. rewrite ?Ec, Eb.
        apply orb_false_iff in Etest. destruct Etest as [_ Hv].
        apply negb_false_iff in Hv. rewrite Hv. reflexivity.
      * rewrite orb_true_r. eauto.
  - induction indices as [|c rest IH]; simpl; [reflexivity|].
    destruct (OctreeHelper.ltNum _ _); simpl; [|exact IH].
    unfold FilterBase.isVisible. rewrite Ec. reflexivity.
  - induction indices as [|c rest IH]; simpl; [reflexivity|].
    destruct (OctreeHelper.ltNum _ _); simpl; [|exact IH].
    unfold FilterBase.isVisible. rewrite Ec. reflexivity.
Qed.

(** ** The properties at concrete inputs *)


Lemma destruct_keeps_click_handler_witness :
  let h := OctreeHelper.mkHandlers nat 1%nat 2%nat 3%nat 4%nat in
  ControlsBase.raiseEvent nat
    (OctreeHelper.destruct nat (OctreeHelper.constructor nat ∅ h) h) "click" tt
  = ControlsBase.raiseEvent nat ∅ "click" tt ++ [(1%nat, tt)].
Proof.
  intros h.
  assert (Hfresh : forall x : nat, unregistered (∅ : gmap string (list nat)) x).
  { intros x e l Hl. rewrite lookup_empty in Hl. discriminate. }
  assert (Hne : OctreeHelper._clickHandler nat h <> OctreeHelper._dblclickHandler nat h)
    by (simpl; lia).
  exact (proj1 (destruct_keeps_click_handler nat unit ∅ h tt Hne
                  (Hfresh _) (Hfresh _) (Hfresh _))).
Defined.

Lemma selection_indices_distinct_witness :
  let g := mkGeometry [0; 0; 0; 1; 1; 1]%Q (Some (Some [1; 1; 1; 1; 1; 1]%Q)) in
  let h := OctreeHelper.mkHelper unit true g [] None [] in
  exists h',
    run unit (fun _ => tt) h
      [AddSelected unit 5 (inl 1%N); AddSelected unit 6 (inl 0%N);
       AddSelected unit 7 (inl 1%N); RemoveSelected unit (-1)]
    = Returns h'
    /\ List.NoDup (selectedIndices unit h').
Proof.
  intros g h.
  assert (Hrun : exists h',
            run unit (fun _ => tt) h
              [AddSelected unit 5 (inl 1%N); AddSelected unit 6 (inl 0%N);
               AddSelected unit 7 (inl 1%N); RemoveSelected unit (-1)]
            = Returns h').
  { eexists. vm_compute. reflexivity. }
  destruct Hrun as (h' & Hrun). exists h'. split; [exact Hrun|].
  exact (proj1 (selection_indices_distinct unit (fun _ => tt) h h' _ eq_refl Hrun)).
Defined.

Lemma getIntersections_octree_points_witness :
  let g := mkGeometry pairVertices (Some (Some [1; 1; 1; 1; 1; 1]%Q)) in
  let rc := mkRaycaster origin (mkVector3f 1 1 1) 100 1 in
  exists o res,
    build 3 (emptyOctree 1 4) pairIndices pairVertices specRoot 1 = Some o
    /\ OctreeHelper.getIntersections unit (fun _ => Some 0%Q) (fun _ => Some 1%Q)
         (fun _ _ _ _ _ => true) (fun v => v) 10 o g rc 0 1 0 = Returns res
    /\ Forall (fun it => exists code l,
                 OctreeHelper.i_locCode unit it = Some code
                 /\ points o !! code = Some (Some l)
                 /\ In (OctreeHelper.i_index unit it) l) res.
Proof.
  intros g rc.
  assert (Hcall : exists o res,
            build 3 (emptyOctree 1 4) pairIndices pairVertices specRoot 1 = Some o
            /\ OctreeHelper.getIntersections unit (fun _ => Some 0%Q)
                 (fun _ => Some 1%Q) (fun _ _ _ _ _ => true) (fun v => v) 10 o g rc
                 0 1 0 = Returns res).
  { eexists. eexists. split; [vm_compute; reflexivity|]. vm_compute. reflexivity. }
  destruct Hcall as (o & res & Hb & Hres). exists o, res.
  split; [exact Hb|]. split; [exact Hres|].
  exact (getIntersections_octree_points unit _ _ _ _ 10 o g rc 0 1 0 res Hres).
Defined.

(** ** Ray search: the candidates *)



(** ** Farthest box *)

Lemma getFarthestBox_descends o point thr : treeKeys o ->
  forall fuel c j, atDepth j c -> (j <= 9)%nat -> (10 <= fuel + j)%nat ->
  exists c',
    getFarthestBox fuel o point thr (Some c) = Some (aabbs o !! c')
    /\ (c' = c \/ is_Some (aabbs o !! c'))
    /\ forall i b, 0 <= i < 8 -> aabbs o !! (8 * c' + i) = Some b ->
         underThreshold (points o !! (8 * c' + i)) thr = true
         \/ Qltb MIN_VALUE
                 (distanceToPointSq b (vx point) (vy point) (vz point)) = false.
Proof.
  intros Htk. induction fuel as [|fuel IH]; intros c j Hc Hj Hfuel; [lia|].
  pose proof (atDepth_lt28 j c Hc Hj) as Hc28.
  cbn [getFarthestBox]. change (default 0 (Some c)) with c.
  rewrite farthestChild_bestChild.
  set (dist := fun b => distanceToPointSq b (vx point) (vy point) (vz point)).
  destruct (bestChild_spec (fun d m => Qltb m d) MIN_VALUE dist o thr c)
    as [(H1 & H2)|(i & b & Hi & H1 & Hb & _)]; cbv zeta in *; rewrite H1.
  - exists c. simpl. split; [reflexivity|]. split; [left; reflexivity|].
    intros i b Hi Hb. rewrite <- (childCode_small c i) in * by lia.
    exact (H2 i b Hi Hb).
  - rewrite (childCode_small c i) in * by lia.
    assert (Hpos : (8 * c + i <? 0) = false) by (apply Z.ltb_ge; lia).
    rewrite Hpos.
    assert (Hj8 : (S j <= 9)%nat).
    { destruct (tk_depth o Htk (8 * c + i)) as (j' & Hj' & Hat);
        [rewrite Hb; eauto|].
      pose proof (atDepth_inj _ _ _ Hat (atDepth_child _ _ _ Hc Hi)). lia. }
    destruct (IH (8 * c + i) (S j) (atDepth_child _ _ _ Hc Hi) Hj8)
      as (c' & Hres & Hkey & Hstop); [lia|].
    exists c'. split; [exact Hres|]. split; [|exact Hstop].
    right. destruct Hkey as [->|Hkey]; [rewrite Hb; eauto|exact Hkey].
Qed.

(** X25. On an octree built from the root with a depth cap of at most 9,
    [getFarthestBox] from the root code returns (with fuel 10 or more) the
    box of a node of the octree, stored under the code that the box
    carries; with the threshold 0 that node is a leaf, or each of its
    children is at a squared distance of at most [Number.MIN_VALUE] from the
    point. *)
Theorem getFarthestBox_from_root (fuel0 t d : nat) (idx : list N)
    (vertices : list Q) (box : AABB) (o : Octree) (point : Vector3f)
    (thr fuel : nat) :
  (d <= 9)%nat ->
  build fuel0 (emptyOctree t d) idx vertices box 1 = Some o ->
  (10 <= fuel)%nat ->
  exists b,
    getFarthestBox fuel o point thr (Some 1) = Some (Some b)
    /\ aabbs o !! getLocCode b = Some b
    /\ (thr = 0%nat ->
        (exists l, points o !! getLocCode b = Some (Some l))
        \/ forall i b', 0 <= i < 8 ->
             aabbs o !! (8 * getLocCode b + i) = Some b' ->
             (distanceToPointSq b' (vx point) (vy point) (vz point)
              <= MIN_VALUE)%Q).
Proof.
  intros Hd Hb Hfuel.
  destruct (built_treeKeys fuel0 t d idx vertices box o Hd Hb) as [Htk _].
  destruct (built_node_facts fuel0 t d idx vertices box o ltac:(lia) Hb)
    as (Hroot & Hnodes).
  destruct (getFarthestBox_descends o point thr Htk fuel 1 0%nat atDepth_root)
    as (c' & Hres & Hkey & Hstop); [lia|lia|].
  assert (Hk : is_Some (aabbs o !! c')).
  { destruct Hkey as [->|H]; [rewrite Hroot; eauto|exact H]. }
  destruct Hk as (b & Hbx). exists b.
  destruct (Hnodes c' b Hbx) as (Hcode & _ & Hkind).
  unfold getLocCode. rewrite Hcode, Hres.
  split; [rewrite Hbx; reflexivity|]. split; [exact Hbx|].
  intros ->.
  destruct Hkind as [_|(Hl & _)]; [right|left; exact Hl].
  intros i b' Hi Hb'. destruct (Hstop i b' Hi Hb') as [Hu|Hq].
  - unfold underThreshold in Hu.
    destruct (points o !! (8 * c' + i)) as [[l|]|]; discriminate.
  - apply Qltb_ge. exact Hq.
Qed.

Lemma getFarthestBox_from_root_witness :
  exists o b,
    build 3 (emptyOctree 1 4) pairIndices pairVertices specRoot 1 = Some o
    /\ getFarthestBox 10 o origin 0 (Some 1) = Some (Some b)
    /\ aabbs o !! getLocCode b = Some b.
Proof.
  destruct pair_build as (o & Hb & _).
  assert (Hd : (4 <= 9)%nat) by lia.
  assert (Hf : (10 <= 10)%nat) by lia.
  destruct (getFarthestBox_from_root 3 1 4 pairIndices pairVertices specRoot o
              origin 0 10 Hd Hb Hf) as (b & Hres & Hkey & _).
  exists o, b. split; [exact Hb|]. split; [exact Hres|exact Hkey].
Defined.

(** ** The boxes of a built octree *)



(** ** Depth of a generated code; traversal without pruning *)

(** X27. For a code of depth [j] at most 9 and a selector from 0 to 7:
    [getDepth] of the code is [j], [getDepth] of the code generated for the
    child is one more, and the last three bits of the generated code are
    the selector. *)
Theorem getDepth_generateLocCode (j : nat) (parentCode nodeCode : Z) :
  atDepth j parentCode -> (j <= 9)%nat -> 0 <= nodeCode < 8 ->
  (getDepth parentCode == inject_Z (Z.of_nat j))%Q
  /\ (getDepth (generateLocCode parentCode nodeCode)
      == getDepth parentCode + 1)%Q
  /\ generateLocCode parentCode nodeCode mod 8 = nodeCode.
Proof.
  intros Hc Hj Hi.
  pose proof (atDepth_lt28 j parentCode Hc Hj) as Hc28.
  rewrite generateLocCode_small by lia.
  pose proof (atDepth_child _ _ _ Hc Hi) as Hchild.
  unfold getDepth.
  rewrite (atDepth_msb j parentCode Hc) by lia.
  rewrite (atDepth_msb (S j) _ Hchild) by lia.
  split; [|split].
  - unfold Qeq, Qdiv, Qmult, Qinv, inject_Z. simpl. lia.
  - rewrite Nat2Z.inj_succ. unfold Qeq, Qdiv, Qmult, Qinv, Qplus, inject_Z.
    simpl. lia.
  - apply mod8_child. exact Hi.
Qed.

Lemma getDepth_generateLocCode_witness :
  (getDepth (generateLocCode 15 7) == getDepth 15 + 1)%Q.
Proof.
  assert (Hat : atDepth 1 15) by (unfold atDepth; simpl; lia).
  assert (Hj : (1 <= 9)%nat) by lia.
  assert (Hi : 0 <= 7 < 8) by lia.
  exact (proj1 (proj2 (getDepth_generateLocCode 1 15 7 Hat Hj Hi))).
Defined.

(** X28. With a condition callback that is always true, [traverseIf]
    makes the calls of [traverse], on every octree and from every code. *)
Theorem traverseIf_true_is_traverse (fuel : nat) (o : Octree) (code : Z) :
  traverseIf fuel o (fun _ _ => true) code = traverse fuel o code.
Proof.
  revert code. induction fuel as [|fuel IH]; intros code; [reflexivity|].
  simpl. rewrite !forOctants_fold. generalize (Some (@nil visit)).
  induction octants as [|i l IHl]; intros acc; [reflexivity|].
  cbn [fold_left]. rewrite IHl. f_equal.
  destruct acc as [vs|]; [|reflexivity].
  destruct (aabbs o !! childCode code i); [|reflexivity].
  rewrite IH. reflexivity.
Qed.
